(** * Image persistence of the perfume catalog backend

    A shallow embedding of [controllers/productController.js],
    [middleware/imageMiddleware.js] and the hooks of [server.js] that call
    it: the request handlers of the product catalog and the two sweeps
    (orphan cleanup, daily backup) that keep the [uploads/] directory and
    the catalog in step.

    The handlers are written in a small state-and-exception monad over a
    file system and a catalog; every file-system call, catalog write and
    [console.error] is recorded in an event trace, so that ordering
    properties can be stated about what a handler did. *)

From Stdlib Require Import String Ascii List ZArith QArith Lia Bool DecimalString.
From stdpp Require Import gmap strings list fin_maps sets.

Local Open Scope string_scope.
Local Open Scope list_scope.

(** ** JavaScript strings

    A string is modelled by its UTF-8 bytes.  Every prefix the code tests
    for is ASCII, so [startsWith], [slice(1)] after a ['/'] and
    concatenation act on bytes as they do on UTF-16 code units. *)

Module Js.

Fixpoint hasPrefix (pre s : string) : bool :=
  match pre with
  | EmptyString => true
  | String a pre' =>
      match s with
      | EmptyString => false
      | String b s' => Ascii.eqb a b && hasPrefix pre' s'
      end
  end.

(** [s.startsWith(pre)] *)
Definition startsWith (s pre : string) : bool := hasPrefix pre s.

(** [s.slice(1)] *)
Definition slice1 (s : string) : string :=
  match s with
  | EmptyString => EmptyString
  | String _ r => r
  end.

(** [s.startsWith('/') ? s.slice(1) : s], the normalisation shared by the
    validator, the update and delete paths and the orphan sweep. *)
Definition stripLeadingSlash (s : string) : string :=
  if startsWith s "/" then slice1 s else s.

(** [arr.includes(x)] on an array of strings. *)
Definition includes (arr : list string) (x : string) : bool :=
  existsb (String.eqb x) arr.

(** Values of a parsed request body (JSON or form fields). *)
Inductive value :=
  | Undefined
  | Null
  | Bool (b : bool)
  | Num (q : Q)
  | Str (s : string)
  | Obj.

(** Truthiness, as [!x] and [x || y] see it. *)
Definition truthy (v : value) : bool :=
  match v with
  | Undefined | Null => false
  | Bool b => b
  | Num q => negb (Z.eqb (Qnum q) 0)
  | Str s => negb (String.eqb s EmptyString)
  | Obj => true
  end.

(** [a || b] *)
Definition orElse (a b : value) : value := if truthy a then a else b.

(** Truthiness of a catalog reference ([null]/[undefined] is [None]). *)
Definition truthyRef (r : option string) : bool :=
  match r with
  | Some s => negb (String.eqb s EmptyString)
  | None => false
  end.

End Js.

(** ** The data-URI pattern

    [/^data:image\/([a-zA-Z]+);base64,(.+)$/] *)

Module DataUri.

Definition isLetter (c : ascii) : bool :=
  let n := nat_of_ascii c in
  ((65 <=? n) && (n <=? 90) || (97 <=? n) && (n <=? 122))%nat.

Fixpoint allLetters (s : string) : bool :=
  match s with
  | EmptyString => true
  | String c r => isLetter c && allLetters r
  end.

(** The longest run of letters at the front of [s], and the rest. *)
Fixpoint spanLetters (s : string) : string * string :=
  match s with
  | EmptyString => (EmptyString, EmptyString)
  | String c r =>
      if isLetter c
      then let '(a, b) := spanLetters r in (String c a, b)
      else (EmptyString, s)
  end.

Fixpoint dropPrefix (pre s : string) : option string :=
  match pre with
  | EmptyString => Some s
  | String a pre' =>
      match s with
      | EmptyString => None
      | String b s' => if Ascii.eqb a b then dropPrefix pre' s' else None
      end
  end.

(** [.] matches everything but a line terminator: LF, CR, U+2028 and
    U+2029 (the latter two are E2 80 A8 and E2 80 A9 in UTF-8). *)
Fixpoint noLineTerminator (s : string) : bool :=
  match s with
  | EmptyString => true
  | String c r =>
      if Ascii.eqb c "010" || Ascii.eqb c "013" then false
      else if Ascii.eqb c "226"
              && (Js.startsWith r (String "128" (String "168" EmptyString))
                  || Js.startsWith r (String "128" (String "169" EmptyString)))
      then false
      else noLineTerminator r
  end.

(** [str.match(re)]: the two capture groups, or [None] for [null]. *)
Definition matchDataUri (s : string) : option (string * string) :=
  match dropPrefix "data:image/" s with
  | None => None
  | Some r =>
      let '(ext, r') := spanLetters r in
      match ext with
      | EmptyString => None
      | _ =>
          match dropPrefix ";base64," r' with
          | None => None
          | Some payload =>
              match payload with
              | EmptyString => None
              | _ => if noLineTerminator payload then Some (ext, payload) else None
              end
          end
      end
  end.

(** The pattern read declaratively: the shape
    [data:image/<ext>;base64,<payload>]. *)
Definition hasShape (s ext payload : string) : Prop :=
  s = "data:image/" +:+ ext +:+ ";base64," +:+ payload
  /\ ext <> EmptyString /\ allLetters ext = true
  /\ payload <> EmptyString /\ noLineTerminator payload = true.

End DataUri.

(** ** Paths

    [path.join] on POSIX: the arguments are joined with ['/'] and the result
    is normalised.  A path is kept as its segments below the file-system
    root, with a flag for a trailing separator. *)

Module Path.

Record t := mk { segs : list string; dirslash : bool }.

(** [s.split('/')] *)
Fixpoint split (s : string) : list string :=
  match s with
  | EmptyString => [EmptyString]
  | String c r =>
      if Ascii.eqb c "/" then EmptyString :: split r
      else match split r with
           | h :: t => String c h :: t
           | [] => [String c EmptyString]
           end
  end.

(** One step of normalisation; [stack] holds the segments so far, last
    first. *)
Definition step (stack : list string) (seg : string) : list string :=
  if String.eqb seg EmptyString || String.eqb seg "." then stack
  else if String.eqb seg ".." then tl stack
  else seg :: stack.

Definition normFrom (base : list string) (more : list string) : list string :=
  rev (fold_left step more (rev base)).

Fixpoint endsWithSlash (s : string) : bool :=
  match s with
  | EmptyString => false
  | String c EmptyString => Ascii.eqb c "/"
  | String _ r => endsWithSlash r
  end.

(** [path.join(base, arg)] for an absolute, normalised [base]; an empty
    [arg] is skipped by [path.join]. *)
Definition join (base : list string) (arg : string) : t :=
  let s := normFrom base (split arg) in
  mk s (match s with [] => false | _ => endsWithSlash arg end).

(** No separator in [s]. *)
Fixpoint noSlash (s : string) : bool :=
  match s with
  | EmptyString => true
  | String c r => negb (Ascii.eqb c "/") && noSlash r
  end.

(** [s] is made of dots only: the empty string, ["."], [".."], ... *)
Fixpoint allDots (s : string) : bool :=
  match s with
  | EmptyString => true
  | String c r => Ascii.eqb c "." && allDots r
  end.

(** [path.join(dir, name)] for an entry name returned by [readdirSync]:
    entry names hold no separator and are never ["."] or [".."]. *)
Definition child (dir : list string) (name : string) : t :=
  mk (dir ++ [name]) false.

Definition ofSegs (s : list string) : t := mk s false.

End Path.

(** ** The file system *)

Module Fs.

Inductive node :=
  | File (content : list Byte.byte)
  | Dir.

(** Nodes by path; the root directory is always there. *)
Abbreviation t := (gmap (list string) node).

Definition nodeAt (fs : t) (p : list string) : option node :=
  match p with
  | [] => Some Dir
  | _ => fs !! p
  end.

(** [fs.existsSync]: a regular file is not found through a path with a
    trailing separator. *)
Definition exists_ (fs : t) (p : Path.t) : bool :=
  match nodeAt fs (Path.segs p) with
  | Some Dir => true
  | Some (File _) => negb (Path.dirslash p)
  | None => false
  end.

(** [fs.mkdirSync(p, { recursive: true })]: creates the missing ancestors,
    fails on a regular file in the way. *)
Fixpoint mkdirFrom (fs : t) (done todo : list string) : option t :=
  match todo with
  | [] => Some fs
  | s :: rest =>
      let d := done ++ [s] in
      match fs !! d with
      | Some Dir => mkdirFrom fs d rest
      | Some (File _) => None
      | None => mkdirFrom (<[d := Dir]> fs) d rest
      end
  end.

Definition mkdirp (fs : t) (p : Path.t) : option t :=
  mkdirFrom fs [] (Path.segs p).

(** [fs.writeFileSync]: the parent must be a directory and the target must
    not be one. *)
Definition write (fs : t) (p : Path.t) (data : list Byte.byte) : option t :=
  if Path.dirslash p then None
  else match Path.segs p with
       | [] => None
       | s =>
           match nodeAt fs (removelast s), nodeAt fs s with
           | Some Dir, Some Dir => None
           | Some Dir, _ => Some (<[s := File data]> fs)
           | _, _ => None
           end
       end.

(** [fs.unlinkSync]: removes a regular file, fails on anything else. *)
Definition unlink (fs : t) (p : Path.t) : option t :=
  if Path.dirslash p then None
  else match nodeAt fs (Path.segs p) with
       | Some (File _) => Some (delete (Path.segs p) fs)
       | _ => None
       end.

(** [fs.copyFileSync]: the source must be a regular file. *)
Definition copy (fs : t) (src dst : Path.t) : option t :=
  if Path.dirslash src then None
  else match nodeAt fs (Path.segs src) with
       | Some (File data) => write fs dst data
       | _ => None
       end.

(** The name under which [p] is an entry of [dir], when it is one. *)
Fixpoint childName (dir p : list string) : option string :=
  match dir, p with
  | [], [n] => Some n
  | d :: dir', s :: p' => if String.eqb d s then childName dir' p' else None
  | _, _ => None
  end.

Definition children (fs : t) (dir : list string) : gset string :=
  set_omap (childName dir) (dom fs).

(** [fs.readdirSync]: the entry names of a directory. *)
Definition readdir (fs : t) (dir : list string) : option (list string) :=
  match nodeAt fs dir with
  | Some Dir => Some (elements (children fs dir))
  | _ => None
  end.

End Fs.

(** ** The catalog (the [Product] collection)

    The schema of [models/Product.js] is taken as a parameter of the
    environment ([schemaAccepts]); an image reference is a string or
    missing. *)

Record Fields := mkFields {
  f_title : Js.value;
  f_description : Js.value;
  f_rating : Js.value;
  f_price : Js.value;
  f_discount : Js.value;
  f_imageUrl : option string
}.

Record Product := mkProduct { _id : string; fields : Fields }.

(** ** What the handlers take from their surroundings *)

Inductive IoOp :=
  | OpMkdir (p : list string)
  | OpWrite (p : list string)
  | OpUnlink (p : list string)
  | OpCopy (src dst : list string)
  | OpReaddir (p : list string).

Record Env := mkEnv {
  appRoot : list string;            (* [path.join(__dirname, '..')] *)
  dateNow : N;                      (* [Date.now()] *)
  randomDigits : list nat;          (* [Math.random().toString(36).substring(7)], digit by digit *)
  today : N * N * N;                (* year, month, day of [new Date()] in UTC *)
  decodeBase64 : string -> list Byte.byte;   (* [Buffer.from(s, 'base64')] *)
  ioError : IoOp -> bool;           (* an I/O error of the medium (EACCES, ENOSPC, ...) *)
  dbDown : bool;                    (* the catalog store rejects every call *)
  schemaAccepts : Fields -> bool;   (* the schema validation run by [save] *)
  freshId : string                  (* the [_id] given to a new document *)
}.

Module Render.

(** A number in decimal, as a template literal prints it. *)
Definition decimal (n : N) : string := NilEmpty.string_of_uint (N.to_uint n).

Definition padTo (width : nat) (s : string) : string :=
  string_of_list_ascii (repeat "0"%char (width - String.length s)) +:+ s.

Definition base36Alphabet : list ascii :=
  list_ascii_of_string "0123456789abcdefghijklmnopqrstuvwxyz".

Definition base36 (ds : list nat) : string :=
  string_of_list_ascii (map (fun d => nth (d mod 36) base36Alphabet "0"%char) ds).

(** [new Date().toISOString().split('T')[0]] *)
Definition isoDate (d : N * N * N) : string :=
  let '(y, m, dd) := d in
  padTo 4 (decimal y) +:+ "-" +:+ padTo 2 (decimal m) +:+ "-" +:+ padTo 2 (decimal dd).

End Render.

Definition uploadsDir (env : Env) : list string :=
  Path.segs (Path.join (appRoot env) "uploads").

Definition backupDir (env : Env) : list string :=
  Path.segs (Path.join (appRoot env) ("backups/images/" +:+ Render.isoDate (today env))).

(** ** Events, state and the monad of the handlers *)

Inductive Event :=
  | EvExists (p : Path.t) (found : bool)
  | EvMkdir (p : list string)
  | EvWrite (p : Path.t) (data : list Byte.byte)
  | EvUnlink (p : Path.t)
  | EvCopy (src dst : Path.t)
  | EvSave (doc : Product)
  | EvUpdate (doc : Product)
  | EvDelete (id : string)
  | EvError (msg detail : string)
  | EvCleaned (n : nat)
  | EvBackedUp (n : nat).

Record State := mkState { fs : Fs.t; db : list Product }.

(** A result, or an exception kept as its message ([error.message]). *)
Inductive Res (A : Type) :=
  | Ok (a : A)
  | Throw (e : string).
Arguments Ok {A} a.
Arguments Throw {A} e.

Definition M (A : Type) : Type := State -> Res A * State * list Event.

Definition ret {A} (a : A) : M A := fun st => (Ok a, st, []).

Definition throw {A} (e : string) : M A := fun st => (Throw e, st, []).

Definition bind {A B} (m : M A) (k : A -> M B) : M B :=
  fun st =>
    match m st with
    | (Ok a, st', tr) => let '(r, st'', tr') := k a st' in (r, st'', tr ++ tr')
    | (Throw e, st', tr) => (Throw e, st', tr)
    end.

(** [try { m } catch (e) { h e }] *)
Definition tryCatch {A} (m : M A) (h : string -> M A) : M A :=
  fun st =>
    match m st with
    | (Ok a, st', tr) => (Ok a, st', tr)
    | (Throw e, st', tr) => let '(r, st'', tr') := h e st' in (r, st'', tr ++ tr')
    end.

Declare Scope handler_scope.
Delimit Scope handler_scope with handler.
Notation "x <- m ;; k" := (bind m (fun x => k))
  (at level 100, m at next level, right associativity) : handler_scope.
Notation "m ;;; k" := (bind m (fun _ => k))
  (at level 100, right associativity) : handler_scope.
Local Open Scope handler_scope.

Definition emit (e : Event) : M unit := fun st => (Ok tt, st, [e]).

(** [console.error(msg, detail)] *)
Definition consoleError (msg detail : string) : M unit := emit (EvError msg detail).

(** *** File-system calls *)

Definition existsSync (p : Path.t) : M bool :=
  fun st => let b := Fs.exists_ (fs st) p in (Ok b, st, [EvExists p b]).

Definition fsStep (failed : bool) (next : option Fs.t) (e : Event) (err : string) : M unit :=
  fun st =>
    if failed then (Throw err, st, [])
    else match next with
         | Some fs' => (Ok tt, mkState fs' (db st), [e])
         | None => (Throw err, st, [])
         end.

Definition mkdirSync (env : Env) (p : Path.t) : M unit :=
  fun st => fsStep (ioError env (OpMkdir (Path.segs p))) (Fs.mkdirp (fs st) p)
                   (EvMkdir (Path.segs p)) "mkdir failed" st.

Definition writeFileSync (env : Env) (p : Path.t) (data : list Byte.byte) : M unit :=
  fun st => fsStep (ioError env (OpWrite (Path.segs p))) (Fs.write (fs st) p data)
                   (EvWrite p data) "write failed" st.

Definition unlinkSync (env : Env) (p : Path.t) : M unit :=
  fun st => fsStep (ioError env (OpUnlink (Path.segs p))) (Fs.unlink (fs st) p)
                   (EvUnlink p) "unlink failed" st.

Definition copyFileSync (env : Env) (src dst : Path.t) : M unit :=
  fun st => fsStep (ioError env (OpCopy (Path.segs src) (Path.segs dst)))
                   (Fs.copy (fs st) src dst) (EvCopy src dst) "copyfile failed" st.

Definition readdirSync (env : Env) (dir : list string) : M (list string) :=
  fun st =>
    if ioError env (OpReaddir dir) then (Throw "scandir failed", st, [])
    else match Fs.readdir (fs st) dir with
         | Some names => (Ok names, st, [])
         | None => (Throw "scandir failed", st, [])
         end.

(** *** Catalog calls *)

Definition dbCall {A} (env : Env) (m : M A) : M A :=
  if dbDown env then throw "MongoError" else m.

(** [Product.find()]; the list is kept newest first, the order of
    [sort({ createdAt: -1 })]. *)
Definition dbFind (env : Env) : M (list Product) :=
  dbCall env (fun st => (Ok (db st), st, [])).

(** [Product.findById(id)], for an id of the kind the catalog gives out: the
    cast error that a malformed id raises is not modelled. *)
Definition dbFindById (env : Env) (id : string) : M (option Product) :=
  dbCall env (fun st => (Ok (find (fun p => String.eqb (_id p) id) (db st)), st, [])).

(** [new Product(f).save()] *)
Definition dbSave (env : Env) (f : Fields) : M Product :=
  dbCall env (fun st =>
    if schemaAccepts env f
    then let doc := mkProduct (freshId env) f in
         (Ok doc, mkState (fs st) (doc :: db st), [EvSave doc])
    else (Throw "ValidationError", st, [])).

Fixpoint replaceDoc (id : string) (f : Fields) (l : list Product) : list Product :=
  match l with
  | [] => []
  | p :: r => if String.eqb (_id p) id then mkProduct id f :: r else p :: replaceDoc id f r
  end.

(** [Product.findByIdAndUpdate(id, { $set: f }, { new: true })] *)
Definition dbFindByIdAndUpdate (env : Env) (id : string) (f : Fields) : M (option Product) :=
  dbCall env (fun st =>
    match find (fun p => String.eqb (_id p) id) (db st) with
    | Some _ =>
        let doc := mkProduct id f in
        (Ok (Some doc), mkState (fs st) (replaceDoc id f (db st)), [EvUpdate doc])
    | None => (Ok None, st, [])
    end).

Fixpoint removeDoc (id : string) (l : list Product) : list Product :=
  match l with
  | [] => []
  | p :: r => if String.eqb (_id p) id then r else p :: removeDoc id r
  end.

(** [Product.findByIdAndDelete(id)] *)
Definition dbFindByIdAndDelete (env : Env) (id : string) : M unit :=
  dbCall env (fun st => (Ok tt, mkState (fs st) (removeDoc id (db st)), [EvDelete id])).

(** [arr.map(f)] for an [f] that may consult the file system or throw. *)
Fixpoint mapM {A B} (f : A -> M B) (l : list A) : M (list B) :=
  match l with
  | [] => ret []
  | a :: r => b <- f a ;; bs <- mapM f r ;; ret (b :: bs)
  end.

(** ** Requests and responses *)

Record Body := mkBody {
  b_title : Js.value;
  b_description : Js.value;
  b_rating : Js.value;
  b_price : Js.value;
  b_discount : Js.value;
  b_imageUrl : Js.value
}.

Record Request := mkRequest {
  params_id : option string;      (* [req.params.id] *)
  body : Body;                    (* [req.body] *)
  file : option string;           (* [req.file.filename], when multer stored a file *)
  protocol : string;              (* [req.protocol] *)
  host : string                   (* [req.get('host')] *)
}.

(** A product as sent back: the document, and the two fields a handler may
    add to it.  [None] is a property that is absent; a [fullImageUrl] of
    [Some None] is [null]. *)
Record Enhanced := mkEnhanced {
  doc : Product;
  imageExists : option bool;
  fullImageUrl : option (option string)
}.

(** An entry of the image status report. *)
Record StatusEntry := mkStatus {
  s_id : string;
  s_title : Js.value;
  s_imageUrl : option string;
  s_exists : bool;
  s_fullUrl : option string
}.

Inductive Payload :=
  | Message (message : string)
  | Failure (message error : string)
  | OneProduct (p : Enhanced)
  | Products (l : list Enhanced)
  | StatusReport (l : list StatusEntry).

Record Response := mkResponse { status : nat; json : Payload }.

(** The messages of the error taxonomy. *)
Definition InvalidImageFormat : Response := mkResponse 400 (Message "Invalid image format").
Definition MissingImage : Response := mkResponse 400 (Message "Image is required").
Definition MissingFields : Response := mkResponse 400 (Message "Please provide all required fields").

(** ** [controllers/productController.js] *)

(** Lines 8-16. *)
Definition validateImageFile (env : Env) (imageUrl : option string) : M bool :=
  match imageUrl with
  | None => ret false
  | Some url =>
      if negb (Js.truthyRef imageUrl) then ret false
      else existsSync (Path.join (appRoot env) (Js.stripLeadingSlash url))
  end.

(** Lines 21-37. *)
Definition getFullImageUrl (imageUrl : option string) (req : Request) : option string :=
  match imageUrl with
  | None => None
  | Some url =>
      if negb (Js.truthyRef imageUrl) then None
      else if Js.startsWith url "http" then Some url
      else if Js.startsWith url "/uploads/"
           then Some (protocol req +:+ "://" +:+ host req +:+ url)
           else Some url
  end.

(** Lines 48-59 and 85-92: the enrichment of one document on a read. *)
Definition enhance (env : Env) (req : Request) (p : Product) : M Enhanced :=
  if Js.truthyRef (f_imageUrl (fields p))
  then found <- validateImageFile env (f_imageUrl (fields p)) ;;
       ret (mkEnhanced p (Some found) (Some (getFullImageUrl (f_imageUrl (fields p)) req)))
  else ret (mkEnhanced p None None).

(** Lines 42-67. *)
Definition getAllProducts (env : Env) (req : Request) : M Response :=
  tryCatch
    (products <- dbFind env ;;
     enhancedProducts <- mapM (enhance env req) products ;;
     ret (mkResponse 200 (Products enhancedProducts)))
    (fun error =>
       consoleError "Get products error:" error ;;;
       ret (mkResponse 500 (Failure "Server error" error))).

(** Lines 72-99. *)
Definition getProductById (env : Env) (req : Request) : M Response :=
  tryCatch
    (if negb (Js.truthyRef (params_id req))
     then ret (mkResponse 400 (Message "Product ID is required"))
     else
       product <- dbFindById env (default EmptyString (params_id req)) ;;
       match product with
       | None => ret (mkResponse 404 (Message "Product not found"))
       | Some p =>
           productObj <- enhance env req p ;;
           ret (mkResponse 200 (OneProduct productObj))
       end)
    (fun error =>
       consoleError "Get product error:" error ;;;
       ret (mkResponse 500 (Failure "Server error" error))).

(** The name given to a decoded inline image (lines 148-150 and 272). *)
Definition base64Filename (env : Env) (fileExtension : string) : string :=
  "base64-" +:+ Render.decimal (dateNow env) +:+ "-" +:+ Render.base36 (randomDigits env)
  +:+ "." +:+ fileExtension.

(** Lines 130-171: the inline-encoded variant of ingestion on create.  The
    result is the response of an early [return], or the reference. *)
Definition createFromBase64 (env : Env) (imageUrlFromBody : string) : M (Response + string) :=
  tryCatch
    (let uploads := Path.ofSegs (uploadsDir env) in
     dirExists <- existsSync uploads ;;
     (if negb dirExists then mkdirSync env uploads else ret tt) ;;;
     match DataUri.matchDataUri imageUrlFromBody with
     | None => throw "Invalid base64 image format"
     | Some (fileExtension, base64Data) =>
         let buffer := decodeBase64 env base64Data in
         let filename := base64Filename env fileExtension in
         let filePath := Path.join (uploadsDir env) filename in
         writeFileSync env filePath buffer ;;;
         let imageUrl := "/uploads/" +:+ filename in
         created <- existsSync filePath ;;
         if created then ret (inr imageUrl)
         else
           consoleError "File was not created!" EmptyString ;;;
           ret (inl (mkResponse 500 (Message "Failed to save base64 image")))
     end)
    (fun base64Error =>
       consoleError "Error processing base64 image:" base64Error ;;;
       ret (inl InvalidImageFormat)).

(** Lines 111-172: ingestion on create. *)
Definition createIngest (env : Env) (req : Request) : M (Response + string) :=
  match file req with
  | Some filename =>
      let imageUrl := "/uploads/" +:+ filename in
      let filePath := Path.join (uploadsDir env) filename in
      created <- existsSync filePath ;;
      if created then ret (inr imageUrl)
      else
        consoleError "Multer file was not created!" EmptyString ;;;
        ret (inl (mkResponse 500 (Message "Failed to save uploaded image")))
  | None =>
      let imageUrlFromBody := b_imageUrl (body req) in
      if Js.truthy imageUrlFromBody
      then match imageUrlFromBody with
           | Js.Str s =>
               if Js.startsWith s "data:image" then createFromBase64 env s
               else ret (inr EmptyString)
           | _ => throw "imageUrlFromBody.startsWith is not a function"
           end
      else ret (inr EmptyString)
  end.

(** [!title || !rating || !price || !discount] *)
Definition requiredMissing (b : Body) : bool :=
  negb (Js.truthy (b_title b)) || negb (Js.truthy (b_rating b))
  || negb (Js.truthy (b_price b)) || negb (Js.truthy (b_discount b)).

(** Lines 104-215. *)
Definition createProduct (env : Env) (req : Request) : M Response :=
  tryCatch
    (ingested <- createIngest env req ;;
     match ingested with
     | inl early => ret early
     | inr imageUrl =>
         if requiredMissing (body req)
         then consoleError "Missing required fields:" EmptyString ;;; ret MissingFields
         else if negb (Js.truthyRef (Some imageUrl))
         then
           consoleError "No image URL generated from upload or base64 data" EmptyString ;;;
           ret MissingImage
         else
           valid <- validateImageFile env (Some imageUrl) ;;
           if negb valid
           then
             consoleError "Image file does not exist after upload:" imageUrl ;;;
             ret (mkResponse 500 (Message "Failed to validate uploaded image"))
           else
             let b := body req in
             savedProduct <- dbSave env (mkFields (b_title b) (b_description b) (b_rating b)
                                                  (b_price b) (b_discount b) (Some imageUrl)) ;;
             ret (mkResponse 201
                    (OneProduct (mkEnhanced savedProduct (Some true)
                       (Some (getFullImageUrl (f_imageUrl (fields savedProduct)) req)))))
     end)
    (fun error =>
       consoleError "Create product error:" error ;;;
       ret (mkResponse 500 (Failure "Server error" error))).

#[global] Instance path_eq_dec : EqDecision Path.t.
Proof. solve_decision. Defined.

(** Lines 239, 303, 346: where a reference lives on disk. *)
Definition imagePathOf (env : Env) (url : string) : Path.t :=
  Path.join (appRoot env) (Js.stripLeadingSlash url).

(** Lines 235-240: where the blob of the stored product lives, if it has
    one. *)
Definition oldImagePathOf (env : Env) (product : Product) : option Path.t :=
  if Js.truthyRef (f_imageUrl (fields product))
  then Some (imagePathOf env (default EmptyString (f_imageUrl (fields product))))
  else None.

(** Lines 254-288: the inline-encoded variant of ingestion on update. *)
Definition updateFromBase64 (env : Env) (imageUrlFromBody : string) : M (Response + string) :=
  tryCatch
    (let uploads := Path.ofSegs (uploadsDir env) in
     dirExists <- existsSync uploads ;;
     (if negb dirExists then mkdirSync env uploads else ret tt) ;;;
     match DataUri.matchDataUri imageUrlFromBody with
     | None => throw "Invalid base64 image format"
     | Some (fileExtension, base64Data) =>
         let buffer := decodeBase64 env base64Data in
         let filename := base64Filename env fileExtension in
         let filePath := Path.join (uploadsDir env) filename in
         writeFileSync env filePath buffer ;;;
         let imageUrl := "/uploads/" +:+ filename in
         created <- existsSync filePath ;;
         if negb created
         then ret (inl (mkResponse 500 (Message "Failed to save updated image")))
         else ret (inr imageUrl)
     end)
    (fun base64Error =>
       consoleError "Error processing base64 image update:" base64Error ;;;
       ret (inl InvalidImageFormat)).

(** Lines 234-289: ingestion on update; without a new image the reference
    of the stored product is kept. *)
Definition updateIngest (env : Env) (req : Request) (product : Product)
  : M (Response + option string) :=
  match file req with
  | Some filename =>
      let imageUrl := "/uploads/" +:+ filename in
      let newFilePath := Path.join (uploadsDir env) filename in
      created <- existsSync newFilePath ;;
      if negb created
      then ret (inl (mkResponse 500 (Message "Failed to save uploaded image")))
      else ret (inr (Some imageUrl))
  | None =>
      let imageUrlFromBody := b_imageUrl (body req) in
      if Js.truthy imageUrlFromBody
      then match imageUrlFromBody with
           | Js.Str s =>
               if Js.startsWith s "data:image"
               then r <- updateFromBase64 env s ;;
                    ret (match r with inl early => inl early | inr url => inr (Some url) end)
               else ret (inr (f_imageUrl (fields product)))
           | _ => throw "imageUrlFromBody.startsWith is not a function"
           end
      else ret (inr (f_imageUrl (fields product)))
  end.

(** Lines 302-313: the removal of the old blob once the record is updated. *)
Definition removeOldImage (env : Env) (oldImagePath : option Path.t) (imageUrl : option string)
  : M unit :=
  match oldImagePath with
  | None => ret tt
  | Some old =>
      match imageUrl with
      | None => throw "Cannot read properties of undefined (reading 'startsWith')"
      | Some url =>
          if bool_decide (old <> imagePathOf env url)
          then tryCatch
                 (found <- existsSync old ;;
                  if found then unlinkSync env old else ret tt)
                 (fun cleanupError => consoleError "Error deleting old image file:" cleanupError)
          else ret tt
      end
  end.

(** Lines 220-325. *)
Definition updateProduct (env : Env) (req : Request) : M Response :=
  tryCatch
    (if negb (Js.truthyRef (params_id req))
     then ret (mkResponse 400 (Message "Product ID is required"))
     else
       let id := default EmptyString (params_id req) in
       found <- dbFindById env id ;;
       match found with
       | None => ret (mkResponse 404 (Message "Product not found"))
       | Some product =>
           let oldImagePath := oldImagePathOf env product in
           ingested <- updateIngest env req product ;;
           match ingested with
           | inl early => ret early
           | inr imageUrl =>
               let b := body req in
               let old := fields product in
               let productFields :=
                 mkFields (Js.orElse (b_title b) (f_title old))
                          (Js.orElse (b_description b) (f_description old))
                          (Js.orElse (b_rating b) (f_rating old))
                          (Js.orElse (b_price b) (f_price old))
                          (Js.orElse (b_discount b) (f_discount old))
                          imageUrl in
               updated <- dbFindByIdAndUpdate env id productFields ;;
               removeOldImage env oldImagePath imageUrl ;;;
               match updated with
               | None => throw "Cannot read properties of null (reading 'toObject')"
               | Some p =>
                   let full := getFullImageUrl (f_imageUrl (fields p)) req in
                   found <- validateImageFile env (f_imageUrl (fields p)) ;;
                   ret (mkResponse 200 (OneProduct (mkEnhanced p (Some found) (Some full))))
               end
           end
       end)
    (fun error =>
       consoleError "Update product error:" error ;;;
       ret (mkResponse 500 (Failure "Server error" error))).

(** Lines 330-363. *)
Definition deleteProduct (env : Env) (req : Request) : M Response :=
  tryCatch
    (if negb (Js.truthyRef (params_id req))
     then ret (mkResponse 400 (Message "Product ID is required"))
     else
       let id := default EmptyString (params_id req) in
       found <- dbFindById env id ;;
       match found with
       | None => ret (mkResponse 404 (Message "Product not found"))
       | Some product =>
           (if Js.truthyRef (f_imageUrl (fields product))
            then tryCatch
                   (let imagePath := imagePathOf env (default EmptyString (f_imageUrl (fields product))) in
                    present <- existsSync imagePath ;;
                    if present then unlinkSync env imagePath else ret tt)
                   (fun imageDeleteError => consoleError "Error deleting product image file:" imageDeleteError)
            else ret tt) ;;;
           dbFindByIdAndDelete env id ;;;
           ret (mkResponse 200 (Message "Product removed successfully"))
       end)
    (fun error =>
       consoleError "Delete product error:" error ;;;
       ret (mkResponse 500 (Failure "Server error" error))).

(** Lines 368-384. *)
Definition getImageStatus (env : Env) (req : Request) : M Response :=
  tryCatch
    (products <- dbFind env ;;
     imageStatus <- mapM (fun product =>
                       found <- validateImageFile env (f_imageUrl (fields product)) ;;
                       ret (mkStatus (_id product) (f_title (fields product))
                                     (f_imageUrl (fields product)) found
                                     (getFullImageUrl (f_imageUrl (fields product)) req)))
                    products ;;
     ret (mkResponse 200 (StatusReport imageStatus)))
    (fun error =>
       consoleError "Get image status error:" error ;;;
       ret (mkResponse 500 (Failure "Server error" error))).

(** ** [middleware/imageMiddleware.js] *)

(** [ensureUploadsDirectory]: [None] lets the request through ([next()]). *)
Definition ensureUploadsDirectory (env : Env) : M (option Response) :=
  let uploads := Path.ofSegs (uploadsDir env) in
  present <- existsSync uploads ;;
  if negb present
  then tryCatch
         (mkdirSync env uploads ;;; ret None)
         (fun error =>
            consoleError "Failed to create uploads directory:" error ;;;
            ret (Some (mkResponse 500 (Message "Failed to create uploads directory"))))
  else ret None.

(** [products.map(p => ...)] of the orphan sweep: a missing reference
    has no [startsWith]. *)
Definition usedImage (p : Product) : M string :=
  match f_imageUrl (fields p) with
  | Some url => ret (Js.stripLeadingSlash url)
  | None => throw "Cannot read properties of undefined (reading 'startsWith')"
  end.

(** The [for (const file of files)] loop of the orphan sweep. *)
Fixpoint cleanupLoop (env : Env) (usedImages files : list string) (cleanedCount : nat)
  : M nat :=
  match files with
  | [] => ret cleanedCount
  | file_ :: rest =>
      let filePath := Path.child (uploadsDir env) file_ in
      let relativePath := "uploads/" +:+ file_ in
      if negb (Js.includes usedImages relativePath)
      then
        count <- tryCatch
                   (unlinkSync env filePath ;;; ret (S cleanedCount))
                   (fun error =>
                      consoleError "Failed to delete orphaned image:" error ;;;
                      ret cleanedCount) ;;
        cleanupLoop env usedImages rest count
      else cleanupLoop env usedImages rest cleanedCount
  end.

(** [cleanupOrphanedImages]; the [next] callback does nothing at start-up. *)
Definition cleanupOrphanedImages (env : Env) : M unit :=
  tryCatch
    (present <- existsSync (Path.ofSegs (uploadsDir env)) ;;
     if negb present then ret tt
     else
       files <- readdirSync env (uploadsDir env) ;;
       products <- dbFind env ;;
       usedImages <- mapM usedImage products ;;
       cleanedCount <- cleanupLoop env usedImages files 0 ;;
       if (0 <? cleanedCount)%nat then emit (EvCleaned cleanedCount) else ret tt)
    (fun error => consoleError "Error in cleanupOrphanedImages:" error).

(** The [for (const file of files)] loop of the backup. *)
Fixpoint backupLoop (env : Env) (files : list string) (backedUpCount : nat) : M nat :=
  match files with
  | [] => ret backedUpCount
  | file_ :: rest =>
      let sourcePath := Path.child (uploadsDir env) file_ in
      let destPath := Path.child (backupDir env) file_ in
      present <- existsSync destPath ;;
      if negb present
      then copyFileSync env sourcePath destPath ;;;
           backupLoop env rest (S backedUpCount)
      else backupLoop env rest backedUpCount
  end.

(** [backupImages], once today's partition is there: the listing, the loop
    and the report. *)
Definition backupIntoPartition (env : Env) : M unit :=
  files <- readdirSync env (uploadsDir env) ;;
  backedUpCount <- backupLoop env files 0 ;;
  if (0 <? backedUpCount)%nat then emit (EvBackedUp backedUpCount) else ret tt.

(** [backupImages] *)
Definition backupImages (env : Env) : M unit :=
  tryCatch
    (present <- existsSync (Path.ofSegs (uploadsDir env)) ;;
     if negb present then ret tt
     else
       partition <- existsSync (Path.ofSegs (backupDir env)) ;;
       (if negb partition then mkdirSync env (Path.ofSegs (backupDir env)) else ret tt) ;;;
       backupIntoPartition env)
    (fun error => consoleError "Error backing up images:" error).

(** ** [server.js]

    The two hooks that call the sweeps.  ([console.log] lines leave no
    event; the messages of [console.error] are given without their leading
    pictograph.) *)

(** Lines 153-161: the sweeps that run once the server listens. *)
Definition initialSweeps (env : Env) : M unit :=
  tryCatch
    (cleanupOrphanedImages env ;;; backupImages env)
    (fun error => consoleError "Error during initial cleanup:" error).

(** Lines 167-191: the handler of SIGTERM and of SIGINT; the result is the
    exit code. *)
Definition shutdown (env : Env) : M nat :=
  tryCatch (backupImages env)
           (fun error => consoleError "Error backing up images during shutdown:" error) ;;;
  ret 0%nat.

(** What a handler did, started on a file system and a catalog: its result,
    the two stores afterwards and the events in order. *)
Definition run {A} (m : M A) (files : Fs.t) (catalog : list Product)
  : Res A * Fs.t * list Product * list Event :=
  let '(r, st, tr) := m (mkState files catalog) in (r, fs st, db st, tr).

Definition copies (tr : list Event) : list Path.t :=
  omap (fun e => match e with EvCopy _ dst => Some dst | _ => None end) tr.

Definition unlinks (tr : list Event) : list Path.t :=
  omap (fun e => match e with EvUnlink p => Some p | _ => None end) tr.

Definition writes (tr : list Event) : list Path.t :=
  omap (fun e => match e with EvWrite p _ => Some p | _ => None end) tr.

Definition saves (tr : list Event) : list Product :=
  omap (fun e => match e with EvSave d => Some d | _ => None end) tr.

Definition errors (tr : list Event) : list string :=
  omap (fun e => match e with EvError m _ => Some m | _ => None end) tr.

(** ** Vocabulary of the properties *)

(** [wp m pre Q st]: started in [st] after the events [pre], the handler
    [m] ends in a result, a state and a trace (with [pre] in front) that
    satisfy [Q]. *)
Definition wp {A} (m : M A) (pre : list Event)
    (Q : Res A -> State -> list Event -> Prop) (st : State) : Prop :=
  Q (fst (fst (m st))) (snd (fst (m st))) (pre ++ snd (m st)).

(** The two file systems hold the same regular files (directories may
    differ). *)
Definition sameFiles (a b : Fs.t) : Prop :=
  forall p c, a !! p = Some (Fs.File c) <-> b !! p = Some (Fs.File c).

(** The inline image field is empty or is a string that does not announce
    an inline image: lines 129 and 253 skip it. *)
Definition noInlineImage (v : Js.value) : bool :=
  negb (Js.truthy v)
  || match v with
     | Js.Str s => negb (Js.startsWith s "data:image")
     | _ => false
     end.

(** The request brings a new image: an uploaded file, or an inline string
    that announces one (lines 243 and 253). *)
Definition suppliesImage (req : Request) : bool :=
  match file req with
  | Some _ => true
  | None =>
      match b_imageUrl (body req) with
      | Js.Str s => Js.startsWith s "data:image"
      | _ => false
      end
  end.

Definition updates (tr : list Event) : list Product :=
  omap (fun e => match e with EvUpdate d => Some d | _ => None end) tr.

(** What the validator answers for a reference on the files [files]. *)
Definition blobFound (env : Env) (files : Fs.t) (ref : option string) : bool :=
  Js.truthyRef ref && Fs.exists_ files (imagePathOf env (default EmptyString ref)).

(** An entry of a read response: annotated when the document has a
    reference, bare when it has none (lines 51 and 88). *)
Definition annotated (env : Env) (req : Request) (files : Fs.t) (e : Enhanced) : Prop :=
  let ref := f_imageUrl (fields (doc e)) in
  if Js.truthyRef ref
  then imageExists e = Some (blobFound env files ref)
       /\ fullImageUrl e = Some (getFullImageUrl ref req)
  else imageExists e = None /\ fullImageUrl e = None.

(** The entry of the image status report for a document (lines 371-377). *)
Definition statusOf (env : Env) (req : Request) (files : Fs.t) (p : Product) : StatusEntry :=
  mkStatus (_id p) (f_title (fields p)) (f_imageUrl (fields p))
           (blobFound env files (f_imageUrl (fields p)))
           (getFullImageUrl (f_imageUrl (fields p)) req).

(** The live references of the catalog, normalised as the orphan sweep
    does. *)
Definition liveSet (catalog : list Product) : list string :=
  map (fun p => Js.stripLeadingSlash (default EmptyString (f_imageUrl (fields p)))) catalog.

(** The store entry [name] is referenced by no record. *)
Definition orphan (catalog : list Product) (name : string) : bool :=
  negb (Js.includes (liveSet catalog) ("uploads/" +:+ name)).

(** The message of what [undefined.startsWith] throws. *)
Definition missingReference : string :=
  "Cannot read properties of undefined (reading 'startsWith')".

Definition hasReference (p : Product) : bool :=
  match f_imageUrl (fields p) with
  | Some _ => true
  | None => false
  end.

(** The store entry [name] is a regular file that the medium lets go. *)
Definition removable (env : Env) (files : Fs.t) (name : string) : Prop :=
  ioError env (OpUnlink (uploadsDir env ++ [name])) = false
  /\ exists c, files !! (uploadsDir env ++ [name]) = Some (Fs.File c).

(** [files] without the entries [names] of [dir]. *)
Definition removeAll (dir : list string) (names : list string) (files : Fs.t) : Fs.t :=
  fold_left (fun f name => delete (dir ++ [name]) f) names files.

(** The copy of the store entry [name] into today's partition fails: the
    medium refuses it, or the source is no regular file, or the target
    cannot be written. *)
Definition copyFails (env : Env) (files : Fs.t) (name : string) : Prop :=
  ioError env (OpCopy (uploadsDir env ++ [name]) (backupDir env ++ [name])) = true
  \/ Fs.copy files (Path.child (uploadsDir env) name) (Path.child (backupDir env) name) = None.

(** The backup loop over [names] has nothing left to copy: every name is
    in today's partition already, up to a first one whose copy fails. *)
Fixpoint settled (env : Env) (files : Fs.t) (names : list string) : Prop :=
  match names with
  | [] => True
  | name :: rest =>
      (Fs.exists_ files (Path.child (backupDir env) name) = true /\ settled env files rest)
      \/ (Fs.exists_ files (Path.child (backupDir env) name) = false
          /\ copyFails env files name)
  end.

(** A whole backup has nothing left to copy. *)
Definition settledStore (env : Env) (files : Fs.t) : Prop :=
  Fs.exists_ files (Path.ofSegs (uploadsDir env)) = false
  \/ (Fs.exists_ files (Path.ofSegs (backupDir env)) = false
      /\ (ioError env (OpMkdir (backupDir env)) = true
          \/ Fs.mkdirp files (Path.ofSegs (backupDir env)) = None))
  \/ (Fs.exists_ files (Path.ofSegs (backupDir env)) = true
      /\ (ioError env (OpReaddir (uploadsDir env)) = true
          \/ Fs.readdir files (uploadsDir env) = None
          \/ exists names, Fs.readdir files (uploadsDir env) = Some names
                           /\ settled env files names)).

(** What a first backup run from [files] leaves behind: a store on which
    a second run (in [env2]) has nothing to copy, and the entries that
    today's partition (of [env]) already had, untouched and not copied. *)
Definition firstRun (env env2 : Env) (files : Fs.t) (st1 : State) (tr1 : list Event) : Prop :=
  settledStore env2 (fs st1)
  /\ forall k, is_Some (files !! (backupDir env ++ [k])) ->
       (Path.child (backupDir env) k ∉ copies tr1)
       /\ fs st1 !! (backupDir env ++ [k]) = files !! (backupDir env ++ [k]).

(** The store entries among [names] that today's partition lacks. *)
Definition toCopy (env : Env) (files : Fs.t) (names : list string) : list string :=
  List.filter (fun k => negb (Fs.exists_ files (Path.child (backupDir env) k))) names.


(** The reference of [p] starts with [/uploads/]. *)
Definition referencesStore (p : Product) : bool :=
  match f_imageUrl (fields p) with
  | Some url => Js.startsWith url "/uploads/"
  | None => false
  end.

(** The reference of [p] is [/uploads/<name>] for a plain entry name: no
    separator in it, and not made of dots. *)
Definition plainReference (p : Product) : bool :=
  match f_imageUrl (fields p) with
  | Some url =>
      match DataUri.dropPrefix "/uploads/" url with
      | Some name => Path.noSlash name && negb (Path.allDots name)
      | None => false
      end
  | None => false
  end.

(** ** A small installation, for examples *)

Module Example.

Definition env : Env :=
  mkEnv ["srv"; "app"] 1700000000000%N [1; 2; 35; 10] (2024%N, 3%N, 7%N)
        (fun _ => []) (fun _ => false) false (fun _ => true) "p2".

(** [/srv/app/uploads] holds [a.png] and [b.png]. *)
Definition files : Fs.t :=
  <[ ["srv"; "app"; "uploads"; "b.png"] := Fs.File [] ]>
  (<[ ["srv"; "app"; "uploads"; "a.png"] := Fs.File [] ]>
  (<[ ["srv"; "app"; "uploads"] := Fs.Dir ]>
  (<[ ["srv"; "app"] := Fs.Dir ]>
  (<[ ["srv"] := Fs.Dir ]> ∅)))).

Definition product (id : string) (ref : option string) : Product :=
  mkProduct id (mkFields (Js.Str "Attar") (Js.Str "Beautiful fragrance")
                         (Js.Num 4) (Js.Num 499) (Js.Num 30) ref).

(** One product, whose image is [a.png]; [b.png] is an orphan. *)
Definition catalog : list Product := [product "p1" (Some "/uploads/a.png")].

Definition fullBody (image : Js.value) : Body :=
  mkBody (Js.Str "Attar") (Js.Str "Beautiful fragrance") (Js.Num 4) (Js.Num 499)
         (Js.Num 30) image.

Definition untitledBody (image : Js.value) : Body :=
  mkBody Js.Undefined (Js.Str "Beautiful fragrance") (Js.Num 4) (Js.Num 499)
         (Js.Num 30) image.

Definition request (id : option string) (b : Body) (upload : option string) : Request :=
  mkRequest id b upload "https" "shop.example".

End Example.

(** * Properties *)

(** ** Strings and paths *)

Section Strings.

Lemma append_cons (c : ascii) (a b : string) : String c a +:+ b = String c (a +:+ b).
Proof. reflexivity. Qed.

Lemma append_nil (b : string) : EmptyString +:+ b = b.
Proof. reflexivity. Qed.

Lemma append_assoc (a b c : string) : (a +:+ b) +:+ c = a +:+ (b +:+ c).
Proof.
  induction a as [|x a IH]; [reflexivity|].
  rewrite !append_cons. f_equal. exact IH.
Qed.

Lemma noSlash_app (a b : string) :
  Path.noSlash (a +:+ b) = Path.noSlash a && Path.noSlash b.
Proof.
  induction a as [|x a IH]; [reflexivity|].
  rewrite append_cons. simpl. rewrite IH. now rewrite andb_assoc.
Qed.

Lemma allDots_app (a b : string) :
  Path.allDots (a +:+ b) = Path.allDots a && Path.allDots b.
Proof.
  induction a as [|x a IH]; [reflexivity|].
  rewrite append_cons. simpl. rewrite IH. now rewrite andb_assoc.
Qed.

Lemma split_noSlash (s : string) : Path.noSlash s = true -> Path.split s = [s].
Proof.
  induction s as [|c s IH]; simpl; [reflexivity|].
  destruct (Ascii.eqb c "/"); simpl; [discriminate|].
  intros H. now rewrite (IH H).
Qed.

Lemma split_app_slash (a b : string) :
  Path.noSlash a = true -> Path.split (a +:+ "/" +:+ b) = a :: Path.split b.
Proof.
  induction a as [|c a IH]; [reflexivity|].
  rewrite append_cons. simpl.
  destruct (Ascii.eqb c "/"); simpl; [discriminate|].
  intros H. now rewrite (IH H).
Qed.

Lemma endsWithSlash_noSlash (s : string) :
  Path.noSlash s = true -> Path.endsWithSlash s = false.
Proof.
  induction s as [|c s IH]; simpl; [reflexivity|].
  destruct (Ascii.eqb c "/"); simpl; [discriminate|].
  intros H. destruct s; [reflexivity | now apply IH].
Qed.

Lemma step_push (stack : list string) (s : string) :
  Path.allDots s = false -> Path.step stack s = s :: stack.
Proof.
  intros H. unfold Path.step.
  destruct (String.eqb_spec s EmptyString) as [->|_]; [discriminate|].
  destruct (String.eqb_spec s ".") as [->|_]; [discriminate|].
  destruct (String.eqb_spec s "..") as [->|_]; [discriminate|].
  reflexivity.
Qed.

(** Joining a plain entry name appends one segment. *)
Lemma join_simple (base : list string) (s : string) :
  Path.noSlash s = true -> Path.allDots s = false ->
  Path.join base s = Path.child base s.
Proof.
  intros Hs Hd. unfold Path.join, Path.child, Path.normFrom.
  rewrite (split_noSlash _ Hs). simpl. rewrite (step_push _ _ Hd). simpl.
  rewrite rev_involutive, (endsWithSlash_noSlash _ Hs).
  now destruct (base ++ [s]).
Qed.

Lemma normFrom_cons (base : list string) (s : string) (more : list string) :
  Path.allDots s = false ->
  Path.normFrom base (s :: more) = Path.normFrom (base ++ [s]) more.
Proof.
  intros Hd. unfold Path.normFrom. simpl. rewrite (step_push _ _ Hd).
  now rewrite rev_app_distr.
Qed.

Lemma uploadsDir_eq (env : Env) : uploadsDir env = appRoot env ++ ["uploads"].
Proof.
  unfold uploadsDir. now rewrite join_simple.
Qed.

End Strings.

(** ** Generated names hold no separator *)

Section Names.

Lemma noSlash_uint (u : Decimal.uint) : Path.noSlash (NilEmpty.string_of_uint u) = true.
Proof. induction u; simpl; auto. Qed.

Lemma noSlash_decimal (n : N) : Path.noSlash (Render.decimal n) = true.
Proof. apply noSlash_uint. Qed.

Lemma base36_digit_noSlash (k : nat) :
  Ascii.eqb (nth k Render.base36Alphabet "0"%char) "/" = false.
Proof.
  do 36 (destruct k as [|k]; [reflexivity|]).
  now destruct k.
Qed.

Lemma noSlash_base36 (ds : list nat) : Path.noSlash (Render.base36 ds) = true.
Proof.
  unfold Render.base36. induction ds as [|d ds IH]; [reflexivity|].
  cbn [map string_of_list_ascii Path.noSlash].
  now rewrite base36_digit_noSlash, IH.
Qed.

Lemma isLetter_not_slash (c : ascii) : DataUri.isLetter c = true -> Ascii.eqb c "/" = false.
Proof.
  intros H. destruct (Ascii.eqb_spec c "/") as [->|_]; [discriminate | reflexivity].
Qed.

Lemma noSlash_letters (s : string) : DataUri.allLetters s = true -> Path.noSlash s = true.
Proof.
  induction s as [|c s IH]; simpl; [reflexivity|].
  intros [Hc Hs]%andb_true_iff. now rewrite (isLetter_not_slash _ Hc), (IH Hs).
Qed.

Lemma noSlash_zeros (k : nat) :
  Path.noSlash (string_of_list_ascii (repeat "0"%char k)) = true.
Proof. induction k; simpl; auto. Qed.

Lemma noSlash_padTo (w : nat) (s : string) :
  Path.noSlash s = true -> Path.noSlash (Render.padTo w s) = true.
Proof.
  intros H. unfold Render.padTo. now rewrite noSlash_app, noSlash_zeros, H.
Qed.

Lemma noSlash_isoDate (d : N * N * N) : Path.noSlash (Render.isoDate d) = true.
Proof.
  destruct d as [[y m] dd]. unfold Render.isoDate.
  rewrite !noSlash_app, !noSlash_padTo by apply noSlash_decimal.
  reflexivity.
Qed.

Lemma allDots_isoDate (d : N * N * N) : Path.allDots (Render.isoDate d) = false.
Proof.
  destruct d as [[y m] dd]. unfold Render.isoDate.
  rewrite !allDots_app. simpl. now rewrite andb_false_r.
Qed.

Lemma noSlash_base64Filename (env : Env) (ext : string) :
  DataUri.allLetters ext = true -> Path.noSlash (base64Filename env ext) = true.
Proof.
  intros H. unfold base64Filename.
  rewrite !noSlash_app, noSlash_decimal, noSlash_base36, (noSlash_letters _ H).
  reflexivity.
Qed.

Lemma backupDir_eq (env : Env) :
  backupDir env = appRoot env ++ ["backups"; "images"; Render.isoDate (today env)].
Proof.
  unfold backupDir, Path.join. cbn [Path.segs].
  change ("backups/images/" +:+ Render.isoDate (today env))
    with ("backups" +:+ "/" +:+ ("images" +:+ "/" +:+ Render.isoDate (today env))).
  rewrite !split_app_slash by reflexivity.
  rewrite (split_noSlash _ (noSlash_isoDate _)).
  rewrite !normFrom_cons by (reflexivity || apply allDots_isoDate).
  unfold Path.normFrom. simpl. rewrite rev_involutive.
  now rewrite <- !app_assoc.
Qed.

End Names.

(** ** The data-URI pattern and its matcher *)

Section Pattern.

Lemma dropPrefix_Some (pre s r : string) :
  DataUri.dropPrefix pre s = Some r <-> s = pre +:+ r.
Proof.
  revert s. induction pre as [|a pre IH]; intros s; simpl.
  - rewrite append_nil. split; congruence.
  - rewrite append_cons. destruct s as [|b s].
    + split; discriminate.
    + destruct (Ascii.eqb_spec a b) as [->|Hne].
      * rewrite IH. split; congruence.
      * split; [discriminate | congruence].
Qed.

Lemma spanLetters_split (s : string) :
  s = fst (DataUri.spanLetters s) +:+ snd (DataUri.spanLetters s)
  /\ DataUri.allLetters (fst (DataUri.spanLetters s)) = true.
Proof.
  induction s as [|c s [IH1 IH2]]; simpl; [split; reflexivity|].
  destruct (DataUri.isLetter c) eqn:Hc; [|split; reflexivity].
  destruct (DataUri.spanLetters s) as [a b]. simpl in *.
  rewrite append_cons, Hc. split; [congruence | assumption].
Qed.

Lemma spanLetters_app (ext : string) (c : ascii) (rest : string) :
  DataUri.allLetters ext = true -> DataUri.isLetter c = false ->
  DataUri.spanLetters (ext +:+ String c rest) = (ext, String c rest).
Proof.
  intros He Hc. induction ext as [|x ext IH].
  - rewrite append_nil. simpl. now rewrite Hc.
  - rewrite append_cons. simpl in *.
    apply andb_true_iff in He as [Hx He]. now rewrite Hx, (IH He).
Qed.

(** The matcher accepts exactly the strings of the shape
    [data:image/<ext>;base64,<payload>]. *)
Lemma matchDataUri_shape (s ext payload : string) :
  DataUri.matchDataUri s = Some (ext, payload) <-> DataUri.hasShape s ext payload.
Proof.
  unfold DataUri.matchDataUri, DataUri.hasShape. split.
  - destruct (DataUri.dropPrefix "data:image/" s) as [r|] eqn:Hp; [|discriminate].
    apply dropPrefix_Some in Hp.
    destruct (spanLetters_split r) as [Hr Hl].
    destruct (DataUri.spanLetters r) as [e r']. simpl in Hr, Hl.
    destruct e as [|c e]; [discriminate|].
    destruct (DataUri.dropPrefix ";base64," r') as [pl|] eqn:Hq; [|discriminate].
    apply dropPrefix_Some in Hq.
    destruct pl as [|d pl]; [discriminate|].
    destruct (DataUri.noLineTerminator (String d pl)) eqn:Hn; [|discriminate].
    intros [= <- <-]. subst. repeat split; try discriminate; assumption.
  - intros (-> & Hne & Hl & Hp & Hn).
    assert (Hd : DataUri.dropPrefix "data:image/"
                   ("data:image/" +:+ ext +:+ ";base64," +:+ payload)
                 = Some (ext +:+ ";base64," +:+ payload)) by now apply dropPrefix_Some.
    rewrite Hd.
    change (";base64," +:+ payload) with (String ";" ("base64," +:+ payload)).
    rewrite (spanLetters_app ext ";" _ Hl eq_refl).
    destruct ext as [|c e]; [congruence|].
    assert (Hq : DataUri.dropPrefix ";base64," (String ";" ("base64," +:+ payload))
                 = Some payload) by now apply dropPrefix_Some.
    rewrite Hq. destruct payload; [congruence|]. now rewrite Hn.
Qed.

Lemma matchDataUri_None (s : string) :
  DataUri.matchDataUri s = None <-> forall ext payload, ~ DataUri.hasShape s ext payload.
Proof.
  split.
  - intros H ext payload Hs. apply matchDataUri_shape in Hs. congruence.
  - intros H. destruct (DataUri.matchDataUri s) as [[ext payload]|] eqn:Hm; [|reflexivity].
    apply matchDataUri_shape in Hm. now apply H in Hm.
Qed.



Lemma matched_letters (s ext payload : string) :
  DataUri.matchDataUri s = Some (ext, payload) -> DataUri.allLetters ext = true.
Proof.
  now intros (_ & _ & H & _)%matchDataUri_shape.
Qed.

End Pattern.

(** ** The file system *)

Section FileSystem.

Implicit Types (files : Fs.t) (p : Path.t).

Lemma nodeAt_snoc files (dir : list string) (name : string) :
  Fs.nodeAt files (dir ++ [name]) = files !! (dir ++ [name]).
Proof. now destruct dir. Qed.

Lemma nodeAt_dir files (d : list string) :
  files !! d = Some Fs.Dir -> Fs.nodeAt files d = Some Fs.Dir.
Proof. now destruct d. Qed.

Lemma exists_dir files p :
  files !! Path.segs p = Some Fs.Dir -> Fs.exists_ files p = true.
Proof. intros H. unfold Fs.exists_. now rewrite (nodeAt_dir _ _ H). Qed.

Lemma exists_child files (dir : list string) (name : string) :
  Fs.exists_ files (Path.child dir name) = bool_decide (is_Some (files !! (dir ++ [name]))).
Proof.
  unfold Fs.exists_, Path.child. cbn [Path.segs Path.dirslash].
  rewrite nodeAt_snoc. now destruct (files !! (dir ++ [name])) as [[c|]|].
Qed.

Lemma write_child files (dir : list string) (name : string) (data : list Byte.byte) :
  Fs.nodeAt files dir = Some Fs.Dir ->
  files !! (dir ++ [name]) <> Some Fs.Dir ->
  Fs.write files (Path.child dir name) data
  = Some (<[dir ++ [name] := Fs.File data]> files).
Proof.
  intros Hd Hn. unfold Fs.write, Path.child. cbn [Path.segs Path.dirslash].
  assert (Hr : removelast (dir ++ [name]) = dir) by apply removelast_last.
  destruct (dir ++ [name]) as [|x l] eqn:E; [now destruct dir|].
  rewrite Hr, Hd. cbn [Fs.nodeAt].
  destruct (files !! (x :: l)) as [[c|]|]; congruence.
Qed.

Lemma unlink_child files (dir : list string) (name : string) :
  Fs.unlink files (Path.child dir name)
  = match files !! (dir ++ [name]) with
    | Some (Fs.File _) => Some (delete (dir ++ [name]) files)
    | _ => None
    end.
Proof. unfold Fs.unlink, Path.child. cbn [Path.segs Path.dirslash]. now rewrite nodeAt_snoc. Qed.

End FileSystem.

(** ** Stepping through a handler *)


(** ** Weakest preconditions of the monad *)

Section Wp.

Context {A B : Type}.
Implicit Types (Q : Res A -> State -> list Event -> Prop) (st : State) (pre : list Event).

Lemma wp_run (m : M A) Q files catalog r files' catalog' tr :
  wp m [] Q (mkState files catalog) ->
  run m files catalog = (r, files', catalog', tr) ->
  Q r (mkState files' catalog') tr.
Proof.
  unfold wp, run. destruct (m _) as [[r0 [f0 c0]] tr0]. cbn [fst snd fs db app].
  now intros H [= <- <- <- <-].
Qed.

Lemma wp_conseq (m : M A) pre (P : Res A -> State -> list Event -> Prop) Q st :
  wp m [] P st -> (forall r st' tr, P r st' tr -> Q r st' (pre ++ tr)) -> wp m pre Q st.
Proof. unfold wp. auto. Qed.

Lemma wp_ret (a : A) pre Q st : Q (Ok a) st pre -> wp (ret a) pre Q st.
Proof. unfold wp, ret. cbn [fst snd]. now rewrite app_nil_r. Qed.

Lemma wp_throw (e : string) pre Q st : Q (Throw e) st pre -> wp (throw e) pre Q st.
Proof. unfold wp, throw. cbn [fst snd]. now rewrite app_nil_r. Qed.

Lemma wp_bind (m : M B) (k : B -> M A) pre Q st :
  wp m pre (fun r st1 tr1 =>
              match r with
              | Ok b => wp (k b) tr1 Q st1
              | Throw e => Q (Throw e) st1 tr1
              end) st ->
  wp (bind m k) pre Q st.
Proof.
  unfold wp, bind. destruct (m st) as [[[b|e] st1] tr1]; cbn [fst snd]; [|trivial].
  destruct (k b st1) as [[r2 st2] tr2]. cbn [fst snd]. now rewrite app_assoc.
Qed.

Lemma wp_tryCatch (m : M A) (h : string -> M A) pre Q st :
  wp m pre (fun r st1 tr1 =>
              match r with
              | Ok a => Q (Ok a) st1 tr1
              | Throw e => wp (h e) tr1 Q st1
              end) st ->
  wp (tryCatch m h) pre Q st.
Proof.
  unfold wp, tryCatch. destruct (m st) as [[[a|e] st1] tr1]; cbn [fst snd]; [trivial|].
  destruct (h e st1) as [[r2 st2] tr2]. cbn [fst snd]. now rewrite app_assoc.
Qed.

End Wp.

Section WpCalls.

Context {A : Type}.
Implicit Types (st : State) (pre : list Event).

Lemma wp_emit (e : Event) pre (Q : Res unit -> State -> list Event -> Prop) st :
  Q (Ok tt) st (pre ++ [e]) -> wp (emit e) pre Q st.
Proof. trivial. Qed.

Lemma wp_consoleError (msg detail : string) pre
    (Q : Res unit -> State -> list Event -> Prop) st :
  Q (Ok tt) st (pre ++ [EvError msg detail]) -> wp (consoleError msg detail) pre Q st.
Proof. trivial. Qed.

Lemma wp_existsSync (p : Path.t) pre (Q : Res bool -> State -> list Event -> Prop) st :
  Q (Ok (Fs.exists_ (fs st) p)) st (pre ++ [EvExists p (Fs.exists_ (fs st) p)]) ->
  wp (existsSync p) pre Q st.
Proof. trivial. Qed.

Lemma wp_fsStep (failed : bool) (next : option Fs.t) (e : Event) (err : string) pre
    (Q : Res unit -> State -> list Event -> Prop) st :
  (failed = true \/ next = None -> Q (Throw err) st pre) ->
  (forall fs', failed = false -> next = Some fs' ->
     Q (Ok tt) (mkState fs' (db st)) (pre ++ [e])) ->
  wp (fsStep failed next e err) pre Q st.
Proof.
  intros Hf Hs. unfold wp, fsStep.
  destruct failed; [cbn [fst snd]; rewrite app_nil_r; auto|].
  destruct next as [fs'|]; cbn [fst snd]; [now apply Hs | rewrite app_nil_r; auto].
Qed.

Lemma wp_mkdirSync (env : Env) (p : Path.t) pre
    (Q : Res unit -> State -> list Event -> Prop) st :
  (ioError env (OpMkdir (Path.segs p)) = true \/ Fs.mkdirp (fs st) p = None ->
   Q (Throw "mkdir failed") st pre) ->
  (forall fs', ioError env (OpMkdir (Path.segs p)) = false -> Fs.mkdirp (fs st) p = Some fs' ->
     Q (Ok tt) (mkState fs' (db st)) (pre ++ [EvMkdir (Path.segs p)])) ->
  wp (mkdirSync env p) pre Q st.
Proof. apply wp_fsStep. Qed.

Lemma wp_writeFileSync (env : Env) (p : Path.t) (data : list Byte.byte) pre
    (Q : Res unit -> State -> list Event -> Prop) st :
  (ioError env (OpWrite (Path.segs p)) = true \/ Fs.write (fs st) p data = None ->
   Q (Throw "write failed") st pre) ->
  (forall fs', ioError env (OpWrite (Path.segs p)) = false ->
     Fs.write (fs st) p data = Some fs' ->
     Q (Ok tt) (mkState fs' (db st)) (pre ++ [EvWrite p data])) ->
  wp (writeFileSync env p data) pre Q st.
Proof. apply wp_fsStep. Qed.

Lemma wp_unlinkSync (env : Env) (p : Path.t) pre
    (Q : Res unit -> State -> list Event -> Prop) st :
  (ioError env (OpUnlink (Path.segs p)) = true \/ Fs.unlink (fs st) p = None ->
   Q (Throw "unlink failed") st pre) ->
  (forall fs', ioError env (OpUnlink (Path.segs p)) = false ->
     Fs.unlink (fs st) p = Some fs' ->
     Q (Ok tt) (mkState fs' (db st)) (pre ++ [EvUnlink p])) ->
  wp (unlinkSync env p) pre Q st.
Proof. apply wp_fsStep. Qed.

Lemma wp_copyFileSync (env : Env) (src dst : Path.t) pre
    (Q : Res unit -> State -> list Event -> Prop) st :
  (ioError env (OpCopy (Path.segs src) (Path.segs dst)) = true
   \/ Fs.copy (fs st) src dst = None ->
   Q (Throw "copyfile failed") st pre) ->
  (forall fs', ioError env (OpCopy (Path.segs src) (Path.segs dst)) = false ->
     Fs.copy (fs st) src dst = Some fs' ->
     Q (Ok tt) (mkState fs' (db st)) (pre ++ [EvCopy src dst])) ->
  wp (copyFileSync env src dst) pre Q st.
Proof. apply wp_fsStep. Qed.

Lemma wp_readdirSync (env : Env) (dir : list string) pre
    (Q : Res (list string) -> State -> list Event -> Prop) st :
  (ioError env (OpReaddir dir) = true \/ Fs.readdir (fs st) dir = None ->
   Q (Throw "scandir failed") st pre) ->
  (forall names, ioError env (OpReaddir dir) = false -> Fs.readdir (fs st) dir = Some names ->
     Q (Ok names) st pre) ->
  wp (readdirSync env dir) pre Q st.
Proof.
  intros Hf Hs. unfold wp, readdirSync.
  destruct (ioError env _); [cbn [fst snd]; rewrite app_nil_r; auto|].
  destruct (Fs.readdir _ _) as [names|]; cbn [fst snd]; rewrite app_nil_r; auto.
Qed.

Lemma wp_dbCall (env : Env) (m : M A) pre (Q : Res A -> State -> list Event -> Prop) st :
  (dbDown env = true -> Q (Throw "MongoError") st pre) ->
  (dbDown env = false -> wp m pre Q st) ->
  wp (dbCall env m) pre Q st.
Proof.
  intros Hd Hm. unfold dbCall. destruct (dbDown env); [|now apply Hm].
  apply wp_throw. now apply Hd.
Qed.

Lemma wp_pure (f : State -> A) pre (Q : Res A -> State -> list Event -> Prop) st :
  Q (Ok (f st)) st pre -> wp (fun st => (Ok (f st), st, [])) pre Q st.
Proof. unfold wp. cbn [fst snd]. now rewrite app_nil_r. Qed.

End WpCalls.

Section WpCatalog.

Implicit Types (st : State) (pre : list Event).

Lemma wp_dbSave (env : Env) (f : Fields) pre
    (Q : Res Product -> State -> list Event -> Prop) st :
  (dbDown env = true -> Q (Throw "MongoError") st pre) ->
  (schemaAccepts env f = false -> Q (Throw "ValidationError") st pre) ->
  (dbDown env = false -> schemaAccepts env f = true ->
   Q (Ok (mkProduct (freshId env) f))
     (mkState (fs st) (mkProduct (freshId env) f :: db st))
     (pre ++ [EvSave (mkProduct (freshId env) f)])) ->
  wp (dbSave env f) pre Q st.
Proof.
  intros Hd Hv Hs. unfold dbSave. apply wp_dbCall; [exact Hd|]. intros Hup.
  unfold wp. destruct (schemaAccepts env f); cbn [fst snd].
  - now apply Hs.
  - rewrite app_nil_r. now apply Hv.
Qed.

Lemma wp_dbFindByIdAndUpdate (env : Env) (id : string) (f : Fields) pre
    (Q : Res (option Product) -> State -> list Event -> Prop) st :
  (dbDown env = true -> Q (Throw "MongoError") st pre) ->
  (dbDown env = false -> find (fun p => String.eqb (_id p) id) (db st) = None ->
   Q (Ok None) st pre) ->
  (dbDown env = false -> find (fun p => String.eqb (_id p) id) (db st) <> None ->
   Q (Ok (Some (mkProduct id f)))
     (mkState (fs st) (replaceDoc id f (db st)))
     (pre ++ [EvUpdate (mkProduct id f)])) ->
  wp (dbFindByIdAndUpdate env id f) pre Q st.
Proof.
  intros Hd Hn Hs. unfold dbFindByIdAndUpdate. apply wp_dbCall; [exact Hd|]. intros Hup.
  unfold wp. destruct (find _ (db st)) eqn:E; cbn [fst snd].
  - apply Hs; [assumption | congruence].
  - rewrite app_nil_r. now apply Hn.
Qed.

Lemma wp_dbFindByIdAndDelete (env : Env) (id : string) pre
    (Q : Res unit -> State -> list Event -> Prop) st :
  (dbDown env = true -> Q (Throw "MongoError") st pre) ->
  (dbDown env = false ->
   Q (Ok tt) (mkState (fs st) (removeDoc id (db st))) (pre ++ [EvDelete id])) ->
  wp (dbFindByIdAndDelete env id) pre Q st.
Proof.
  intros Hd Hs. unfold dbFindByIdAndDelete. apply wp_dbCall; [exact Hd|]. intros Hup.
  unfold wp. cbn [fst snd]. now apply Hs.
Qed.

End WpCatalog.

Ltac wp_step :=
  lazymatch goal with
  | |- wp (bind _ _) _ _ _ => apply wp_bind
  | |- wp (tryCatch _ _) _ _ _ => apply wp_tryCatch
  | |- wp (ret _) _ _ _ => apply wp_ret
  | |- wp (throw _) _ _ _ => apply wp_throw
  | |- wp (emit _) _ _ _ => apply wp_emit
  | |- wp (consoleError _ _) _ _ _ => apply wp_consoleError
  | |- wp (existsSync _) _ _ _ => apply wp_existsSync
  | |- wp (mkdirSync _ _) _ _ _ => apply wp_mkdirSync; [intros _ | intros ? _ ?]
  | |- wp (writeFileSync _ _ _) _ _ _ => apply wp_writeFileSync; [intros _ | intros ? _ ?]
  | |- wp (unlinkSync _ _) _ _ _ => apply wp_unlinkSync; [intros ? | intros ? ? ?]
  | |- wp (copyFileSync _ _ _) _ _ _ => apply wp_copyFileSync; [intros ? | intros ? ? ?]
  | |- wp (readdirSync _ _) _ _ _ => apply wp_readdirSync; [intros ? | intros ? ? ?]
  | |- wp (dbFind _) _ _ _ => apply wp_dbCall; [intros ? | intros ?; apply wp_pure]
  | |- wp (dbFindById _ _) _ _ _ => apply wp_dbCall; [intros ? | intros ?; apply wp_pure]
  | |- wp (dbSave _ _) _ _ _ => apply wp_dbSave; [intros ? | intros ? | intros ? ?]
  | |- wp (dbFindByIdAndUpdate _ _ _) _ _ _ =>
      apply wp_dbFindByIdAndUpdate; [intros ? | intros ? ? | intros ? ?]
  | |- wp (dbFindByIdAndDelete _ _) _ _ _ =>
      apply wp_dbFindByIdAndDelete; [intros ? | intros ?]
  | |- wp (if negb ?b then _ else _) _ _ _ => destruct b eqn:?; cbn [negb]
  | |- wp (if ?b then _ else _) _ _ _ => destruct b eqn:?
  | |- wp (match ?x with
           | Js.Undefined => _ | Js.Null => _ | Js.Bool _ => _
           | Js.Num _ => _ | Js.Str _ => _ | Js.Obj => _ end) _ _ _ => destruct x eqn:?
  | |- wp (match ?x with pair _ _ => _ end) _ _ _ => destruct x
  | |- wp (match ?x with inl _ => _ | inr _ => _ end) _ _ _ => destruct x eqn:?
  | |- wp (match ?x with Some _ => _ | None => _ end) _ _ _ => destruct x eqn:?
  end.

Ltac wp_steps := repeat (wp_step; cbn beta iota; cbn [fs db app]).

(** ** Creating a product *)

Section Create.

Variable env : Env.

Lemma imagePathOf_uploads (name : string) :
  name <> EmptyString ->
  imagePathOf env ("/uploads/" +:+ name) = Path.join (uploadsDir env) name.
Proof.
  intros Hne. unfold imagePathOf, Path.join.
  change (Js.stripLeadingSlash ("/uploads/" +:+ name)) with ("uploads" +:+ "/" +:+ name).
  rewrite split_app_slash by reflexivity.
  rewrite normFrom_cons by reflexivity. rewrite uploadsDir_eq.
  f_equal. destruct (Path.normFrom _ _); [reflexivity|].
  clear -Hne. change ("uploads" +:+ "/" +:+ name) with ("uploads/" +:+ name).
  generalize "uploads/". intros pre.
  induction pre as [|c pre IH].
  - reflexivity.
  - rewrite append_cons. simpl. rewrite IH.
    destruct (pre +:+ name) eqn:E; [|reflexivity].
    destruct pre; [|discriminate]. now rewrite append_nil in E.
Qed.

Lemma base64_path (ext : string) :
  DataUri.allLetters ext = true ->
  Path.join (uploadsDir env) (base64Filename env ext)
  = Path.child (uploadsDir env) (base64Filename env ext).
Proof.
  intros H. apply join_simple; [now apply noSlash_base64Filename | reflexivity].
Qed.

End Create.



(** Splitting a concrete trace before its last two events. *)
Ltac split_last2 :=
  lazymatch goal with
  | |- ?l = ?pre ++ [_; _] =>
      lazymatch l with
      | [_; _] => unify pre (@nil Event)
      | [?a; _; _] => unify pre [a]
      | [?a; ?b; _; _] => unify pre [a; b]
      | [?a; ?b; ?c; _; _] => unify pre [a; b; c]
      | [?a; ?b; ?c; ?d; _; _] => unify pre [a; b; c; d]
      | [?a; ?b; ?c; ?d; ?e; _; _] => unify pre [a; b; c; d; e]
      end; reflexivity
  end.

(** A trace without the event looked for. *)
Ltac no_event :=
  let d := fresh "d" in let H := fresh "H" in
  intros d H; exfalso; cbn [In] in H;
  repeat (destruct H as [H|H]; [discriminate H|]); exact H.

Section CreateTrace.

Variable env : Env.

Lemma createProduct_save_last (req : Request) (st : State) :
  wp (createProduct env req) []
     (fun r st' tr =>
        forall d, In (EvSave d) tr ->
          exists ref pre,
            f_imageUrl (fields d) = Some ref
            /\ Js.truthyRef (Some ref) = true
            /\ tr = pre ++ [EvExists (imagePathOf env ref) true; EvSave d]
            /\ Fs.exists_ (fs st') (imagePathOf env ref) = true
            /\ db st' = d :: db st
            /\ (file req = None -> exists pre' data,
                  pre = pre' ++ [EvWrite (imagePathOf env ref) data;
                                 EvExists (imagePathOf env ref) true])) st.
Proof.
  unfold createProduct, createIngest, createFromBase64, validateImageFile.
  wp_steps; try no_event.
  all: intros d Hin; cbn [In] in Hin;
    repeat (destruct Hin as [Hin|Hin]; [try discriminate Hin|]); try contradiction;
    injection Hin as <-.
  all: eexists _, _; cbn [fields f_imageUrl].
  all: split; [reflexivity|].
  all: split; [assumption|].
  all: unfold imagePathOf.
  all: split; [split_last2|].
  all: split; [assumption|].
  all: split; [reflexivity|].
  all: intros Hnone; try congruence.
  all: try discriminate.
  all: match goal with
       | |- context [Js.stripLeadingSlash ("/uploads/" +:+ ?n)] =>
           fold (imagePathOf env ("/uploads/" +:+ n));
           rewrite (imagePathOf_uploads env n) by discriminate
       end.
  all: eexists _, _; split_last2.
Qed.
End CreateTrace.

(** C1.  On the create path a record is saved only after the existence
    check on its reference has passed: whenever a create request saves a
    record, the record carries a reference, the last thing done before the
    save was the validator's check of that reference, which found the blob,
    and the blob is there when the save is done.  For an inline image the
    order is: write the blob, see it, validate it, save the record. *)
Theorem create_saves_only_validated_reference
    (env : Env) (req : Request) (files files' : Fs.t) (catalog catalog' : list Product)
    (r : Res Response) (tr : list Event) (d : Product) :
  run (createProduct env req) files catalog = (r, files', catalog', tr) ->
  In (EvSave d) tr ->
  exists ref pre,
    f_imageUrl (fields d) = Some ref
    /\ tr = pre ++ [EvExists (imagePathOf env ref) true; EvSave d]
    /\ run (validateImageFile env (Some ref)) files' catalog'
       = (Ok true, files', catalog', [EvExists (imagePathOf env ref) true])
    /\ catalog' = d :: catalog
    /\ (file req = None ->
        exists pre' data,
          pre = pre' ++ [EvWrite (imagePathOf env ref) data;
                         EvExists (imagePathOf env ref) true]).
Proof.
  intros Hrun Hin.
  destruct (wp_run _ _ _ _ _ _ _ _ (createProduct_save_last env req _) Hrun d Hin)
    as (ref & pre & Hd & Href & Htr & Hex & Hdb & Hw).
  cbn [fs db] in Hex, Hdb.
  exists ref, pre. repeat split; try assumption.
  unfold run, validateImageFile, existsSync. rewrite Href. cbn [negb fs db].
  fold (imagePathOf env ref). now rewrite Hex.
Qed.

Lemma create_saves_only_validated_reference_witness :
  let req := Example.request None
               (Example.fullBody (Js.Str "data:image/png;base64,AAAA")) None in
  let ref := "/uploads/" +:+ base64Filename Example.env "png" in
  let d := mkProduct "p2" (mkFields (Js.Str "Attar") (Js.Str "Beautiful fragrance")
                                    (Js.Num 4) (Js.Num 499) (Js.Num 30) (Some ref)) in
  exists ref' pre,
    f_imageUrl (fields d) = Some ref'
    /\ snd (run (createProduct Example.env req) Example.files Example.catalog)
       = pre ++ [EvExists (imagePathOf Example.env ref') true; EvSave d].
Proof.
  intros req ref d.
  destruct (create_saves_only_validated_reference Example.env req
              Example.files
              (snd (fst (fst (run (createProduct Example.env req) Example.files Example.catalog))))
              Example.catalog
              (snd (fst (run (createProduct Example.env req) Example.files Example.catalog)))
              (fst (fst (fst (run (createProduct Example.env req) Example.files Example.catalog))))
              (snd (run (createProduct Example.env req) Example.files Example.catalog))
              d)
    as (ref' & pre & H1 & H2 & _).
  - now destruct (run _ _ _) as [[[? ?] ?] ?].
  - vm_compute. auto 10.
  - exists ref', pre. split; assumption.
Defined.

Ltac conjs := repeat match goal with |- _ /\ _ => split end.

Section CreateFailures.

Variable env : Env.

Lemma sameFiles_refl (a : Fs.t) : sameFiles a a.
Proof. now intros p c. Qed.

Lemma mkdirFrom_sameFiles (todo done : list string) (a b : Fs.t) :
  Fs.mkdirFrom a done todo = Some b -> sameFiles b a.
Proof.
  revert done a. induction todo as [|s todo IH]; intros done a; simpl.
  - intros [= ->]. apply sameFiles_refl.
  - destruct (a !! (done ++ [s])) as [[c|]|] eqn:E; [discriminate| |].
    + apply IH.
    + intros H p c. rewrite (IH _ _ H p c).
      destruct (decide (p = done ++ [s])) as [->|Hne].
      * rewrite lookup_insert_eq, E. split; discriminate.
      * now rewrite lookup_insert_ne.
Qed.

Lemma mkdirp_sameFiles (a b : Fs.t) (p : Path.t) : Fs.mkdirp a p = Some b -> sameFiles b a.
Proof. apply mkdirFrom_sameFiles. Qed.

Lemma createProduct_malformed (req : Request) (s : string) (st : State) :
  file req = None ->
  b_imageUrl (body req) = Js.Str s ->
  Js.startsWith s "data:image" = true ->
  DataUri.matchDataUri s = None ->
  wp (createProduct env req) []
     (fun r st' tr =>
        r = Ok InvalidImageFormat /\ db st' = db st /\ sameFiles (fs st') (fs st)
        /\ writes tr = [] /\ saves tr = []) st.
Proof.
  intros Hf Hb Hs Hm.
  assert (Ht : Js.truthy (Js.Str s) = true) by now destruct s.
  unfold createProduct, createIngest, createFromBase64.
  rewrite Hf, Hb, Ht, Hs, Hm.
  wp_steps; conjs; try reflexivity; auto using sameFiles_refl.
  all: eapply mkdirp_sameFiles; eassumption.
Qed.

Lemma createProduct_without_image (req : Request) (st : State) :
  file req = None ->
  (forall s, b_imageUrl (body req) = Js.Str s -> DataUri.matchDataUri s = None) ->
  wp (createProduct env req) []
     (fun r st' tr =>
        r = Ok (if noInlineImage (b_imageUrl (body req))
                then if requiredMissing (body req) then MissingFields else MissingImage
                else match b_imageUrl (body req) with
                     | Js.Str _ => InvalidImageFormat
                     | _ => mkResponse 500
                              (Failure "Server error"
                                 "imageUrlFromBody.startsWith is not a function")
                     end)
        /\ (noInlineImage (b_imageUrl (body req)) = true -> fs st' = fs st)
        /\ db st' = db st /\ saves tr = [] /\ writes tr = []) st.
Proof.
  intros Hf Hm.
  unfold createProduct, createIngest, createFromBase64, validateImageFile, noInlineImage.
  rewrite Hf.
  destruct (b_imageUrl (body req)) as [| |b|q|s|] eqn:Hb;
    try specialize (Hm _ eq_refl).
  all: wp_steps; try congruence.
  all: try discriminate.
  all: cbn [negb orb]; conjs; try reflexivity; try (intros; discriminate).
Qed.

End CreateFailures.

Lemma wp_run_ex {A} (m : M A) (Q : Res A -> State -> list Event -> Prop)
    (files : Fs.t) (catalog : list Product) :
  wp m [] Q (mkState files catalog) ->
  exists r files' catalog' tr,
    run m files catalog = (r, files', catalog', tr) /\ Q r (mkState files' catalog') tr.
Proof.
  intros H. destruct (run m files catalog) as [[[r f'] c'] tr] eqn:E.
  exists r, f', c', tr. split; [reflexivity|]. eapply wp_run; eassumption.
Qed.

(** C3, as the code has it.  An inline image string that announces itself
    with [data:image] but is not of the shape
    [data:image/<letters>;base64,<payload>] makes the create request fail
    with InvalidImageFormat; no blob is written and no record is saved.
    (A string without the [data:image] prefix is not taken for an inline
    image at all.) *)
Theorem malformed_data_uri_rejected_without_write
    (env : Env) (req : Request) (s : string) (files : Fs.t) (catalog : list Product) :
  file req = None ->
  b_imageUrl (body req) = Js.Str s ->
  Js.startsWith s "data:image" = true ->
  (forall ext payload, ~ DataUri.hasShape s ext payload) ->
  exists files' tr,
    run (createProduct env req) files catalog = (Ok InvalidImageFormat, files', catalog, tr)
    /\ sameFiles files' files /\ writes tr = [] /\ saves tr = [].
Proof.
  intros Hf Hb Hs Hm. apply matchDataUri_None in Hm.
  destruct (wp_run_ex _ _ files catalog
              (createProduct_malformed env req s _ Hf Hb Hs Hm))
    as (r & f' & c' & tr & Hrun & -> & Hdb & Hfiles & Hw & Hsv).
  cbn [fs db] in Hdb, Hfiles. subst c'. now exists f', tr.
Qed.

Lemma malformed_data_uri_rejected_without_write_witness :
  exists files' tr,
    run (createProduct Example.env
           (Example.request None (Example.fullBody (Js.Str "data:image/png,AAAA")) None))
        Example.files Example.catalog
    = (Ok InvalidImageFormat, files', Example.catalog, tr)
    /\ sameFiles files' Example.files /\ writes tr = [] /\ saves tr = [].
Proof.
  apply (malformed_data_uri_rejected_without_write Example.env _ "data:image/png,AAAA");
    try reflexivity.
  apply matchDataUri_None. reflexivity.
Defined.

(** C3, as stated, fails: a string without the [data:image] prefix is
    skipped, and the request ends in MissingImage. *)
Lemma unprefixed_inline_string_is_missing_image :
  (forall ext payload, ~ DataUri.hasShape "image/png;base64,AAAA" ext payload)
  /\ run (createProduct Example.env
            (Example.request None (Example.fullBody (Js.Str "image/png;base64,AAAA")) None))
         Example.files Example.catalog
     = (Ok MissingImage, Example.files, Example.catalog,
        [EvError "No image URL generated from upload or base64 data" EmptyString])
  /\ MissingImage <> InvalidImageFormat.
Proof.
  split; [apply matchDataUri_None; reflexivity|].
  split; [reflexivity | discriminate].
Qed.

(** C7, as the code has it.  A create request with neither an uploaded
    file nor a well-formed inline image fails and saves no record.  The
    error is MissingImage when the inline field is empty or does not start
    with [data:image] and the four required fields are there; the required
    fields are looked at first, a malformed [data:image] string is an
    InvalidImageFormat, and a field that is not a string is a server
    error. *)
Theorem create_without_image_creates_no_record
    (env : Env) (req : Request) (files : Fs.t) (catalog : list Product) :
  file req = None ->
  (forall s ext payload, b_imageUrl (body req) = Js.Str s -> ~ DataUri.hasShape s ext payload) ->
  exists files' tr,
    run (createProduct env req) files catalog
    = (Ok (if noInlineImage (b_imageUrl (body req))
           then if requiredMissing (body req) then MissingFields else MissingImage
           else match b_imageUrl (body req) with
                | Js.Str _ => InvalidImageFormat
                | _ => mkResponse 500
                         (Failure "Server error"
                            "imageUrlFromBody.startsWith is not a function")
                end),
       files', catalog, tr)
    /\ (noInlineImage (b_imageUrl (body req)) = true -> files' = files)
    /\ saves tr = [] /\ writes tr = [].
Proof.
  intros Hf Hm.
  assert (Hm' : forall s, b_imageUrl (body req) = Js.Str s -> DataUri.matchDataUri s = None).
  { intros s Hs. apply matchDataUri_None. intros ext payload. now apply Hm. }
  destruct (wp_run_ex _ _ files catalog (createProduct_without_image env req _ Hf Hm'))
    as (r & f' & c' & tr & Hrun & -> & Hfs & Hdb & Hsv & Hw).
  cbn [fs db] in Hfs, Hdb. subst c'. now exists f', tr.
Qed.

Lemma create_without_image_creates_no_record_witness :
  exists files' tr,
    run (createProduct Example.env (Example.request None (Example.fullBody Js.Undefined) None))
        Example.files Example.catalog
    = (Ok MissingImage, files', Example.catalog, tr)
    /\ (true = true -> files' = Example.files)
    /\ saves tr = [] /\ writes tr = [].
Proof.
  apply (create_without_image_creates_no_record Example.env
           (Example.request None (Example.fullBody Js.Undefined) None));
    [reflexivity | discriminate].
Defined.

(** C7, as stated, fails: without a title the same request is answered
    with the missing-fields error, not MissingImage. *)
Lemma create_without_image_reports_missing_fields_first :
  run (createProduct Example.env (Example.request None (Example.untitledBody Js.Undefined) None))
      Example.files Example.catalog
  = (Ok MissingFields, Example.files, Example.catalog,
     [EvError "Missing required fields:" EmptyString])
  /\ MissingFields <> MissingImage.
Proof. split; [reflexivity | discriminate]. Qed.

(** ** The validator *)

Section Validator.

Variable env : Env.

Lemma validateImageFile_run (ref : option string) (files : Fs.t) (catalog : list Product) :
  run (validateImageFile env ref) files catalog
  = if Js.truthyRef ref
    then let p := imagePathOf env (default EmptyString ref) in
         (Ok (Fs.exists_ files p), files, catalog, [EvExists p (Fs.exists_ files p)])
    else (Ok false, files, catalog, []).
Proof.
  unfold validateImageFile. destruct ref as [url|]; [|reflexivity].
  now destruct (Js.truthyRef (Some url)).
Qed.

Lemma endsWithSlash_app (a b : string) :
  b <> EmptyString -> Path.endsWithSlash (a +:+ b) = Path.endsWithSlash b.
Proof.
  intros Hb. induction a as [|c a IH]; [reflexivity|].
  rewrite append_cons. simpl. rewrite IH.
  destruct (a +:+ b) eqn:E; [|reflexivity].
  destruct a; [|discriminate]. now rewrite append_nil in E.
Qed.

(** Where an absolute URL is looked for on disk. *)
Lemma imagePathOf_http (h n : string) :
  Path.noSlash h = true -> Path.allDots h = false ->
  Path.noSlash n = true -> Path.allDots n = false ->
  imagePathOf env ("http://" +:+ h +:+ "/" +:+ n)
  = Path.child (appRoot env ++ ["http:"; h]) n.
Proof.
  intros Hh Hh' Hn Hn'. unfold imagePathOf, Path.join, Path.child.
  change (Js.stripLeadingSlash ("http://" +:+ h +:+ "/" +:+ n))
    with ("http:" +:+ "/" +:+ (EmptyString +:+ "/" +:+ (h +:+ "/" +:+ n))).
  assert (Hsegs : Path.normFrom (appRoot env)
                    (Path.split ("http:" +:+ "/" +:+ (EmptyString +:+ "/" +:+ (h +:+ "/" +:+ n))))
                  = (appRoot env ++ ["http:"; h]) ++ [n]).
  { rewrite !split_app_slash by (reflexivity || assumption).
    rewrite (split_noSlash _ Hn).
    rewrite normFrom_cons by reflexivity.
    unfold Path.normFrom. cbn [fold_left]. unfold Path.step at 3. cbn [String.eqb orb].
    rewrite (step_push _ h Hh'), (step_push _ n Hn'). cbn [rev].
    rewrite rev_involutive, <- !app_assoc. reflexivity. }
  assert (Hend : Path.endsWithSlash
                   ("http:" +:+ "/" +:+ (EmptyString +:+ "/" +:+ (h +:+ "/" +:+ n))) = false).
  { change ("http:" +:+ "/" +:+ (EmptyString +:+ "/" +:+ (h +:+ "/" +:+ n)))
      with ("http://" +:+ (h +:+ ("/" +:+ n))).
    rewrite <- !append_assoc, endsWithSlash_app by (intros ->; discriminate).
    now apply endsWithSlash_noSlash. }
  rewrite Hsegs, Hend. now destruct ((appRoot env ++ ["http:"; h]) ++ [n]).
Qed.

End Validator.

(** C2, as the code has it.  The validator makes no exception for an
    absolute URL: for every non-empty reference it strips one leading
    slash, joins the rest to the application root and asks the file system
    whether that path exists; only a missing or empty reference is
    answered ([false]) without a look at the disk.  The URL
    [http://<host>/<name>] is thus looked for at
    [<root>/http:/<host>/<name>]. *)
Theorem validator_consults_store_for_every_reference
    (env : Env) (files : Fs.t) (catalog : list Product) :
  (forall ref,
     run (validateImageFile env ref) files catalog
     = if Js.truthyRef ref
       then let p := imagePathOf env (default EmptyString ref) in
            (Ok (Fs.exists_ files p), files, catalog, [EvExists p (Fs.exists_ files p)])
       else (Ok false, files, catalog, []))
  /\ (forall h n,
        Path.noSlash h = true -> Path.allDots h = false ->
        Path.noSlash n = true -> Path.allDots n = false ->
        let p := Path.child (appRoot env ++ ["http:"; h]) n in
        run (validateImageFile env (Some ("http://" +:+ h +:+ "/" +:+ n))) files catalog
        = (Ok (Fs.exists_ files p), files, catalog, [EvExists p (Fs.exists_ files p)])).
Proof.
  split; [intros ref; apply validateImageFile_run|].
  intros h n Hh Hh' Hn Hn' p. rewrite validateImageFile_run.
  change (Js.truthyRef (Some ("http://" +:+ h +:+ "/" +:+ n))) with true.
  change (default EmptyString (Some ("http://" +:+ h +:+ "/" +:+ n)))
    with ("http://" +:+ h +:+ "/" +:+ n).
  cbv zeta iota. rewrite (imagePathOf_http env h n Hh Hh' Hn Hn'). reflexivity.
Qed.

Lemma validator_consults_store_for_every_reference_witness :
  let p := Path.child ["srv"; "app"; "http:"; "cdn.example"] "a.png" in
  run (validateImageFile Example.env (Some "http://cdn.example/a.png"))
      Example.files Example.catalog
  = (Ok (Fs.exists_ Example.files p), Example.files, Example.catalog,
     [EvExists p (Fs.exists_ Example.files p)]).
Proof.
  apply (proj2 (validator_consults_store_for_every_reference
                  Example.env Example.files Example.catalog) "cdn.example" "a.png");
    reflexivity.
Defined.

(** C2, as stated, fails: an absolute URL is looked for on disk and, with
    no such file there, reported missing. *)
Lemma absolute_url_is_checked_on_disk :
  Js.startsWith "http://cdn.example/a.png" "http" = true
  /\ run (validateImageFile Example.env (Some "http://cdn.example/a.png"))
         Example.files Example.catalog
     = (Ok false, Example.files, Example.catalog,
        [EvExists (Path.mk ["srv"; "app"; "http:"; "cdn.example"; "a.png"] false) false]).
Proof. split; [reflexivity | reflexivity]. Qed.

(** ** The orphan sweep *)

Section Cleanup.

Variable env : Env.

Lemma usedImages_spec (catalog : list Product) (pre : list Event) (st : State) :
  wp (mapM usedImage catalog) pre
     (fun r st' tr =>
        st' = st /\ tr = pre
        /\ r = if forallb hasReference catalog
               then Ok (liveSet catalog)
               else Throw missingReference) st.
Proof.
  revert pre. induction catalog as [|p catalog IH]; intros pre; cbn [mapM].
  - now wp_steps.
  - wp_step. cbn [forallb].
    assert (Hh : hasReference p = match f_imageUrl (fields p) with
                                  | Some _ => true | None => false end) by reflexivity.
    rewrite Hh. unfold usedImage at 1.
    destruct (f_imageUrl (fields p)) as [url|] eqn:E; wp_steps; [|easy].
    cbn [andb].
    eapply wp_conseq; [apply (IH [])|]. cbn beta.
    intros r st' tr (-> & -> & ->). rewrite app_nil_r.
    destruct (forallb hasReference catalog); wp_steps; [|easy].
    unfold liveSet. cbn [map]. now rewrite E.
Qed.

Lemma childName_Some (dir p : list string) (n : string) :
  Fs.childName dir p = Some n <-> p = dir ++ [n].
Proof.
  revert p. induction dir as [|d dir IH]; intros p; simpl.
  - destruct p as [|x [|y p]]; split; intros H; try discriminate; congruence.
  - destruct p as [|x p]; [split; discriminate|].
    destruct (String.eqb_spec d x) as [->|Hne].
    + rewrite IH. split; congruence.
    + split; [discriminate | congruence].
Qed.

Lemma elem_of_children (files : Fs.t) (dir : list string) (n : string) :
  n ∈ Fs.children files dir <-> is_Some (files !! (dir ++ [n])).
Proof.
  unfold Fs.children. rewrite elem_of_set_omap. split.
  - intros (p & Hp & Hn). apply childName_Some in Hn as ->. now apply elem_of_dom.
  - intros H. exists (dir ++ [n]). split; [now apply elem_of_dom | now apply childName_Some].
Qed.

Lemma readdir_Some (files : Fs.t) (dir : list string) (names : list string) :
  Fs.readdir files dir = Some names ->
  NoDup names /\ (forall n, n ∈ names <-> is_Some (files !! (dir ++ [n])))
  /\ Fs.exists_ files (Path.ofSegs dir) = true.
Proof.
  unfold Fs.readdir, Fs.exists_. cbn [Path.ofSegs Path.segs].
  destruct (Fs.nodeAt files dir) as [[c|]|]; try discriminate.
  intros [= <-]. split; [apply NoDup_elements|]. split; [|reflexivity].
  intros n. rewrite elem_of_elements. apply elem_of_children.
Qed.

Lemma unlinks_app (a b : list Event) : unlinks (a ++ b) = unlinks a ++ unlinks b.
Proof. apply omap_app. Qed.

Lemma removeAll_other (dir names : list string) (files : Fs.t) (p : list string) :
  (forall n, n ∈ names -> p <> dir ++ [n]) ->
  removeAll dir names files !! p = files !! p.
Proof.
  revert files. induction names as [|k names IH]; intros files H; [reflexivity|].
  cbn [removeAll fold_left]. fold (removeAll dir names (delete (dir ++ [k]) files)).
  rewrite IH by (intros n Hn; apply H; now right).
  apply lookup_delete_ne. intros Heq. apply (H k); [now left | now symmetry].
Qed.

Lemma removeAll_gone (dir names : list string) (files : Fs.t) (k : string) :
  k ∈ names -> removeAll dir names files !! (dir ++ [k]) = None.
Proof.
  revert files. induction names as [|n names IH]; intros files H; [inversion H|].
  cbn [removeAll fold_left]. fold (removeAll dir names (delete (dir ++ [n]) files)).
  destruct (decide (k ∈ names)) as [Hin|Hout]; [now apply IH|].
  apply elem_of_cons in H as [->|H]; [|contradiction].
  rewrite removeAll_other.
  - apply lookup_delete_eq.
  - intros m Hm Heq. apply app_inj_tail in Heq as [_ ->]. contradiction.
Qed.

(** The loop of the sweep removes the orphans among [names], one by one,
    and nothing else. *)
Lemma cleanupLoop_spec (catalog : list Product) (names : list string) :
  forall (st : State) (n : nat) (pre : list Event),
    NoDup names ->
    (forall k, k ∈ names -> orphan catalog k = true -> removable env (fs st) k) ->
    wp (cleanupLoop env (liveSet catalog) names n) pre
       (fun r st' tr =>
          r = Ok (n + length (List.filter (orphan catalog) names))
          /\ fs st' = removeAll (uploadsDir env) (List.filter (orphan catalog) names) (fs st)
          /\ db st' = db st
          /\ tr = pre ++ map (fun k => EvUnlink (Path.child (uploadsDir env) k))
                            (List.filter (orphan catalog) names)) st.
Proof.
  induction names as [|k names IH]; intros st n pre Hnd Hrm; cbn [cleanupLoop List.filter].
  - wp_steps. rewrite Nat.add_0_r, app_nil_r. easy.
  - apply NoDup_cons in Hnd as [Hk Hnd].
    fold (orphan catalog k). destruct (orphan catalog k) eqn:Ho; cbn [negb].
    + destruct (Hrm k (list_elem_of_here _ _) Ho) as [Hio [c Hc]].
      wp_steps.
      * exfalso. cbn [Path.segs Path.child] in H. destruct H as [H|H]; [congruence|].
        rewrite unlink_child, Hc in H. discriminate.
      * rewrite unlink_child, Hc in H0. injection H0 as <-.
        eapply wp_conseq.
        { apply (IH (mkState (delete (uploadsDir env ++ [k]) (fs st)) (db st)) (S n) []);
            [assumption|].
          intros k' Hk' Ho'. destruct (Hrm k' (list_elem_of_further _ _ _ Hk') Ho') as [Hio' [c' Hc']].
          split; [assumption|]. exists c'. cbn [fs].
          rewrite lookup_delete_ne; [assumption|].
          intros Heq. apply app_inj_tail in Heq as [_ ->]. contradiction. }
        cbn beta. intros r st' tr (-> & Hfs & Hdb & ->). cbn [fs db] in Hfs, Hdb.
        cbn [length map removeAll fold_left]. rewrite <- app_assoc. cbn [app].
        conjs; try assumption; [f_equal; lia | reflexivity].
    + apply IH; [assumption|].
      intros k' Hk' Ho'. apply Hrm; [now right | assumption].
Qed.

End Cleanup.

Section CleanupSweep.

Variable env : Env.

Lemma filter_none {A} (f : A -> bool) (l : list A) :
  (forall x, x ∈ l -> f x = false) -> List.filter f l = [].
Proof.
  induction l as [|x l IH]; intros H; [reflexivity|]. cbn [List.filter].
  rewrite (H x (list_elem_of_here _ _)). apply IH. intros y Hy. apply H. now right.
Qed.

Lemma unlinks_map (dir : list string) (names : list string) :
  unlinks (map (fun k => EvUnlink (Path.child dir k)) names) = map (Path.child dir) names.
Proof. induction names as [|k names IH]; [reflexivity|]. cbn. now rewrite <- IH. Qed.

Lemma wp_run_eq {A} (m : M A) (files : Fs.t) (catalog : list Product)
    (x : Res A * Fs.t * list Product * list Event) :
  wp m [] (fun r st' tr => (r, fs st', db st', tr) = x) (mkState files catalog) ->
  run m files catalog = x.
Proof.
  intros H. destruct (wp_run_ex _ _ _ _ H) as (r & f' & c' & tr & -> & Hx). exact Hx.
Qed.

(** The sweep on a store it can read, with a catalog it can read. *)
Lemma cleanup_run (files : Fs.t) (catalog : list Product) (names : list string) :
  ioError env (OpReaddir (uploadsDir env)) = false ->
  Fs.readdir files (uploadsDir env) = Some names ->
  dbDown env = false ->
  forallb hasReference catalog = true ->
  (forall k, k ∈ names -> orphan catalog k = true -> removable env files k) ->
  let dead := List.filter (orphan catalog) names in
  run (cleanupOrphanedImages env) files catalog
  = (Ok tt, removeAll (uploadsDir env) dead files, catalog,
     [EvExists (Path.ofSegs (uploadsDir env)) true]
     ++ map (fun k => EvUnlink (Path.child (uploadsDir env) k)) dead
     ++ (if (0 <? length dead)%nat then [EvCleaned (length dead)] else [])).
Proof.
  intros Hio Hrd Hdb Hrefs Hrm dead.
  destruct (readdir_Some _ _ _ Hrd) as (Hnd & Hnames & Hex).
  apply wp_run_eq. unfold cleanupOrphanedImages.
  wp_step. wp_step. wp_step. cbn [fs]. rewrite Hex. cbn [negb].
  wp_step. apply wp_readdirSync; cbn [fs].
  { intros [H|H]; congruence. }
  intros names' _ Hrd'. rewrite Hrd in Hrd'. injection Hrd' as <-.
  wp_step. apply wp_dbCall; [intros; congruence | intros _]. apply wp_pure.
  cbn [db]. wp_step.
  eapply wp_conseq; [apply usedImages_spec|]. cbn beta.
  intros r0 st' tr0 (-> & -> & ->). rewrite Hrefs, app_nil_r.
  wp_step.
  eapply wp_conseq; [apply (cleanupLoop_spec env catalog names _ 0 []); assumption|].
  cbn beta. intros r1 st1 tr1 (-> & Hfs & Hdb' & ->). cbn [fs db] in Hfs, Hdb'.
  cbn [Nat.add app]. fold dead.
  destruct st1 as [f1 c1]. cbn [fs db] in *. subst f1 c1.
  destruct (0 <? length dead)%nat; wp_steps; rewrite ?app_nil_r; reflexivity.
Qed.

(** Whatever happens to it, the sweep removes only orphans: on a store
    without orphans it removes nothing. *)
Lemma cleanup_nothing_to_do (files : Fs.t) (catalog : list Product) :
  (forall k, orphan catalog k = true -> files !! (uploadsDir env ++ [k]) = None) ->
  exists tr,
    run (cleanupOrphanedImages env) files catalog = (Ok tt, files, catalog, tr)
    /\ unlinks tr = [].
Proof.
  intros Hclean.
  destruct (wp_run_ex (cleanupOrphanedImages env)
              (fun r st' tr => r = Ok tt /\ st' = mkState files catalog /\ unlinks tr = [])
              files catalog) as (r & f' & c' & tr & Hrun & -> & [= -> ->] & Hu).
  2:{ now exists tr. }
  unfold cleanupOrphanedImages. wp_steps; try easy.
  eapply wp_conseq; [apply usedImages_spec|]. cbn beta.
  intros r0 st' tr0 (-> & -> & ->). rewrite app_nil_r.
  destruct (forallb hasReference catalog); wp_steps; [|easy].
  destruct (readdir_Some _ _ _ H0) as (Hnd & Hnames & _).
  assert (Hnone : List.filter (orphan catalog) names = []).
  { apply filter_none. intros k Hk. destruct (orphan catalog k) eqn:Ho; [|reflexivity].
    apply Hnames in Hk. cbn [fs] in Hk. rewrite (Hclean k Ho) in Hk. now destruct Hk. }
  eapply wp_conseq.
  { apply (cleanupLoop_spec env catalog names _ 0 []); [assumption|].
    intros k Hk Ho. exfalso. apply Hnames in Hk. cbn [fs] in Hk.
    rewrite (Hclean k Ho) in Hk. now destruct Hk. }
  cbn beta. intros r1 st1 tr1 (-> & Hfs & Hdb' & ->).
  rewrite Hnone in *. cbn [length Nat.add map app removeAll fold_left fs db] in *.
  destruct st1 as [f1 c1]. cbn [fs db] in *. subst f1 c1.
  wp_steps; easy.
Qed.

End CleanupSweep.

(** C6.  On a store it can read, with a catalog whose records all carry a
    reference, and when every unreferenced entry is a regular file that the
    medium lets go, the orphan sweep removes exactly the entries of the
    store that are not in the normalised set of live references: each of
    them is unlinked once, they are gone afterwards, and every other path
    is as before.  A second sweep right after removes nothing, whatever
    happens to it. *)
Theorem orphan_sweep_exact_and_idempotent
    (env : Env) (files : Fs.t) (catalog : list Product) (names : list string) :
  ioError env (OpReaddir (uploadsDir env)) = false ->
  Fs.readdir files (uploadsDir env) = Some names ->
  dbDown env = false ->
  forallb hasReference catalog = true ->
  (forall k, k ∈ names -> orphan catalog k = true -> removable env files k) ->
  exists files' tr,
    run (cleanupOrphanedImages env) files catalog = (Ok tt, files', catalog, tr)
    /\ unlinks tr = map (Path.child (uploadsDir env)) (List.filter (orphan catalog) names)
    /\ (forall k, orphan catalog k = true -> files' !! (uploadsDir env ++ [k]) = None)
    /\ (forall p, (forall k, orphan catalog k = true -> p <> uploadsDir env ++ [k]) ->
                  files' !! p = files !! p)
    /\ (forall env2, appRoot env2 = appRoot env ->
          exists tr2,
            run (cleanupOrphanedImages env2) files' catalog = (Ok tt, files', catalog, tr2)
            /\ unlinks tr2 = []).
Proof.
  intros Hio Hrd Hdb Hrefs Hrm.
  destruct (readdir_Some _ _ _ Hrd) as (Hnd & Hnames & Hex).
  set (dead := List.filter (orphan catalog) names).
  assert (Hgone : forall k, orphan catalog k = true ->
                    removeAll (uploadsDir env) dead files !! (uploadsDir env ++ [k]) = None).
  { intros k Ho. destruct (decide (k ∈ names)) as [Hin|Hout].
    - apply removeAll_gone. apply list_elem_of_In, filter_In.
      split; [now apply list_elem_of_In | assumption].
    - rewrite removeAll_other.
      + destruct (files !! (uploadsDir env ++ [k])) eqn:E; [|reflexivity].
        exfalso. apply Hout, Hnames. now rewrite E.
      + intros n Hn Heq. apply app_inj_tail in Heq as [_ ->].
        apply list_elem_of_In, filter_In in Hn as [Hn _]. now apply list_elem_of_In in Hn. }
  eexists _, _. split; [apply (cleanup_run env files catalog names); assumption|].
  fold dead. split; [|split; [exact Hgone|split]].
  - rewrite !unlinks_app, unlinks_map. cbn [unlinks omap].
    destruct (0 <? length dead)%nat; cbn; now rewrite app_nil_r.
  - intros p Hp. apply removeAll_other. intros n Hn.
    apply list_elem_of_In, filter_In in Hn as [_ Ho]. now apply Hp.
  - intros env2 Hroot.
    assert (Hup : uploadsDir env2 = uploadsDir env) by now rewrite !uploadsDir_eq, Hroot.
    apply cleanup_nothing_to_do. rewrite Hup. exact Hgone.
Qed.

Lemma orphan_sweep_exact_and_idempotent_witness :
  exists files' tr,
    run (cleanupOrphanedImages Example.env) Example.files Example.catalog
    = (Ok tt, files', Example.catalog, tr)
    /\ unlinks tr = [Path.child (uploadsDir Example.env) "b.png"].
Proof.
  destruct (orphan_sweep_exact_and_idempotent Example.env Example.files Example.catalog
              ["a.png"; "b.png"])
    as (files' & tr & Hrun & Hu & _); try reflexivity.
  - intros k Hk Ho.
    apply elem_of_cons in Hk as [->|Hk]; [discriminate Ho|].
    apply list_elem_of_singleton in Hk as ->.
    split; [reflexivity|]. exists []. reflexivity.
  - exists files', tr. split; [exact Hrun | exact Hu].
Defined.

Section CleanupStops.

Variable env : Env.

Lemma missing_reference_forallb (catalog : list Product) :
  (exists p, p ∈ catalog /\ f_imageUrl (fields p) = None) ->
  forallb hasReference catalog = false.
Proof.
  intros (p & Hp & Hnone). induction catalog as [|q l IH]; [inversion Hp|].
  cbn [forallb]. apply elem_of_cons in Hp as [<-|Hp].
  - unfold hasReference at 1. now rewrite Hnone.
  - rewrite (IH Hp). apply andb_false_r.
Qed.

Lemma cleanup_missing_reference (files : Fs.t) (catalog : list Product) :
  forallb hasReference catalog = false ->
  wp (cleanupOrphanedImages env) []
     (fun r st' tr =>
        r = Ok tt /\ st' = mkState files catalog /\ unlinks tr = []
        /\ (forall names,
              ioError env (OpReaddir (uploadsDir env)) = false ->
              Fs.readdir files (uploadsDir env) = Some names ->
              dbDown env = false ->
              tr = [EvExists (Path.ofSegs (uploadsDir env)) true;
                    EvError "Error in cleanupOrphanedImages:" missingReference]))
     (mkState files catalog).
Proof.
  intros Hrefs. unfold cleanupOrphanedImages. wp_steps; cbn [fs db] in *.
  all: try (conjs; try reflexivity; intros names' Hio' Hrd' Hdb'; exfalso;
            try (pose proof (readdir_Some _ _ _ Hrd') as (_ & _ & Hex));
            try match goal with H : _ \/ _ |- _ => destruct H end; congruence).
  eapply wp_conseq; [apply usedImages_spec|]. cbn beta.
  intros r0 st' tr0 (-> & -> & ->). rewrite Hrefs, app_nil_r. wp_steps.
  conjs; reflexivity.
Qed.

End CleanupStops.

(** C9.  When a record of the catalog has no image reference, the orphan
    sweep deletes nothing, whatever the store holds: on a store and a
    catalog it can read, normalising the live references throws, the error
    is caught and logged, and the run ends there. *)
Theorem orphan_sweep_aborts_on_missing_reference
    (env : Env) (files : Fs.t) (catalog : list Product) :
  (exists p, p ∈ catalog /\ f_imageUrl (fields p) = None) ->
  exists tr,
    run (cleanupOrphanedImages env) files catalog = (Ok tt, files, catalog, tr)
    /\ unlinks tr = []
    /\ (forall names,
          ioError env (OpReaddir (uploadsDir env)) = false ->
          Fs.readdir files (uploadsDir env) = Some names ->
          dbDown env = false ->
          tr = [EvExists (Path.ofSegs (uploadsDir env)) true;
                EvError "Error in cleanupOrphanedImages:" missingReference]).
Proof.
  intros Hnone%missing_reference_forallb.
  destruct (wp_run_ex _ _ files catalog (cleanup_missing_reference env files catalog Hnone))
    as (r & f' & c' & tr & Hrun & -> & [= -> ->] & Hu & Hlog).
  now exists tr.
Qed.

Lemma orphan_sweep_aborts_on_missing_reference_witness :
  let catalog := Example.product "p0" None :: Example.catalog in
  orphan catalog "b.png" = true
  /\ exists tr,
       run (cleanupOrphanedImages Example.env) Example.files catalog
       = (Ok tt, Example.files, catalog, tr)
       /\ unlinks tr = [].
Proof.
  intros catalog. split; [reflexivity|].
  destruct (orphan_sweep_aborts_on_missing_reference Example.env Example.files catalog)
    as (tr & Hrun & Hu & _).
  - exists (Example.product "p0" None). split; [left | reflexivity].
  - now exists tr.
Defined.

(** ** Updating a product *)

Section Update.

Variable env : Env.

Lemma updates_app (a b : list Event) : updates (a ++ b) = updates a ++ updates b.
Proof. apply omap_app. Qed.

Lemma In_updates (d : Product) (tr : list Event) : In (EvUpdate d) tr -> In d (updates tr).
Proof.
  induction tr as [|e tr IH]; [easy|]. intros [->|H]; [now left|].
  cbn. destruct e; try (now apply IH). right. now apply IH.
Qed.

Lemma unlink_gone (files files' : Fs.t) (old : Path.t) :
  Fs.unlink files old = Some files' -> Fs.exists_ files' old = false.
Proof.
  unfold Fs.unlink, Fs.exists_. destruct (Path.dirslash old); [discriminate|].
  destruct (Path.segs old) as [|x l]; [discriminate|]. cbn [Fs.nodeAt].
  destruct (files !! (x :: l)) as [[c|]|]; try discriminate.
  intros [= <-]. now rewrite lookup_delete_eq.
Qed.

Lemma unlink_keeps (files files' : Fs.t) (old p : Path.t) :
  Fs.unlink files old = Some files' -> p <> old ->
  Fs.exists_ files p = true -> Fs.exists_ files' p = true.
Proof.
  unfold Fs.unlink, Fs.exists_. destruct (Path.dirslash old) eqn:Hs; [discriminate|].
  destruct (Path.segs old) as [|x l] eqn:Ho; [discriminate|]. cbn [Fs.nodeAt].
  destruct (files !! (x :: l)) as [[c|]|] eqn:Hc; try discriminate.
  intros [= <-] Hne. destruct (Path.segs p) as [|y m] eqn:Hp; [easy|]. cbn [Fs.nodeAt].
  destruct (decide (y :: m = x :: l)) as [Heq|Hneq].
  - rewrite Heq, Hc. intros Hd. exfalso. apply Hne.
    destruct p as [ps pd], old as [os od]. cbn in *. subst.
    destruct pd; [discriminate|]. congruence.
  - now rewrite lookup_delete_ne.
Qed.

Lemma errors_app (a b : list Event) : errors (a ++ b) = errors a ++ errors b.
Proof. apply omap_app. Qed.

Lemma wp_conseq_run {A} (m : M A) (pre : list Event)
    (P Q : Res A -> State -> list Event -> Prop) (st : State) :
  wp m [] P st ->
  (forall r st' tr, m st = (r, st', tr) -> P r st' tr -> Q r st' (pre ++ tr)) ->
  wp m pre Q st.
Proof.
  unfold wp. destruct (m st) as [[r st'] tr]. cbn [fst snd app]. intros HP H.
  now apply H.
Qed.

(** The removal of the old blob never throws and leaves the new blob
    alone; what it does to the old blob is decided by the store and the
    medium. *)
Lemma removeOldImage_spec (old : option Path.t) (url : string) (pre : list Event) (st : State) :
  wp (removeOldImage env old (Some url)) pre
     (fun r st2 tr2 =>
        r = Ok tt /\ db st2 = db st
        /\ (Fs.exists_ (fs st) (imagePathOf env url) = true ->
            Fs.exists_ (fs st2) (imagePathOf env url) = true)
        /\ exists post,
             tr2 = pre ++ post /\ updates post = []
             /\ match old with
                | None => fs st2 = fs st /\ unlinks post = [] /\ errors post = []
                | Some o =>
                    if decide (o = imagePathOf env url)
                    then fs st2 = fs st /\ unlinks post = [] /\ errors post = []
                    else if Fs.exists_ (fs st) o
                    then (ioError env (OpUnlink (Path.segs o)) = false
                          /\ Fs.unlink (fs st) o = Some (fs st2)
                          /\ Fs.exists_ (fs st2) o = false
                          /\ unlinks post = [o] /\ errors post = [])
                         \/ ((ioError env (OpUnlink (Path.segs o)) = true
                              \/ Fs.unlink (fs st) o = None)
                             /\ fs st2 = fs st /\ unlinks post = []
                             /\ errors post = ["Error deleting old image file:"])
                    else fs st2 = fs st /\ unlinks post = [] /\ errors post = []
                end) st.
Proof.
  unfold removeOldImage. destruct old as [o|].
  2:{ wp_steps. conjs; auto. exists []. now rewrite app_nil_r. }
  destruct (decide (o = imagePathOf env url)) as [Heq|Hne].
  - rewrite bool_decide_eq_false_2 by auto. wp_steps. conjs; auto.
    exists []. now rewrite app_nil_r.
  - rewrite bool_decide_eq_true_2 by auto.
    wp_step. wp_step. wp_step. cbn [fs].
    destruct (Fs.exists_ (fs st) o) eqn:Hex.
    + apply wp_unlinkSync.
      * intros Hfail. wp_steps. conjs; auto.
        exists [EvExists o true; EvError "Error deleting old image file:" "unlink failed"].
        rewrite <- app_assoc. conjs; auto.
      * intros fs' Hio Hun. cbn [fs db]. conjs; auto.
        -- eapply unlink_keeps; [eassumption | congruence].
        -- exists [EvExists o true; EvUnlink o]. rewrite <- app_assoc. conjs; auto.
           left. conjs; auto. eapply unlink_gone; eassumption.
    + wp_steps. conjs; auto. exists [EvExists o false]. conjs; auto.
Qed.

Ltac trace_ex :=
  rewrite <- ?app_assoc;
  first [ eexists; split; [reflexivity|]
        | exists []; split; [now rewrite app_nil_r|] ].

Lemma updateIngest_spec (req : Request) (product : Product) (pre : list Event) (st : State) :
  wp (updateIngest env req product) pre
     (fun r st1 tr1 =>
        db st1 = db st
        /\ (exists ev, tr1 = pre ++ ev /\ unlinks ev = [] /\ updates ev = [])
        /\ (forall early, r = Ok (inl early) -> status early <> 200)
        /\ (forall u, r = Ok (inr u) -> suppliesImage req = true ->
                      file req <> Some EmptyString ->
                      exists url, u = Some url
                                  /\ Fs.exists_ (fs st1) (imagePathOf env url) = true)) st.
Proof.
  unfold updateIngest, updateFromBase64, suppliesImage.
  wp_steps; (split; [reflexivity|]); (split; [trace_ex; split; reflexivity|]);
    (split; [intros early [= <-]; discriminate|]).
  all: intros u [= <-]; try (intros; congruence).
  1-3: intros _ Hne; eexists; (split; [reflexivity|]);
       rewrite imagePathOf_uploads by (congruence || discriminate); assumption.
  intros Hs _. exfalso.
  destruct (b_imageUrl (body req)) as [| | | |s|]; try discriminate.
  destruct s; discriminate.
Qed.

Lemma updateProduct_spec (req : Request) (st : State) :
  suppliesImage req = true ->
  file req <> Some EmptyString ->
  wp (updateProduct env req) []
     (fun r st' tr =>
        forall d, In (EvUpdate d) tr ->
          exists product newUrl mid pre post,
            find (fun p => String.eqb (_id p) (_id d)) (db st) = Some product
            /\ updateIngest env req product st = (Ok (inr (Some newUrl)), mid, pre)
            /\ db mid = db st
            /\ f_imageUrl (fields d) = Some newUrl
            /\ tr = pre ++ EvUpdate d :: post /\ unlinks pre = []
            /\ (exists e, r = Ok (mkResponse 200 (OneProduct e)) /\ doc e = d)
            /\ db st' = replaceDoc (_id d) (fields d) (db st)
            /\ Fs.exists_ (fs mid) (imagePathOf env newUrl) = true
            /\ Fs.exists_ (fs st') (imagePathOf env newUrl) = true
            /\ match oldImagePathOf env product with
               | None => fs st' = fs mid /\ unlinks post = [] /\ errors post = []
               | Some old =>
                   if decide (old = imagePathOf env newUrl)
                   then fs st' = fs mid /\ unlinks post = [] /\ errors post = []
                   else if Fs.exists_ (fs mid) old
                   then (ioError env (OpUnlink (Path.segs old)) = false
                         /\ Fs.unlink (fs mid) old = Some (fs st')
                         /\ Fs.exists_ (fs st') old = false
                         /\ unlinks post = [old] /\ errors post = [])
                        \/ ((ioError env (OpUnlink (Path.segs old)) = true
                             \/ Fs.unlink (fs mid) old = None)
                            /\ fs st' = fs mid /\ unlinks post = []
                            /\ errors post = ["Error deleting old image file:"])
                   else fs st' = fs mid /\ unlinks post = [] /\ errors post = []
               end) st.
Proof.
  intros Hsup Hfile. unfold updateProduct.
  wp_steps; try no_event.
  eapply wp_conseq_run; [apply updateIngest_spec|]. cbn beta.
  intros r1 st1 tr1 Hrun1 (Hdb1 & (ev & -> & Hu1 & Hup1) & _ & Hurl). cbn [app] in *.
  assert (Hno : forall (tl : list Event) d, updates tl = [] -> In (EvUpdate d) (ev ++ tl) -> False).
  { intros tl d Htl Hin%In_updates. now rewrite updates_app, Hup1, Htl in Hin. }
  destruct r1 as [[early|imageUrl]|e]; wp_steps;
    try (intros d Hin; exfalso; first [ eapply (Hno []); [reflexivity | rewrite app_nil_r; eassumption]
                                      | eapply Hno; [|eassumption]; reflexivity ]).
  { exfalso. rewrite Hdb1 in *. congruence. }
  destruct (Hurl _ eq_refl Hsup Hfile) as (url & -> & Hex).
  eapply wp_conseq; [apply removeOldImage_spec|]. cbn beta.
  intros r2 st2 tr2 (-> & Hdb2 & Hkeep & post & -> & Hupd & Hold).
  cbn [fs db] in *. specialize (Hkeep Hex).
  unfold validateImageFile. cbn [fields f_imageUrl].
  wp_steps; cbn [fs db] in *.
  all: intros d Hin; pose proof (In_updates _ _ Hin) as Hd;
    rewrite <- ?app_assoc in Hd; rewrite !updates_app, Hup1, Hupd in Hd;
    cbn in Hd; destruct Hd as [<-|[]].
  all: eexists p, url, st1, ev, _; cbn [_id fields f_imageUrl].
  all: split; [exact Heqo|]; split; [exact Hrun1|]; split; [exact Hdb1|];
    split; [reflexivity|].
  all: split; [rewrite <- !app_assoc; cbn [app]; reflexivity|].
  all: split; [exact Hu1|]; split; [eexists; split; reflexivity|].
  all: split; [rewrite Hdb2, Hdb1; reflexivity|]; split; [exact Hex|];
    split; [exact Hkeep|].
  all: destruct (oldImagePathOf env p) as [old|];
         [destruct (decide (old = imagePathOf env url));
          [|destruct (Fs.exists_ (fs st1) old)]|];
         rewrite ?unlinks_app, ?errors_app; cbn [unlinks errors omap];
         rewrite ?app_nil_r; intuition.
Qed.

End Update.

(** C5.  When an update request brings a new image and the record is
    updated, the request succeeds, the new blob is in the store, and the
    old blob is dealt with after the update of the record, on the store as
    ingestion left it: if its key differs from the new one and it is
    there, it is unlinked and gone, unless the medium refuses or it is no
    regular file, and then (and only then) the failure is logged, the
    store is left as it was and the update succeeds all the same; if the
    keys are equal, the old blob is not there, or the product had no
    image, nothing is unlinked and the store is left as it was. *)
Theorem update_replaces_old_blob
    (env : Env) (req : Request) (files files' : Fs.t) (catalog catalog' : list Product)
    (r : Res Response) (tr : list Event) (d : Product) :
  suppliesImage req = true ->
  file req <> Some EmptyString ->
  run (updateProduct env req) files catalog = (r, files', catalog', tr) ->
  In (EvUpdate d) tr ->
  exists product newUrl mid pre post,
    find (fun p => String.eqb (_id p) (_id d)) catalog = Some product
    /\ run (updateIngest env req product) files catalog
       = (Ok (inr (Some newUrl)), mid, catalog, pre)
    /\ f_imageUrl (fields d) = Some newUrl
    /\ tr = pre ++ EvUpdate d :: post /\ unlinks pre = []
    /\ (exists e, r = Ok (mkResponse 200 (OneProduct e)) /\ doc e = d)
    /\ catalog' = replaceDoc (_id d) (fields d) catalog
    /\ Fs.exists_ mid (imagePathOf env newUrl) = true
    /\ Fs.exists_ files' (imagePathOf env newUrl) = true
    /\ match oldImagePathOf env product with
       | None => files' = mid /\ unlinks post = [] /\ errors post = []
       | Some old =>
           if decide (old = imagePathOf env newUrl)
           then files' = mid /\ unlinks post = [] /\ errors post = []
           else if Fs.exists_ mid old
           then (ioError env (OpUnlink (Path.segs old)) = false
                 /\ Fs.unlink mid old = Some files'
                 /\ Fs.exists_ files' old = false
                 /\ unlinks post = [old] /\ errors post = [])
                \/ ((ioError env (OpUnlink (Path.segs old)) = true
                     \/ Fs.unlink mid old = None)
                    /\ files' = mid /\ unlinks post = []
                    /\ errors post = ["Error deleting old image file:"])
           else files' = mid /\ unlinks post = [] /\ errors post = []
       end.
Proof.
  intros Hsup Hfile Hrun Hin.
  destruct (wp_run _ _ _ _ _ _ _ _ (updateProduct_spec env req _ Hsup Hfile) Hrun d Hin)
    as (product & newUrl & mid & pre & post & Hfind & Hing & Hdb & Hd & Htr & Hpre
        & Hresp & Hcat & Hmid & Hnew & Hold).
  cbn [fs db] in *. exists product, newUrl, (fs mid), pre, post. conjs; auto.
  unfold run. rewrite Hing. now rewrite Hdb.
Qed.

Lemma update_replaces_old_blob_witness :
  let req := Example.request (Some "p1")
               (Example.fullBody (Js.Str "data:image/png;base64,AAAA")) None in
  let out := run (updateProduct Example.env req) Example.files Example.catalog in
  let old := imagePathOf Example.env "/uploads/a.png" in
  let newUrl := "/uploads/" +:+ base64Filename Example.env "png" in
  let d := Example.product "p1" (Some newUrl) in
  Fs.exists_ Example.files old = true
  /\ exists pre post,
       snd out = pre ++ EvUpdate d :: post
       /\ unlinks pre = [] /\ unlinks post = [old]
       /\ Fs.exists_ (snd (fst (fst out))) old = false
       /\ Fs.exists_ (snd (fst (fst out))) (imagePathOf Example.env newUrl) = true.
Proof.
  intros req out old newUrl d. split; [reflexivity|].
  destruct (update_replaces_old_blob Example.env req Example.files
              (snd (fst (fst out))) Example.catalog (snd (fst out))
              (fst (fst (fst out))) (snd out) d)
    as (product & url & mid & pre & post & Hfind & _ & Hurl & Htr & Hpre & _ & _ & _
        & Hnew & Hold).
  - reflexivity.
  - discriminate.
  - unfold out. now destruct (run _ _ _) as [[[? ?] ?] ?].
  - vm_compute. auto 10.
  - injection Hfind as <-. injection Hurl as <-.
    assert (Hu : unlinks (snd out) = [old]) by reflexivity.
    rewrite Htr, unlinks_app, Hpre in Hu.
    change (unlinks (EvUpdate d :: post)) with (unlinks post) in Hu. cbn [app] in Hu.
    exists pre, post.
    split; [exact Htr|]. split; [exact Hpre|]. split; [exact Hu|]. split; [|exact Hnew].
    change (oldImagePathOf Example.env (Example.product "p1" (Some "/uploads/a.png")))
      with (Some old) in Hold. cbv iota in Hold.
    destruct (decide (old = imagePathOf Example.env newUrl)) as [Heq|_].
    { destruct Hold as (_ & Hno & _). rewrite Hu in Hno. discriminate Hno. }
    destruct (Fs.exists_ mid old).
    + destruct Hold as [(_ & _ & Hgone & _)|(_ & _ & Hno & _)]; [exact Hgone|].
      rewrite Hu in Hno. discriminate Hno.
    + destruct Hold as (_ & Hno & _). rewrite Hu in Hno. discriminate Hno.
Defined.

(** ** What the responses carry *)

Section Responses.

Variable env : Env.

Lemma wp_any {A} (m : M A) (pre : list Event)
    (Q : Res A -> State -> list Event -> Prop) (st : State) :
  (forall r st' tr, Q r st' tr) -> wp m pre Q st.
Proof. intros H. apply H. Qed.

Lemma validateImageFile_spec (ref : option string) (pre : list Event) (st : State) :
  wp (validateImageFile env ref) pre
     (fun r st' tr =>
        r = Ok (blobFound env (fs st) ref) /\ st' = st
        /\ exists ev, tr = pre ++ ev /\ updates ev = [] /\ saves ev = []) st.
Proof.
  unfold validateImageFile, blobFound. destruct ref as [url|]; [|wp_steps].
  - destruct (Js.truthyRef (Some url)) eqn:E; cbn [negb andb]; wp_steps; conjs; auto.
    + now exists [EvExists (Path.join (appRoot env) (Js.stripLeadingSlash url))
                    (Fs.exists_ (fs st) (Path.join (appRoot env) (Js.stripLeadingSlash url)))].
    + exists []. now rewrite app_nil_r.
  - conjs; auto. exists []. now rewrite app_nil_r.
Qed.

Lemma enhance_spec (req : Request) (p : Product) (pre : list Event) (st : State) :
  wp (enhance env req p) pre
     (fun r st' tr =>
        st' = st /\ exists e, r = Ok e /\ doc e = p /\ annotated env req (fs st) e) st.
Proof.
  unfold enhance. destruct (Js.truthyRef (f_imageUrl (fields p))) eqn:E.
  - wp_step. eapply wp_conseq; [apply validateImageFile_spec|]. cbn beta.
    intros r st' tr (-> & -> & _). wp_steps. split; [reflexivity|].
    eexists. split; [reflexivity|]. split; [reflexivity|].
    unfold annotated. cbn [doc imageExists fullImageUrl]. now rewrite E.
  - wp_steps. split; [reflexivity|].
    eexists. split; [reflexivity|]. split; [reflexivity|].
    unfold annotated. cbn [doc imageExists fullImageUrl]. now rewrite E.
Qed.

Lemma enhance_all (req : Request) (products : list Product) (pre : list Event) (st : State) :
  wp (mapM (enhance env req) products) pre
     (fun r st' tr =>
        st' = st /\ exists l, r = Ok l /\ map doc l = products
                              /\ Forall (annotated env req (fs st)) l) st.
Proof.
  revert pre. induction products as [|p products IH]; intros pre; cbn [mapM].
  - wp_steps. split; [reflexivity|]. now exists [].
  - wp_step. eapply wp_conseq; [apply enhance_spec|]. cbn beta.
    intros r st' tr (-> & e & -> & He & Ha).
    wp_step. eapply wp_conseq; [apply (IH [])|]. cbn beta.
    intros r' st' tr' (-> & l & -> & Hl & Hall). wp_steps.
    split; [reflexivity|]. exists (e :: l). cbn [map]. rewrite He, Hl. auto.
Qed.

Lemma status_all (req : Request) (products : list Product) (pre : list Event) (st : State) :
  wp (mapM (fun product =>
              found <- validateImageFile env (f_imageUrl (fields product)) ;;
              ret (mkStatus (_id product) (f_title (fields product))
                            (f_imageUrl (fields product)) found
                            (getFullImageUrl (f_imageUrl (fields product)) req)))
           products) pre
     (fun r st' tr => st' = st /\ r = Ok (map (statusOf env req (fs st)) products)) st.
Proof.
  revert pre. induction products as [|p products IH]; intros pre; cbn [mapM].
  - now wp_steps.
  - wp_step. wp_step. eapply wp_conseq; [apply validateImageFile_spec|]. cbn beta.
    intros r st' tr (-> & -> & _). wp_steps.
    eapply wp_conseq; [apply (IH [])|]. cbn beta.
    intros r' st' tr' (-> & ->). now wp_steps.
Qed.

Lemma getAllProducts_spec (req : Request) (st : State) :
  dbDown env = false ->
  wp (getAllProducts env req) []
     (fun r st' tr =>
        st' = st
        /\ exists l, r = Ok (mkResponse 200 (Products l))
                     /\ map doc l = db st /\ Forall (annotated env req (fs st)) l) st.
Proof.
  intros Hup. unfold getAllProducts. wp_steps; [congruence|].
  eapply wp_conseq; [apply enhance_all|]. cbn beta.
  intros r st' tr (-> & l & -> & Hl & Hall). wp_steps. eauto.
Qed.

Lemma getProductById_spec (req : Request) (id : string) (p : Product) (st : State) :
  dbDown env = false ->
  params_id req = Some id -> id <> EmptyString ->
  find (fun q => String.eqb (_id q) id) (db st) = Some p ->
  wp (getProductById env req) []
     (fun r st' tr =>
        st' = st
        /\ exists e, r = Ok (mkResponse 200 (OneProduct e))
                     /\ doc e = p /\ annotated env req (fs st) e) st.
Proof.
  intros Hup Hid Hne Hfind. unfold getProductById. rewrite Hid. cbn [default Js.truthyRef].
  destruct (String.eqb_spec id EmptyString) as [|_]; [contradiction|]. cbn [negb].
  wp_step. wp_step. apply wp_dbCall; [congruence | intros _]. apply wp_pure.
  cbn beta. unfold Datatypes.id. rewrite Hfind. wp_step.
  eapply wp_conseq; [apply enhance_spec|]. cbn beta.
  intros r st' tr (-> & e & -> & He & Ha). wp_steps. eauto.
Qed.

Lemma getImageStatus_spec (req : Request) (st : State) :
  dbDown env = false ->
  wp (getImageStatus env req) []
     (fun r st' tr =>
        st' = st
        /\ r = Ok (mkResponse 200 (StatusReport (map (statusOf env req (fs st)) (db st))))) st.
Proof.
  intros Hup. unfold getImageStatus. wp_steps; [congruence|].
  eapply wp_conseq; [apply status_all|]. cbn beta.
  intros r st' tr (-> & ->). now wp_steps.
Qed.

Lemma createProduct_created (req : Request) (st : State) :
  wp (createProduct env req) []
     (fun r st' tr =>
        forall resp, r = Ok resp -> status resp = 201 ->
          exists e ref,
            json resp = OneProduct e
            /\ f_imageUrl (fields (doc e)) = Some ref
            /\ imageExists e = Some true
            /\ fullImageUrl e = Some (Some (protocol req +:+ "://" +:+ host req +:+ ref))) st.
Proof.
  unfold createProduct, createIngest, createFromBase64, validateImageFile.
  wp_steps; try (intros resp [= <-] Hs; discriminate Hs); try discriminate.
  all: intros resp [= <-] _; cbn [json fields f_imageUrl].
  all: eexists _, _; (split; [reflexivity|]); (split; [reflexivity|]);
         (split; [reflexivity|]).
  all: reflexivity.
Qed.

Lemma updateProduct_updated (req : Request) (st : State) :
  wp (updateProduct env req) []
     (fun r st' tr =>
        forall resp, r = Ok resp -> status resp = 200 ->
          exists e,
            json resp = OneProduct e
            /\ imageExists e = Some (blobFound env (fs st') (f_imageUrl (fields (doc e))))
            /\ fullImageUrl e = Some (getFullImageUrl (f_imageUrl (fields (doc e))) req)) st.
Proof.
  unfold updateProduct. wp_steps; try (intros resp [= <-] Hs; discriminate Hs).
  eapply wp_conseq; [apply (updateIngest_spec env req p [] st)|]. cbn beta.
  intros r1 st1 tr1 (_ & _ & Hearly & _). cbn [app].
  destruct r1 as [[early|imageUrl]|e]; wp_steps;
    try (intros resp [= <-] Hs; discriminate Hs).
  { intros resp [= <-] Hs. now apply Hearly in Hs. }
  all: apply wp_any; intros [[]|e] st2 tr2; wp_steps;
    try (intros resp [= <-] Hs; discriminate Hs).
  eapply wp_conseq; [apply validateImageFile_spec|]. cbn beta.
  intros r3 st3 tr3 (-> & -> & _). wp_steps.
  intros resp [= <-] _. eexists. split; [reflexivity|]. split; reflexivity.
Qed.

End Responses.

(** C8, as the code has it.  The list and get-by-id responses return each
    document with [imageExists] and [fullImageUrl] when the document has a
    non-empty image reference, and with neither field when it has none.  A
    successful create returns [imageExists: true] and the full URL of the
    new reference; a successful update returns both fields for the updated
    document; the image status report returns, for each document, its id,
    title and reference with the fields [exists] and [fullUrl]. *)
Theorem responses_annotate_entries_with_reference
    (env : Env) (req : Request) (files : Fs.t) (catalog : list Product) :
  (dbDown env = false ->
   exists l tr,
     run (getAllProducts env req) files catalog
     = (Ok (mkResponse 200 (Products l)), files, catalog, tr)
     /\ map doc l = catalog /\ Forall (annotated env req files) l)
  /\ (forall id p,
        dbDown env = false -> params_id req = Some id -> id <> EmptyString ->
        find (fun q => String.eqb (_id q) id) catalog = Some p ->
        exists e tr,
          run (getProductById env req) files catalog
          = (Ok (mkResponse 200 (OneProduct e)), files, catalog, tr)
          /\ doc e = p /\ annotated env req files e)
  /\ (forall resp files' catalog' tr,
        run (createProduct env req) files catalog = (Ok resp, files', catalog', tr) ->
        status resp = 201 ->
        exists e ref,
          json resp = OneProduct e
          /\ f_imageUrl (fields (doc e)) = Some ref
          /\ imageExists e = Some true
          /\ fullImageUrl e = Some (Some (protocol req +:+ "://" +:+ host req +:+ ref)))
  /\ (forall resp files' catalog' tr,
        run (updateProduct env req) files catalog = (Ok resp, files', catalog', tr) ->
        status resp = 200 ->
        exists e,
          json resp = OneProduct e
          /\ imageExists e = Some (blobFound env files' (f_imageUrl (fields (doc e))))
          /\ fullImageUrl e = Some (getFullImageUrl (f_imageUrl (fields (doc e))) req))
  /\ (dbDown env = false ->
      exists tr,
        run (getImageStatus env req) files catalog
        = (Ok (mkResponse 200 (StatusReport (map (statusOf env req files) catalog))),
           files, catalog, tr)).
Proof.
  conjs.
  - intros Hup.
    destruct (wp_run_ex _ _ files catalog (getAllProducts_spec env req _ Hup))
      as (r & f' & c' & tr & Hrun & [= -> ->] & l & -> & Hl & Hall).
    now exists l, tr.
  - intros id p Hup Hid Hne Hfind.
    destruct (wp_run_ex _ _ files catalog
                (getProductById_spec env req id p (mkState files catalog) Hup Hid Hne Hfind))
      as (r & f' & c' & tr & Hrun & [= -> ->] & e & -> & He & Ha).
    now exists e, tr.
  - intros resp files' catalog' tr Hrun Hs.
    exact (wp_run _ _ _ _ _ _ _ _ (createProduct_created env req _) Hrun resp eq_refl Hs).
  - intros resp files' catalog' tr Hrun Hs.
    exact (wp_run _ _ _ _ _ _ _ _ (updateProduct_updated env req _) Hrun resp eq_refl Hs).
  - intros Hup.
    destruct (wp_run_ex _ _ files catalog (getImageStatus_spec env req _ Hup))
      as (r & f' & c' & tr & Hrun & [= -> ->] & ->).
    now exists tr.
Qed.

Lemma responses_annotate_entries_with_reference_witness :
  let req := Example.request None (Example.fullBody Js.Undefined) None in
  let catalog := Example.product "p0" None :: Example.catalog in
  exists l tr,
    run (getAllProducts Example.env req) Example.files catalog
    = (Ok (mkResponse 200 (Products l)), Example.files, catalog, tr)
    /\ map doc l = catalog /\ Forall (annotated Example.env req Example.files) l.
Proof.
  intros req catalog.
  apply (proj1 (responses_annotate_entries_with_reference
                  Example.env req Example.files catalog)).
  reflexivity.
Defined.

(** C8, as stated, fails: an entry without an image reference is listed
    without [imageExists] and without [fullImageUrl]. *)
Lemma list_entry_without_reference_not_annotated :
  run (getAllProducts Example.env (Example.request None (Example.fullBody Js.Undefined) None))
      Example.files [Example.product "p0" None]
  = (Ok (mkResponse 200 (Products [mkEnhanced (Example.product "p0" None) None None])),
     Example.files, [Example.product "p0" None], []).
Proof. reflexivity. Qed.

(** ** The backup *)

Section BackupSecond.

Variable env : Env.

Lemma copies_app (a b : list Event) : copies (a ++ b) = copies a ++ copies b.
Proof. apply omap_app. Qed.

Lemma copies_cons (e : Event) (l : list Event) :
  copies (e :: l) = match e with EvCopy _ dst => dst :: copies l | _ => copies l end.
Proof. now destruct e. Qed.

(** On a settled store the loop copies nothing and changes nothing. *)
Lemma backupLoop_settled (names : list string) :
  forall (st : State) (n : nat) (pre : list Event),
    settled env (fs st) names ->
    wp (backupLoop env names n) pre
       (fun r st2 tr2 => st2 = st /\ exists ev, tr2 = pre ++ ev /\ copies ev = []) st.
Proof.
  induction names as [|k names IH]; intros st n pre Hs; cbn [backupLoop].
  - wp_steps. split; [reflexivity|]. exists []. now rewrite app_nil_r.
  - wp_step. wp_step. destruct Hs as [[Hex Hs]|[Hex Hf]]; rewrite Hex; cbn [negb].
    + eapply wp_conseq; [apply (IH st n []); assumption|]. cbn beta.
      intros r st2 tr2 (-> & ev & -> & Hev). split; [reflexivity|].
      eexists. rewrite <- app_assoc. split; [reflexivity|]. exact Hev.
    + wp_steps.
      * split; [reflexivity|]. now eexists.
      * exfalso. destruct Hf as [Hf|Hf]; cbn [Path.segs Path.child] in *; congruence.
Qed.

(** On a settled store the backup copies nothing and changes nothing. *)
Lemma backup_settled (files : Fs.t) (catalog : list Product) :
  settledStore env files ->
  exists tr,
    run (backupImages env) files catalog = (Ok tt, files, catalog, tr) /\ copies tr = [].
Proof.
  intros Hs.
  destruct (wp_run_ex (backupImages env)
              (fun r st' tr => r = Ok tt /\ st' = mkState files catalog /\ copies tr = [])
              files catalog) as (r & f' & c' & tr & Hrun & -> & [= -> ->] & Hc).
  2:{ now exists tr. }
  unfold backupImages, backupIntoPartition. wp_step. wp_step. wp_step. cbn [fs].
  destruct (Fs.exists_ files (Path.ofSegs (uploadsDir env))) eqn:Hup; cbn [negb];
    [|now wp_steps].
  destruct Hs as [Hs|[[Hbk Hmk]|[Hbk Hrd]]]; [congruence| |].
  - wp_step. wp_step. wp_step. cbn [fs]. rewrite Hbk. cbn [negb].
    apply wp_mkdirSync; [intros _; now wp_steps|].
    intros fs' Hio Hmk'. exfalso. cbn [Path.segs Path.ofSegs fs] in *.
    destruct Hmk; congruence.
  - wp_step. wp_step. wp_step. cbn [fs]. rewrite Hbk. cbn [negb]. wp_steps; try easy.
    cbn [fs] in *. destruct Hrd as [Hrd|[Hrd|(names' & Hrd & Hset)]]; try congruence.
    match goal with H : Fs.readdir _ _ = Some _ |- _ => rewrite Hrd in H; injection H as <- end.
    eapply wp_conseq; [apply (backupLoop_settled names' _ 0 []); assumption|]. cbn beta.
    intros r st2 tr2 (-> & ev & -> & Hev).
    destruct r as [n|e]; wp_steps; conjs; try reflexivity;
      rewrite !copies_cons, ?copies_app, ?Hev; reflexivity.
Qed.

End BackupSecond.

Section BackupPaths.

Variable env : Env.

Lemma backup_child_not_upload_child (k n : string) :
  backupDir env ++ [k] <> uploadsDir env ++ [n].
Proof.
  rewrite backupDir_eq, uploadsDir_eq, <- !app_assoc. intros H%app_inv_head. discriminate.
Qed.

Lemma backup_child_not_uploads (k : string) : backupDir env ++ [k] <> uploadsDir env.
Proof.
  rewrite backupDir_eq, uploadsDir_eq, <- !app_assoc. intros H%app_inv_head. discriminate.
Qed.

Lemma backup_child_not_backup (k : string) : backupDir env ++ [k] <> backupDir env.
Proof.
  intros H. apply (f_equal (@length string)) in H. rewrite length_app in H. cbn in H. lia.
Qed.

Lemma backupDir_not_nil : backupDir env <> [].
Proof. rewrite backupDir_eq. now destruct (appRoot env). Qed.

Lemma uploadsDir_not_nil : uploadsDir env <> [].
Proof. rewrite uploadsDir_eq. now destruct (appRoot env). Qed.

End BackupPaths.

Section FsFacts.

Implicit Types (files : Fs.t).

(** [mkdir -p] keeps what is there and turns missing prefixes of its
    path into directories. *)
Lemma mkdirFrom_lookup (todo : list string) :
  forall (done : list string) files files',
    Fs.mkdirFrom files done todo = Some files' ->
    (forall q node, files !! q = Some node -> files' !! q = Some node)
    /\ (forall q, ~ q `prefix_of` (done ++ todo) -> files' !! q = files !! q)
    /\ (todo <> [] -> files' !! (done ++ todo) = Some Fs.Dir).
Proof.
  induction todo as [|s todo IH]; intros done files files'; cbn [Fs.mkdirFrom].
  - intros [= <-]. conjs; auto. congruence.
  - assert (Hpre : forall q, ~ q `prefix_of` (done ++ s :: todo) ->
                             ~ q `prefix_of` ((done ++ [s]) ++ todo)).
    { intros q Hq. now rewrite <- app_assoc. }
    assert (Hne : forall q, ~ q `prefix_of` (done ++ s :: todo) -> q <> done ++ [s]).
    { intros q Hq ->. apply Hq. exists todo. now rewrite <- app_assoc. }
    destruct (files !! (done ++ [s])) as [[c|]|] eqn:E; [discriminate| |].
    + intros H. destruct (IH _ _ _ H) as (Hkeep & Hframe & Hdir). conjs.
      * exact Hkeep.
      * intros q Hq. now apply Hframe, Hpre.
      * intros _. destruct todo as [|t todo].
        -- cbn in H. injection H as <-. exact E.
        -- rewrite <- app_assoc in Hdir. now apply Hdir.
    + intros H. destruct (IH _ _ _ H) as (Hkeep & Hframe & Hdir). conjs.
      * intros q node Hq. apply Hkeep. rewrite lookup_insert_ne; [exact Hq|]. congruence.
      * intros q Hq. rewrite (Hframe q (Hpre q Hq)).
        apply lookup_insert_ne. intros Heq. now apply (Hne q Hq).
      * intros _. destruct todo as [|t todo].
        -- cbn in H. injection H as <-. apply lookup_insert_eq.
        -- rewrite <- app_assoc in Hdir. now apply Hdir.
Qed.

Lemma copy_child_inv files files' (src dst : list string) (k : string) :
  Fs.copy files (Path.child src k) (Path.child dst k) = Some files' ->
  exists data, files' = <[dst ++ [k] := Fs.File data]> files.
Proof.
  unfold Fs.copy, Fs.write, Path.child. cbn [Path.segs Path.dirslash].
  destruct (Fs.nodeAt files (src ++ [k])) as [[data|]|]; try discriminate.
  destruct (dst ++ [k]) as [|x l] eqn:E; [discriminate|].
  destruct (Fs.nodeAt files (removelast (x :: l))) as [[c|]|]; try discriminate.
  destruct (Fs.nodeAt files (x :: l)) as [[c|]|]; intros [= <-]; eauto.
Qed.

Lemma readdir_ext files files' (dir : list string) :
  (forall n, files' !! (dir ++ [n]) = files !! (dir ++ [n])) ->
  Fs.nodeAt files' dir = Fs.nodeAt files dir ->
  Fs.readdir files' dir = Fs.readdir files dir.
Proof.
  intros Hch Hn. unfold Fs.readdir. rewrite Hn.
  destruct (Fs.nodeAt files dir) as [[c|]|]; try reflexivity.
  do 2 f_equal. apply leibniz_equiv, set_equiv. intros n.
  now rewrite !elem_of_children, Hch.
Qed.

Lemma exists_ofSegs files files' (p : list string) :
  Fs.nodeAt files' p = Fs.nodeAt files p ->
  Fs.exists_ files' (Path.ofSegs p) = Fs.exists_ files (Path.ofSegs p).
Proof. intros H. unfold Fs.exists_. cbn [Path.ofSegs Path.segs]. now rewrite H. Qed.

Lemma nodeAt_lookup files (p : list string) : p <> [] -> Fs.nodeAt files p = files !! p.
Proof. now destruct p. Qed.

End FsFacts.

Section BackupFirst.

Variable env : Env.

(** One pass of the loop leaves the store settled; it writes only into
    today's partition, and only names that were not there. *)
Lemma backupLoop_first (names : list string) :
  forall (st : State) (n : nat) (pre : list Event),
    NoDup names ->
    wp (backupLoop env names n) pre
       (fun r st1 tr1 =>
          db st1 = db st
          /\ settled env (fs st1) names
          /\ (forall p,
                (forall k, k ∈ names ->
                   Fs.exists_ (fs st) (Path.child (backupDir env) k) = false ->
                   p <> backupDir env ++ [k]) ->
                fs st1 !! p = fs st !! p)
          /\ exists ev,
               tr1 = pre ++ ev
               /\ forall q, q ∈ copies ev ->
                    exists k, q = Path.child (backupDir env) k
                              /\ Fs.exists_ (fs st) q = false) st.
Proof.
  induction names as [|k names IH]; intros st n pre Hnd; cbn [backupLoop].
  - wp_steps. conjs; auto; [exact I|].
    exists []. rewrite app_nil_r. split; [reflexivity|].
    intros q Hq. inversion Hq.
  - apply NoDup_cons in Hnd as [Hk Hnd].
    assert (Hother : forall (f : Fs.t) j, j ∈ names -> backupDir env ++ [k] <> backupDir env ++ [j]).
    { intros f j Hj Heq. apply app_inv_head in Heq. congruence. }
    wp_step. wp_step.
    destruct (Fs.exists_ (fs st) (Path.child (backupDir env) k)) eqn:Hex; cbn [negb].
    + eapply wp_conseq; [apply (IH st n [] Hnd)|]. cbn beta.
      intros r st1 tr1 (Hdb & Hset & Hframe & ev & -> & Hev). conjs.
      * exact Hdb.
      * left. split; [|exact Hset].
        rewrite exists_child in *. rewrite Hframe; [exact Hex|].
        intros j Hj _. now apply (Hother (fs st)).
      * intros p Hp. apply Hframe. intros j Hj. apply Hp. now right.
      * exists (EvExists (Path.child (backupDir env) k) true :: ev).
        rewrite <- app_assoc. split; [reflexivity|].
        intros q Hq. rewrite copies_cons in Hq. now apply Hev.
    + wp_step. apply wp_copyFileSync.
      * intros Hfail. conjs; auto.
        -- right. split; [exact Hex|]. exact Hfail.
        -- exists [EvExists (Path.child (backupDir env) k) false].
           split; [reflexivity|]. intros q Hq. inversion Hq.
      * intros fs' Hio Hcopy.
        destruct (copy_child_inv _ _ _ _ _ Hcopy) as [data ->].
        eapply wp_conseq; [apply (IH _ (S n) [] Hnd)|]. cbn beta.
        intros r st1 tr1 (Hdb & Hset & Hframe & ev & -> & Hev). cbn [fs db] in *.
        assert (Hsame : forall j, j ∈ names ->
                  Fs.exists_ (<[backupDir env ++ [k] := Fs.File data]> (fs st))
                             (Path.child (backupDir env) j)
                  = Fs.exists_ (fs st) (Path.child (backupDir env) j)).
        { intros j Hj. rewrite !exists_child, lookup_insert_ne; [reflexivity|].
          now apply (Hother (fs st)). }
        conjs.
        -- exact Hdb.
        -- left. split; [|exact Hset].
           rewrite exists_child, Hframe, lookup_insert_eq; [reflexivity|].
           intros j Hj _. now apply (Hother (fs st)).
        -- intros p Hp. rewrite Hframe.
           ++ apply lookup_insert_ne. intros Heq. apply (Hp k); [now left | exact Hex | now symmetry].
           ++ intros j Hj Hexj. apply Hp; [now right|]. now rewrite <- Hsame.
        -- exists ([EvExists (Path.child (backupDir env) k) false;
                    EvCopy (Path.child (uploadsDir env) k) (Path.child (backupDir env) k)] ++ ev).
           rewrite <- !app_assoc. split; [reflexivity|].
           intros q Hq. cbn [app] in Hq. rewrite !copies_cons in Hq.
           apply elem_of_cons in Hq as [->|Hq]; [eauto|].
           destruct (Hev q Hq) as (j & -> & Hexj). exists j. split; [reflexivity|].
           rewrite exists_child in *.
           destruct (decide (j = k)) as [->|Hjk].
           ++ now rewrite lookup_insert_eq in Hexj.
           ++ rewrite lookup_insert_ne in Hexj; [exact Hexj|].
              intros Heq. apply app_inv_head in Heq. congruence.
Qed.

End BackupFirst.

Section BackupTwice.

Variables env env2 : Env.
Hypothesis same_root : appRoot env2 = appRoot env.
Hypothesis same_day : today env2 = today env.
Hypothesis errors_persist : forall op, ioError env op = true -> ioError env2 op = true.

Lemma uploadsDir_same : uploadsDir env2 = uploadsDir env.
Proof. unfold uploadsDir. now rewrite same_root. Qed.

Lemma backupDir_same : backupDir env2 = backupDir env.
Proof. unfold backupDir. now rewrite same_root, same_day. Qed.

Lemma settled_persist (files : Fs.t) (names : list string) :
  settled env files names -> settled env2 files names.
Proof.
  induction names as [|k names IH]; [easy|]. cbn [settled].
  unfold copyFails. rewrite uploadsDir_same, backupDir_same.
  intros [[Hex Hs]|[Hex [Hf|Hf]]]; auto.
Qed.

Lemma backupIntoPartition_spec (files : Fs.t) (st : State) (pre : list Event) :
  Fs.exists_ (fs st) (Path.ofSegs (backupDir env)) = true ->
  (forall k, is_Some (files !! (backupDir env ++ [k])) ->
     fs st !! (backupDir env ++ [k]) = files !! (backupDir env ++ [k])) ->
  copies pre = [] ->
  wp (backupIntoPartition env) pre
     (fun r st1 tr1 => db st1 = db st /\ firstRun env env2 files st1 tr1) st.
Proof.
  intros Hbk Hkeep Hpre. unfold backupIntoPartition, firstRun.
  wp_step. apply wp_readdirSync.
  - intros Hfail. conjs; auto.
    + right. right. rewrite uploadsDir_same, backupDir_same. split; [exact Hbk|].
      destruct Hfail as [Hf|Hf]; auto.
    + intros k Hk. rewrite Hpre. split; [apply not_elem_of_nil | now apply Hkeep].
  - intros names Hio Hrd.
    destruct (readdir_Some _ _ _ Hrd) as (Hnd & Hnames & Hup).
    wp_step. eapply wp_conseq; [apply (backupLoop_first env names st 0 [] Hnd)|]. cbn beta.
    intros r st1 tr1 (Hdb & Hset & Hframe & ev & -> & Hev). cbn [app].
    assert (Hbk1 : Fs.exists_ (fs st1) (Path.ofSegs (backupDir env)) = true).
    { rewrite <- Hbk. apply exists_ofSegs.
      rewrite !nodeAt_lookup by apply backupDir_not_nil. apply Hframe.
      intros k _ _ Heq. now apply (backup_child_not_backup env k). }
    assert (Hrd1 : Fs.readdir (fs st1) (uploadsDir env) = Some names).
    { rewrite <- Hrd. apply readdir_ext.
      - intros n'. apply Hframe. intros k _ _ Heq.
        now apply (backup_child_not_upload_child env k n').
      - rewrite !nodeAt_lookup by apply uploadsDir_not_nil. apply Hframe.
        intros k _ _ Heq. now apply (backup_child_not_uploads env k). }
    assert (Hsettled : settledStore env2 (fs st1)).
    { right. right. rewrite uploadsDir_same, backupDir_same. split; [exact Hbk1|].
      right. right. exists names. split; [exact Hrd1 | now apply settled_persist]. }
    assert (Hnocopy : forall k, is_Some (files !! (backupDir env ++ [k])) ->
              (Path.child (backupDir env) k ∉ copies ev)
              /\ fs st1 !! (backupDir env ++ [k]) = files !! (backupDir env ++ [k])).
    { intros k Hk. pose proof (Hkeep k Hk) as Hsame.
      assert (Hexk : Fs.exists_ (fs st) (Path.child (backupDir env) k) = true).
      { rewrite exists_child, Hsame. now apply bool_decide_eq_true_2. }
      split.
      - intros Hin. destruct (Hev _ Hin) as (j & Hj & Hexj). congruence.
      - rewrite <- Hsame. apply Hframe. intros j _ Hexj Heq.
        apply app_inv_head in Heq. injection Heq as ->. congruence. }
    destruct r as [n|e]; wp_steps; conjs; auto.
    all: intros k Hk; destruct (Hnocopy k Hk) as [Hc Hl]; split; [|exact Hl].
    all: rewrite ?copies_app, Hpre; cbn [app copies omap]; rewrite ?app_nil_r; exact Hc.
Qed.

(** A first run of the backup, whatever happens to it. *)
Lemma backup_first (files : Fs.t) (catalog : list Product) :
  wp (backupImages env) []
     (fun r st1 tr1 => r = Ok tt /\ db st1 = catalog /\ firstRun env env2 files st1 tr1)
     (mkState files catalog).
Proof.
  assert (Hsame : forall st1 tr tr',
            copies tr' = copies tr ->
            firstRun env env2 files st1 tr -> firstRun env env2 files st1 tr').
  { intros st1 tr tr' Heq [Hs Hc]. split; [exact Hs|]. intros k Hk.
    rewrite Heq. now apply Hc. }
  unfold backupImages. wp_step. wp_step. wp_step. cbn [fs].
  destruct (Fs.exists_ files (Path.ofSegs (uploadsDir env))) eqn:Hup; cbn [negb].
  2:{ wp_steps. conjs; auto. split.
      - left. now rewrite uploadsDir_same.
      - intros k Hk. split; [apply not_elem_of_nil | reflexivity]. }
  wp_step. wp_step. wp_step. cbn [fs].
  destruct (Fs.exists_ files (Path.ofSegs (backupDir env))) eqn:Hbk; cbn [negb].
  - wp_steps. eapply wp_conseq.
    { apply (backupIntoPartition_spec files (mkState files catalog) []); auto. }
    cbn beta. intros r st1 tr1 (Hdb & Hfirst). cbn [app db] in *.
    destruct r as [[]|e]; wp_steps; conjs; auto.
    all: eapply Hsame; [|exact Hfirst].
    all: rewrite !copies_cons, ?copies_app; cbn; now rewrite ?app_nil_r.
  - apply wp_mkdirSync.
    + intros Hfail. wp_steps. conjs; auto. split.
      * right. left. rewrite backupDir_same. split; [exact Hbk|].
        destruct Hfail as [Hf|Hf]; auto.
      * intros k Hk. split; [apply not_elem_of_nil | reflexivity].
    + intros fs' Hio Hmk. destruct (mkdirFrom_lookup _ _ _ _ Hmk) as (Hkeep & Hframe & Hdir).
      cbn [app Path.segs Path.ofSegs] in *.
      eapply wp_conseq.
      { apply (backupIntoPartition_spec files (mkState fs' catalog) []); cbn [fs]; auto.
        - apply exists_dir. cbn [Path.segs Path.ofSegs]. apply Hdir, backupDir_not_nil.
        - intros k [node Hk]. rewrite Hk. now apply Hkeep. }
      cbn beta. intros r st1 tr1 (Hdb & Hfirst). cbn [app db] in *.
      destruct r as [[]|e]; wp_steps; conjs; auto.
      all: eapply Hsame; [|exact Hfirst].
      all: rewrite !copies_cons, ?copies_app; cbn; now rewrite ?app_nil_r.
Qed.

End BackupTwice.

(** C4.  The backup does not copy again what today's partition holds, and
    a second run on the same day finds nothing to copy: after a first run,
    a name that was in the partition before it is as it was and has not
    been copied, and a second run (same application root, same day, the
    I/O errors of the first run still there) leaves the files as they are
    and copies nothing. *)
Theorem backup_twice_same_day_copies_nothing
    (env env2 : Env) (files : Fs.t) (catalog : list Product) :
  appRoot env2 = appRoot env ->
  today env2 = today env ->
  (forall op, ioError env op = true -> ioError env2 op = true) ->
  exists files1 tr1 tr2,
    run (backupImages env) files catalog = (Ok tt, files1, catalog, tr1)
    /\ (forall k, is_Some (files !! (backupDir env ++ [k])) ->
          (Path.child (backupDir env) k ∉ copies tr1)
          /\ files1 !! (backupDir env ++ [k]) = files !! (backupDir env ++ [k]))
    /\ run (backupImages env2) files1 catalog = (Ok tt, files1, catalog, tr2)
    /\ copies tr2 = [].
Proof.
  intros Hroot Hday Hpersist.
  destruct (wp_run_ex _ _ files catalog (backup_first env env2 Hroot Hday Hpersist files catalog))
    as (r & files1 & c1 & tr1 & Hrun & -> & Hdb & Hsettled & Hkeep).
  cbn [fs db] in *. subst c1.
  destruct (backup_settled env2 files1 catalog Hsettled) as (tr2 & Hrun2 & Hc2).
  exists files1, tr1, tr2. auto.
Qed.

Lemma backup_twice_same_day_copies_nothing_witness :
  exists files1 tr1 tr2,
    run (backupImages Example.env) Example.files Example.catalog
    = (Ok tt, files1, Example.catalog, tr1)
    /\ run (backupImages Example.env) files1 Example.catalog
       = (Ok tt, files1, Example.catalog, tr2)
    /\ copies tr2 = [].
Proof.
  destruct (backup_twice_same_day_copies_nothing Example.env Example.env
              Example.files Example.catalog)
    as (files1 & tr1 & tr2 & H1 & _ & H2 & H3); try reflexivity.
  - intros op H. exact H.
  - exists files1, tr1, tr2. auto.
Defined.

(** * Further properties

    What the sweeps, the hooks and the handlers do beyond the claims above. *)

(** ** The orphan sweep, whatever happens *)

Section SweepSafety.

Variable env : Env.

Lemma cleanupLoop_frame (used names : list string) :
  forall (st : State) (n : nat) (pre : list Event),
    wp (cleanupLoop env used names n) pre
       (fun r st' tr =>
          (exists m, r = Ok m) /\ db st' = db st
          /\ forall p,
               fs st' !! p = fs st !! p
               \/ exists k c, k ∈ names /\ Js.includes used ("uploads/" +:+ k) = false
                              /\ p = uploadsDir env ++ [k]
                              /\ fs st !! p = Some (Fs.File c) /\ fs st' !! p = None) st.
Proof.
  induction names as [|k names IH]; intros st n pre; cbn [cleanupLoop].
  - wp_steps. conjs; eauto.
  - destruct (Js.includes used ("uploads/" +:+ k)) eqn:Hin; cbn [negb].
    + eapply wp_conseq; [apply (IH st n [])|]. cbn beta.
      intros r st' tr (Hr & Hdb & Hf). conjs; auto.
      intros p. destruct (Hf p) as [H|(j & c & Hj & H)]; [now left|].
      right. exists j, c. split; [now right | exact H].
    + wp_step. wp_step. wp_step. apply wp_unlinkSync.
      * intros _. wp_steps.
        eapply wp_conseq; [apply (IH st n [])|]. cbn beta.
        intros r st' tr (Hr & Hdb & Hf). conjs; auto.
        intros p. destruct (Hf p) as [H|(j & c & Hj & H)]; [now left|].
        right. exists j, c. split; [now right | exact H].
      * intros fs' _ Hun. wp_steps.
        rewrite unlink_child in Hun.
        destruct (fs st !! (uploadsDir env ++ [k])) as [[c|]|] eqn:Hc; try discriminate.
        injection Hun as <-.
        eapply wp_conseq; [apply (IH _ (S n) [])|]. cbn beta. cbn [fs db].
        intros r st' tr (Hr & Hdb & Hf). conjs; auto.
        intros p. destruct (Hf p) as [H|(j & c' & Hj & Hi & -> & Hs & Hn)].
        -- destruct (decide (p = uploadsDir env ++ [k])) as [->|Hne].
           ++ right. exists k, c. rewrite lookup_delete_eq in H.
              conjs; auto. now left.
           ++ left. now rewrite lookup_delete_ne in H.
        -- right. exists j.
           destruct (decide (j = k)) as [->|Hne].
           ++ now rewrite lookup_delete_eq in Hs.
           ++ rewrite lookup_delete_ne in Hs
                by (intros Heq; apply app_inj_tail in Heq as [_ ?]; congruence).
              exists c'. conjs; auto. now right.
Qed.

Lemma cleanup_frame (files : Fs.t) (catalog : list Product) :
  wp (cleanupOrphanedImages env) []
     (fun r st' tr =>
        r = Ok tt /\ db st' = catalog
        /\ forall p,
             fs st' !! p = files !! p
             \/ exists k c, orphan catalog k = true /\ p = uploadsDir env ++ [k]
                            /\ files !! p = Some (Fs.File c) /\ fs st' !! p = None)
     (mkState files catalog).
Proof.
  unfold cleanupOrphanedImages. wp_steps; try (conjs; auto; fail).
  eapply wp_conseq; [apply usedImages_spec|]. cbn beta.
  intros r0 st' tr0 (-> & -> & ->). rewrite app_nil_r.
  destruct (forallb hasReference catalog); wp_steps; [|conjs; auto].
  eapply wp_conseq; [apply (cleanupLoop_frame (liveSet catalog) names _ 0 [])|].
  cbn beta. cbn [fs db].
  intros r1 st1 tr1 ((m & ->) & Hdb & Hf).
  assert (Hf' : forall p,
             fs st1 !! p = files !! p
             \/ exists k c, orphan catalog k = true /\ p = uploadsDir env ++ [k]
                            /\ files !! p = Some (Fs.File c) /\ fs st1 !! p = None).
  { intros p. destruct (Hf p) as [Hp|(k & c & _ & Hi & Hp)]; [now left|].
    right. exists k, c. split; [|exact Hp]. unfold orphan. now rewrite Hi. }
  wp_steps; conjs; auto.
Qed.

Lemma cleanup_run_frame (files : Fs.t) (catalog : list Product) :
  exists files' tr,
    run (cleanupOrphanedImages env) files catalog = (Ok tt, files', catalog, tr)
    /\ forall p,
         files' !! p = files !! p
         \/ exists k c, orphan catalog k = true /\ p = uploadsDir env ++ [k]
                        /\ files !! p = Some (Fs.File c) /\ files' !! p = None.
Proof.
  destruct (wp_run_ex _ _ files catalog (cleanup_frame files catalog))
    as (r & files' & c' & tr & Hrun & -> & Hdb & Hf).
  cbn [fs db] in *. subst c'. now exists files', tr.
Qed.

End SweepSafety.

(** X1.  Whatever the store and the catalog hold, and whatever fails on
    the way, the orphan sweep ends normally and leaves the catalog alone; a
    path it changed was a regular file directly under the uploads
    directory whose name no record references, and that file is gone.  So
    the entry of a record whose reference is [/uploads/<name>] or
    [uploads/<name>] is as it was. *)
Theorem sweep_removes_only_unreferenced_files
    (env : Env) (files : Fs.t) (catalog : list Product) :
  exists files' tr,
    run (cleanupOrphanedImages env) files catalog = (Ok tt, files', catalog, tr)
    /\ (forall p,
          files' !! p = files !! p
          \/ exists k c, orphan catalog k = true /\ p = uploadsDir env ++ [k]
                         /\ files !! p = Some (Fs.File c) /\ files' !! p = None)
    /\ (forall d ref name,
          d ∈ catalog -> f_imageUrl (fields d) = Some ref ->
          Js.stripLeadingSlash ref = "uploads/" +:+ name ->
          files' !! (uploadsDir env ++ [name]) = files !! (uploadsDir env ++ [name])).
Proof.
  destruct (cleanup_run_frame env files catalog) as (files' & tr & Hrun & Hf).
  exists files', tr. conjs; auto.
  intros d ref name Hd Href Hname.
  destruct (Hf (uploadsDir env ++ [name])) as [H|(k & c & Ho & Heq & _)]; [exact H|].
  exfalso. apply app_inj_tail in Heq as [_ <-].
  unfold orphan in Ho. apply negb_true_iff in Ho.
  assert (Hin : Js.includes (liveSet catalog) ("uploads/" +:+ name) = true); [|congruence].
  unfold Js.includes. apply existsb_exists. exists ("uploads/" +:+ name).
  split; [|apply String.eqb_refl].
  unfold liveSet. apply in_map_iff. exists d. rewrite Href. cbn [default].
  split; [exact Hname | now apply list_elem_of_In].
Qed.

(** ** The backup, whatever happens *)

Section BackupAdds.

Variable env : Env.

Lemma wp_both {A} (m : M A) (pre : list Event)
    (P Q : Res A -> State -> list Event -> Prop) (st : State) :
  wp m pre P st -> wp m pre Q st -> wp m pre (fun r st' tr => P r st' tr /\ Q r st' tr) st.
Proof. unfold wp. auto. Qed.

Lemma copy_child_Some (files files' : Fs.t) (src dst : list string) (k : string) :
  Fs.copy files (Path.child src k) (Path.child dst k) = Some files' ->
  exists data, files !! (src ++ [k]) = Some (Fs.File data)
               /\ files' = <[dst ++ [k] := Fs.File data]> files.
Proof.
  unfold Fs.copy, Fs.write, Path.child. cbn [Path.segs Path.dirslash].
  rewrite nodeAt_snoc.
  destruct (files !! (src ++ [k])) as [[data|]|]; try discriminate.
  destruct (dst ++ [k]) as [|x l] eqn:E; [discriminate|].
  destruct (Fs.nodeAt files (removelast (x :: l))) as [[c|]|]; try discriminate.
  destruct (Fs.nodeAt files (x :: l)) as [[c|]|]; intros [= <-]; eauto.
Qed.

Lemma exists_child_false (files : Fs.t) (dir : list string) (k : string) :
  Fs.exists_ files (Path.child dir k) = false <-> files !! (dir ++ [k]) = None.
Proof.
  rewrite exists_child. destruct (files !! (dir ++ [k])) as [x|].
  - rewrite bool_decide_eq_true_2 by eauto. split; discriminate.
  - rewrite bool_decide_eq_false_2; [easy|]. now intros [? ?].
Qed.

(** The loop only adds: a path that changed is a new entry of today's
    partition, with the content of the upload of the same name. *)
Lemma backupLoop_adds (names : list string) :
  forall (st : State) (n : nat) (pre : list Event),
    wp (backupLoop env names n) pre
       (fun r st1 tr1 =>
          db st1 = db st
          /\ forall p,
               fs st1 !! p = fs st !! p
               \/ exists k data,
                    k ∈ names /\ p = backupDir env ++ [k] /\ fs st !! p = None
                    /\ fs st !! (uploadsDir env ++ [k]) = Some (Fs.File data)
                    /\ fs st1 !! p = Some (Fs.File data)) st.
Proof.
  induction names as [|k names IH]; intros st n pre; cbn [backupLoop].
  - wp_steps. auto.
  - wp_step. wp_step.
    destruct (Fs.exists_ (fs st) (Path.child (backupDir env) k)) eqn:Hex; cbn [negb].
    + eapply wp_conseq; [apply (IH st n [])|]. cbn beta.
      intros r st1 tr1 (Hdb & Hf). split; [exact Hdb|].
      intros p. destruct (Hf p) as [Hp|Hp]; [now left|]. right.
      destruct Hp as (j & data & Hj & Hp). exists j, data. split; [now right | exact Hp].
    + apply exists_child_false in Hex.
      wp_step. apply wp_copyFileSync; [intros _; split; auto|].
      intros fs' _ Hcopy. destruct (copy_child_Some _ _ _ _ _ Hcopy) as (data & Hsrc & ->).
      eapply wp_conseq; [apply (IH _ (S n) [])|]. cbn beta. cbn [fs db].
      intros r st1 tr1 (Hdb & Hf). split; [exact Hdb|].
      intros p. destruct (Hf p) as [Hp|(j & dj & Hj & -> & Hnone & Hsj & Hnew)].
      * destruct (decide (p = backupDir env ++ [k])) as [->|Hne].
        -- right. exists k, data. rewrite lookup_insert_eq in Hp.
           conjs; auto. now left.
        -- left. now rewrite lookup_insert_ne in Hp.
      * right. exists j, dj.
        destruct (decide (j = k)) as [->|Hne]; [now rewrite lookup_insert_eq in Hnone|].
        rewrite lookup_insert_ne in Hnone
          by (intros Heq; apply app_inj_tail in Heq as [_ ?]; congruence).
        rewrite lookup_insert_ne in Hsj by apply backup_child_not_upload_child.
        conjs; auto. now right.
Qed.

Lemma mkdirFrom_adds (todo : list string) :
  forall (done : list string) (files files' : Fs.t),
    Fs.mkdirFrom files done todo = Some files' ->
    forall q, files' !! q = files !! q
              \/ (files !! q = None /\ q `prefix_of` (done ++ todo)
                  /\ files' !! q = Some Fs.Dir).
Proof.
  induction todo as [|s todo IH]; intros done files files'; cbn [Fs.mkdirFrom].
  - intros [= <-] q. now left.
  - destruct (files !! (done ++ [s])) as [[c|]|] eqn:E; [discriminate| |].
    + intros H q. destruct (IH _ _ _ H q) as [Hq|(Hn & Hp & Hd)]; [now left|].
      right. rewrite <- app_assoc in Hp. auto.
    + intros H q. destruct (IH _ _ _ H q) as [Hq|(Hn & Hp & Hd)].
      * destruct (decide (q = done ++ [s])) as [->|Hne].
        -- right. rewrite lookup_insert_eq in Hq. conjs; auto.
           exists todo. now rewrite <- app_assoc.
        -- left. now rewrite lookup_insert_ne in Hq.
      * right. rewrite <- app_assoc in Hp.
        destruct (decide (q = done ++ [s])) as [->|Hne].
        -- conjs; auto.
        -- rewrite lookup_insert_ne in Hn by auto. auto.
Qed.

Lemma backup_frame (files : Fs.t) (catalog : list Product) :
  wp (backupImages env) []
     (fun r st1 tr1 =>
        r = Ok tt /\ db st1 = catalog
        /\ forall p,
             fs st1 !! p = files !! p
             \/ (files !! p = None /\ p `prefix_of` backupDir env
                 /\ fs st1 !! p = Some Fs.Dir)
             \/ exists k data,
                  p = backupDir env ++ [k] /\ files !! p = None
                  /\ files !! (uploadsDir env ++ [k]) = Some (Fs.File data)
                  /\ fs st1 !! p = Some (Fs.File data))
     (mkState files catalog).
Proof.
  assert (Hloop : forall (fs0 : Fs.t) (pre : list Event),
            (forall q, fs0 !! q = files !! q
                       \/ (files !! q = None /\ q `prefix_of` backupDir env
                           /\ fs0 !! q = Some Fs.Dir)) ->
            wp (backupIntoPartition env) pre
               (fun r st1 tr1 =>
                  db st1 = catalog
                  /\ forall p,
                       fs st1 !! p = files !! p
                       \/ (files !! p = None /\ p `prefix_of` backupDir env
                           /\ fs st1 !! p = Some Fs.Dir)
                       \/ exists k data,
                            p = backupDir env ++ [k] /\ files !! p = None
                            /\ files !! (uploadsDir env ++ [k]) = Some (Fs.File data)
                            /\ fs st1 !! p = Some (Fs.File data))
               (mkState fs0 catalog)).
  { intros fs0 pre Hmk. unfold backupIntoPartition.
    assert (Hbase : forall p,
              fs0 !! p = files !! p
              \/ (files !! p = None /\ p `prefix_of` backupDir env /\ fs0 !! p = Some Fs.Dir)
              \/ exists k data,
                   p = backupDir env ++ [k] /\ files !! p = None
                   /\ files !! (uploadsDir env ++ [k]) = Some (Fs.File data)
                   /\ fs0 !! p = Some (Fs.File data)).
    { intros p. destruct (Hmk p) as [Hp|Hp]; auto. }
    wp_step. apply wp_readdirSync; [intros _; conjs; auto|].
    intros names _ _. wp_step.
    eapply wp_conseq; [apply (backupLoop_adds names _ 0 [])|]. cbn beta. cbn [fs db].
    intros r st1 tr1 (Hdb & Hf).
    assert (Hall : forall p,
              fs st1 !! p = files !! p
              \/ (files !! p = None /\ p `prefix_of` backupDir env /\ fs st1 !! p = Some Fs.Dir)
              \/ exists k data,
                   p = backupDir env ++ [k] /\ files !! p = None
                   /\ files !! (uploadsDir env ++ [k]) = Some (Fs.File data)
                   /\ fs st1 !! p = Some (Fs.File data)).
    { intros p. destruct (Hf p) as [Hp|(k & data & _ & -> & Hnone & Hsrc & Hnew)].
      - rewrite Hp. destruct (Hmk p) as [Hq|(Hn & Hpre & Hd)]; auto.
      - right. right. exists k, data. split; [reflexivity|].
        destruct (Hmk (backupDir env ++ [k])) as [Hq|(_ & _ & Hd)]; [|congruence].
        destruct (Hmk (uploadsDir env ++ [k])) as [Hu|(_ & _ & Hd)]; [|congruence].
        rewrite <- Hq, <- Hu. auto. }
    destruct r as [m|e]; wp_steps; conjs; auto. }
  unfold backupImages. wp_step. wp_step. wp_step. cbn [fs].
  destruct (Fs.exists_ files (Path.ofSegs (uploadsDir env))); cbn [negb];
    [|wp_steps; conjs; auto].
  wp_step. wp_step. wp_step. cbn [fs].
  destruct (Fs.exists_ files (Path.ofSegs (backupDir env))); cbn [negb].
  - wp_steps. eapply wp_conseq; [apply (Hloop files []); auto|]. cbn beta.
    intros r st1 tr1 (Hdb & Hf). destruct r as [[]|e]; wp_steps; conjs; auto.
  - apply wp_mkdirSync; [intros _; wp_steps; conjs; auto|].
    intros fs' _ Hmk. cbn [fs db].
    eapply wp_conseq.
    { apply (Hloop fs' []). intros q.
      destruct (mkdirFrom_adds _ _ _ _ Hmk q) as [Hq|Hq]; auto. }
    cbn beta. intros r st1 tr1 (Hdb & Hf).
    destruct r as [[]|e]; wp_steps; conjs; auto.
Qed.

Lemma backup_run_frame (files : Fs.t) (catalog : list Product) :
  exists files' tr,
    run (backupImages env) files catalog = (Ok tt, files', catalog, tr)
    /\ forall p,
         files' !! p = files !! p
         \/ (files !! p = None /\ p `prefix_of` backupDir env /\ files' !! p = Some Fs.Dir)
         \/ exists k data,
              p = backupDir env ++ [k] /\ files !! p = None
              /\ files !! (uploadsDir env ++ [k]) = Some (Fs.File data)
              /\ files' !! p = Some (Fs.File data).
Proof.
  destruct (wp_run_ex _ _ files catalog (backup_frame files catalog))
    as (r & files' & c' & tr & Hrun & -> & Hdb & Hf).
  cbn [fs db] in *. subst c'. now exists files', tr.
Qed.

End BackupAdds.

(** X2.  The backup only adds.  Whatever happens to it, it ends normally
    and leaves the catalog alone, every node the store had is as it was,
    and a new node is either a directory on the way to today's partition or
    an entry of that partition with the content of the upload of the same
    name. *)
Theorem backup_only_adds_to_todays_partition
    (env : Env) (files : Fs.t) (catalog : list Product) :
  exists files' tr,
    run (backupImages env) files catalog = (Ok tt, files', catalog, tr)
    /\ files ⊆ files'
    /\ forall p,
         files' !! p = files !! p
         \/ (files !! p = None /\ p `prefix_of` backupDir env /\ files' !! p = Some Fs.Dir)
         \/ exists k data,
              p = backupDir env ++ [k] /\ files !! p = None
              /\ files !! (uploadsDir env ++ [k]) = Some (Fs.File data)
              /\ files' !! p = Some (Fs.File data).
Proof.
  destruct (backup_run_frame env files catalog) as (files' & tr & Hrun & Hf).
  exists files', tr. conjs; auto.
  apply map_subseteq_spec. intros p x Hp.
  destruct (Hf p) as [H|[(H & _)|(k & data & _ & H & _)]]; congruence.
Qed.

(** ** The backup, when nothing fails *)

Section BackupComplete.

Variable env : Env.
Hypothesis medium_ok : forall op, ioError env op = false.

Lemma copy_child_ok (files : Fs.t) (src dst : list string) (k : string) (c : list Byte.byte) :
  files !! (src ++ [k]) = Some (Fs.File c) ->
  Fs.nodeAt files dst = Some Fs.Dir ->
  files !! (dst ++ [k]) = None ->
  Fs.copy files (Path.child src k) (Path.child dst k)
  = Some (<[dst ++ [k] := Fs.File c]> files).
Proof.
  intros Hsrc Hdir Hnone. unfold Fs.copy.
  change (Path.dirslash (Path.child src k)) with false.
  change (Path.segs (Path.child src k)) with (src ++ [k]).
  cbv iota. rewrite nodeAt_snoc, Hsrc.
  apply write_child; [exact Hdir | congruence].
Qed.

Lemma toCopy_insert (files : Fs.t) (k : string) (node : Fs.node) (names : list string) :
  k ∉ names ->
  toCopy env (<[backupDir env ++ [k] := node]> files) names = toCopy env files names.
Proof.
  intros Hk. unfold toCopy. induction names as [|j names IH]; [reflexivity|].
  cbn [List.filter]. rewrite IH by (intros H; apply Hk; now right).
  rewrite !exists_child, lookup_insert_ne; [reflexivity|].
  intros Heq. apply app_inj_tail in Heq as [_ ->]. apply Hk. now left.
Qed.

Lemma backupLoop_complete (names : list string) :
  forall (st : State) (n : nat) (pre : list Event),
    NoDup names ->
    Fs.nodeAt (fs st) (backupDir env) = Some Fs.Dir ->
    (forall k, k ∈ names -> exists c, fs st !! (uploadsDir env ++ [k]) = Some (Fs.File c)) ->
    wp (backupLoop env names n) pre
       (fun r st1 tr1 =>
          r = Ok (n + length (toCopy env (fs st) names))
          /\ (forall k, k ∈ names -> is_Some (fs st1 !! (backupDir env ++ [k])))
          /\ exists ev,
               tr1 = pre ++ ev
               /\ copies ev = map (Path.child (backupDir env)) (toCopy env (fs st) names)
               /\ errors ev = []) st.
Proof.
  induction names as [|k names IH]; intros st n pre Hnd Hdir Hfiles; cbn [backupLoop].
  - wp_steps. conjs.
    + now rewrite Nat.add_0_r.
    + intros k Hk. inversion Hk.
    + exists []. now rewrite app_nil_r.
  - apply NoDup_cons in Hnd as [Hk Hnd].
    assert (Hrest : forall j, j ∈ names ->
              exists c, fs st !! (uploadsDir env ++ [j]) = Some (Fs.File c)).
    { intros j Hj. apply Hfiles. now right. }
    wp_step. wp_step. unfold toCopy. cbn [List.filter]. fold (toCopy env (fs st) names).
    destruct (Fs.exists_ (fs st) (Path.child (backupDir env) k)) eqn:Hex; cbn [negb].
    + eapply wp_conseq.
      { apply wp_both; [apply (IH st n [] Hnd Hdir Hrest) | apply (backupLoop_adds env names st n [])]. }
      cbn beta. intros r st1 tr1 ((-> & Hall & ev & -> & Hc & He) & _ & Hadd). conjs.
      * reflexivity.
      * intros j Hj. apply elem_of_cons in Hj as [Hj|Hj]; [subst j | now apply Hall].
        rewrite exists_child in Hex. apply bool_decide_eq_true_1 in Hex.
        destruct (Hadd (backupDir env ++ [k])) as [Hp|(i & d & _ & _ & _ & _ & Hp)];
          [now rewrite Hp | now rewrite Hp].
      * exists (EvExists (Path.child (backupDir env) k) true :: ev).
        rewrite <- app_assoc. conjs; auto.
    + apply exists_child_false in Hex.
      destruct (Hfiles k (list_elem_of_here _ _)) as [c Hc].
      wp_step. apply wp_copyFileSync.
      { intros [Hio|Hcopy]; exfalso.
        - now rewrite medium_ok in Hio.
        - cbn [fs] in Hcopy. now rewrite (copy_child_ok _ _ _ _ c) in Hcopy. }
      intros fs' _ Hcopy. cbn [fs] in Hcopy.
      rewrite (copy_child_ok _ _ _ _ c) in Hcopy by assumption. injection Hcopy as <-.
      eapply wp_conseq.
      { apply wp_both; [apply (IH _ (S n) [] Hnd) | apply (backupLoop_adds env names _ (S n) [])].
        - cbn [fs]. rewrite nodeAt_lookup in * by apply backupDir_not_nil.
          rewrite lookup_insert_ne; [exact Hdir|]. apply backup_child_not_backup.
        - cbn [fs]. intros j Hj. destruct (Hrest j Hj) as [cj Hcj]. exists cj.
          rewrite lookup_insert_ne; [exact Hcj|]. apply backup_child_not_upload_child. }
      cbn beta. cbn [fs db].
      intros r st1 tr1 ((-> & Hall & ev & -> & Hcp & He) & _ & Hadd).
      rewrite toCopy_insert in * by assumption. conjs.
      * cbn [length]. f_equal. lia.
      * intros j Hj. apply elem_of_cons in Hj as [Hj|Hj]; [subst j | now apply Hall].
        destruct (Hadd (backupDir env ++ [k])) as [Hp|(i & d & _ & _ & _ & _ & Hp)].
        -- rewrite Hp, lookup_insert_eq. eauto.
        -- rewrite Hp. eauto.
      * exists ([EvExists (Path.child (backupDir env) k) false;
                 EvCopy (Path.child (uploadsDir env) k) (Path.child (backupDir env) k)] ++ ev).
        rewrite <- !app_assoc. conjs; auto.
        cbn [app map]. rewrite !copies_cons. now rewrite Hcp.
Qed.

Lemma uploads_not_prefix_backup (l : list string) :
  ~ (uploadsDir env ++ l) `prefix_of` backupDir env.
Proof.
  rewrite uploadsDir_eq, backupDir_eq, <- app_assoc. intros H%prefix_app_inv.
  destruct H as [x Hx]. discriminate.
Qed.

Lemma backupIntoPartition_complete (files : Fs.t) (catalog : list Product)
    (names : list string) (pre : list Event) :
  Fs.readdir files (uploadsDir env) = Some names ->
  Fs.nodeAt files (backupDir env) = Some Fs.Dir ->
  (forall k, k ∈ names -> exists c, files !! (uploadsDir env ++ [k]) = Some (Fs.File c)) ->
  wp (backupIntoPartition env) pre
     (fun r st1 tr1 =>
        r = Ok tt
        /\ (forall k, k ∈ names -> is_Some (fs st1 !! (backupDir env ++ [k])))
        /\ exists ev,
             tr1 = pre ++ ev
             /\ copies ev = map (Path.child (backupDir env)) (toCopy env files names)
             /\ errors ev = [])
     (mkState files catalog).
Proof.
  intros Hrd Hdir Hfiles. destruct (readdir_Some _ _ _ Hrd) as (Hnd & _ & _).
  unfold backupIntoPartition. wp_step. apply wp_readdirSync; cbn [fs].
  { intros [Hio|Hno]; exfalso; [now rewrite medium_ok in Hio | congruence]. }
  intros names' _ Hrd'. rewrite Hrd in Hrd'. injection Hrd' as <-.
  wp_step.
  eapply wp_conseq;
    [apply (backupLoop_complete names (mkState files catalog) 0 [] Hnd Hdir Hfiles)|].
  cbn beta. cbn [fs]. intros r st1 tr1 (-> & Hall & ev & -> & Hc & He).
  cbn [app Nat.add].
  destruct (0 <? length (toCopy env files names))%nat; wp_steps; conjs; auto.
  - exists (ev ++ [EvBackedUp (length (toCopy env files names))]).
    rewrite copies_app, errors_app, Hc, He, <- app_assoc. cbn. now rewrite app_nil_r.
  - exists ev. auto.
Qed.

Lemma backup_complete (files : Fs.t) (catalog : list Product) (names : list string) :
  Fs.readdir files (uploadsDir env) = Some names ->
  (forall k, k ∈ names -> exists c, files !! (uploadsDir env ++ [k]) = Some (Fs.File c)) ->
  is_Some (Fs.mkdirp files (Path.ofSegs (backupDir env))) ->
  wp (backupImages env) []
     (fun r st1 tr1 =>
        r = Ok tt
        /\ (forall k, k ∈ names -> is_Some (fs st1 !! (backupDir env ++ [k])))
        /\ copies tr1 = map (Path.child (backupDir env)) (toCopy env files names)
        /\ errors tr1 = [])
     (mkState files catalog).
Proof.
  intros Hrd Hfiles [fs' Hmk]. unfold Fs.mkdirp in Hmk. cbn [Path.ofSegs Path.segs] in Hmk.
  destruct (readdir_Some _ _ _ Hrd) as (Hnd & Hnames & Hup).
  destruct (mkdirFrom_lookup _ _ _ _ Hmk) as (Hkeep & Hframe & Hdir).
  cbn [app Path.segs Path.ofSegs] in *. specialize (Hdir (backupDir_not_nil env)).
  unfold backupImages. wp_step. wp_step. wp_step. cbn [fs]. rewrite Hup. cbn [negb].
  wp_step. wp_step. wp_step. cbn [fs].
  destruct (Fs.exists_ files (Path.ofSegs (backupDir env))) eqn:Hbk; cbn [negb].
  - wp_steps.
    eapply wp_conseq.
    { apply (backupIntoPartition_complete files catalog names []); auto.
      unfold Fs.exists_ in Hbk. cbn [Path.ofSegs Path.segs Path.dirslash] in Hbk.
      rewrite nodeAt_lookup in * by apply backupDir_not_nil.
      destruct (files !! backupDir env) as [node|] eqn:E; [|discriminate].
      apply Hkeep in E. congruence. }
    cbn beta. intros r st1 tr1 (-> & Hall & ev & -> & Hc & He).
    wp_steps. conjs; auto.
  - apply wp_mkdirSync.
    { intros [Hio|Hno]; exfalso; [now rewrite medium_ok in Hio|].
      cbn [fs] in Hno. unfold Fs.mkdirp in Hno. cbn [Path.ofSegs Path.segs] in Hno. congruence. }
    intros fs'' _ Hmk'. cbn [fs] in Hmk'. unfold Fs.mkdirp in Hmk'.
    cbn [Path.ofSegs Path.segs] in Hmk'. rewrite Hmk in Hmk'. injection Hmk' as <-.
    assert (Hsame : toCopy env fs' names = toCopy env files names).
    { unfold toCopy. apply List.filter_ext. intros k.
      rewrite !exists_child, Hframe; [reflexivity|]. apply prefix_snoc_not. }
    eapply wp_conseq.
    { apply (backupIntoPartition_complete fs' catalog names []).
      - rewrite <- Hrd. apply readdir_ext.
        + intros n. apply Hframe. apply uploads_not_prefix_backup.
        + rewrite !nodeAt_lookup by apply uploadsDir_not_nil. apply Hframe.
          rewrite <- (app_nil_r (uploadsDir env)). apply uploads_not_prefix_backup.
      - rewrite nodeAt_lookup by apply backupDir_not_nil. exact Hdir.
      - intros k Hk. destruct (Hfiles k Hk) as [c Hc]. exists c. now apply Hkeep. }
    cbn beta. intros r st1 tr1 (-> & Hall & ev & -> & Hc & He). rewrite Hsame in Hc.
    wp_steps. conjs; auto.
Qed.

(** A backup on which nothing fails, run to its end. *)
Lemma backup_fills_partition (files : Fs.t) (catalog : list Product) (names : list string) :
  Fs.readdir files (uploadsDir env) = Some names ->
  (forall k, k ∈ names -> exists c, files !! (uploadsDir env ++ [k]) = Some (Fs.File c)) ->
  is_Some (Fs.mkdirp files (Path.ofSegs (backupDir env))) ->
  exists files' tr,
    run (backupImages env) files catalog = (Ok tt, files', catalog, tr)
    /\ errors tr = []
    /\ copies tr = map (Path.child (backupDir env)) (toCopy env files names)
    /\ (forall k, k ∈ names ->
          files' !! (backupDir env ++ [k])
          = match files !! (backupDir env ++ [k]) with
            | Some node => Some node
            | None => files !! (uploadsDir env ++ [k])
            end)
    /\ forall p,
         files' !! p = files !! p
         \/ (files !! p = None /\ p `prefix_of` backupDir env /\ files' !! p = Some Fs.Dir)
         \/ exists k data,
              p = backupDir env ++ [k] /\ files !! p = None
              /\ files !! (uploadsDir env ++ [k]) = Some (Fs.File data)
              /\ files' !! p = Some (Fs.File data).
Proof.
  intros Hrd Hfiles Hmk.
  destruct (run (backupImages env) files catalog) as [[[r files'] c'] tr] eqn:Hrun.
  pose proof (wp_run _ _ _ _ _ _ _ _ (backup_complete files catalog names Hrd Hfiles Hmk) Hrun)
    as (-> & Hall & Hc & He).
  pose proof (wp_run _ _ _ _ _ _ _ _ (backup_frame env files catalog) Hrun)
    as (_ & Hdb & Hf).
  cbn [fs db] in *. subst c'. exists files', tr. conjs; auto.
  intros k Hk. specialize (Hall k Hk).
  destruct (Hf (backupDir env ++ [k])) as [Hp|[(_ & Hp & _)|(j & data & Heq & Hnone & Hsrc & Hnew)]].
  - rewrite Hp in *. destruct (files !! (backupDir env ++ [k])); [reflexivity | now destruct Hall].
  - exfalso. now apply prefix_snoc_not in Hp.
  - apply app_inj_tail in Heq as [_ <-]. now rewrite Hnone, Hnew, Hsrc.
Qed.

End BackupComplete.

(** X3.  When the medium reports no error, every entry of the uploads
    directory is a regular file and no regular file is in the way of
    today's partition, the backup logs no error, copies exactly the entries
    the partition lacked, and leaves the partition with every entry: those
    it had are as they were, the others hold the content of the upload. *)
Theorem backup_copies_every_upload
    (env : Env) (files : Fs.t) (catalog : list Product) (names : list string) :
  (forall op, ioError env op = false) ->
  Fs.readdir files (uploadsDir env) = Some names ->
  (forall k, k ∈ names -> exists c, files !! (uploadsDir env ++ [k]) = Some (Fs.File c)) ->
  is_Some (Fs.mkdirp files (Path.ofSegs (backupDir env))) ->
  exists files' tr,
    run (backupImages env) files catalog = (Ok tt, files', catalog, tr)
    /\ errors tr = []
    /\ copies tr = map (Path.child (backupDir env)) (toCopy env files names)
    /\ forall k, k ∈ names ->
         files' !! (backupDir env ++ [k])
         = match files !! (backupDir env ++ [k]) with
           | Some node => Some node
           | None => files !! (uploadsDir env ++ [k])
           end.
Proof.
  intros Hio Hrd Hfiles Hmk.
  destruct (backup_fills_partition env Hio files catalog names Hrd Hfiles Hmk)
    as (files' & tr & Hrun & He & Hc & Hall & _).
  now exists files', tr.
Qed.

Lemma backup_copies_every_upload_witness :
  exists files' tr,
    run (backupImages Example.env) Example.files Example.catalog
    = (Ok tt, files', Example.catalog, tr)
    /\ copies tr = [Path.child (backupDir Example.env) "a.png";
                    Path.child (backupDir Example.env) "b.png"]
    /\ files' !! (backupDir Example.env ++ ["b.png"]) = Some (Fs.File []).
Proof.
  destruct (backup_copies_every_upload Example.env Example.files Example.catalog
              ["a.png"; "b.png"])
    as (files' & tr & Hrun & _ & Hc & Hall).
  - reflexivity.
  - reflexivity.
  - intros k Hk. exists [].
    apply elem_of_cons in Hk as [->|Hk]; [reflexivity|].
    apply list_elem_of_singleton in Hk as ->. reflexivity.
  - eexists. reflexivity.
  - exists files', tr. conjs; auto.
    apply (Hall "b.png"). right. left.
Defined.

(** ** The backup on two days *)

Section TwoDays.

Lemma mkdirFrom_mono (todo : list string) :
  forall (done : list string) (a b : Fs.t),
    is_Some (Fs.mkdirFrom a done todo) ->
    (forall q c, q `prefix_of` (done ++ todo) -> b !! q = Some (Fs.File c) ->
                 a !! q = Some (Fs.File c)) ->
    is_Some (Fs.mkdirFrom b done todo).
Proof.
  induction todo as [|s todo IH]; intros done a b Ha Hab; cbn [Fs.mkdirFrom] in *; [eauto|].
  assert (Hd : (done ++ [s]) `prefix_of` (done ++ s :: todo)).
  { exists todo. now rewrite <- app_assoc. }
  assert (Hrest : forall (a' b' : Fs.t),
            (forall q, q <> done ++ [s] -> a' !! q = a !! q) ->
            (forall q, q <> done ++ [s] -> b' !! q = b !! q) ->
            (forall c, b' !! (done ++ [s]) <> Some (Fs.File c)) ->
            forall q c, q `prefix_of` ((done ++ [s]) ++ todo) -> b' !! q = Some (Fs.File c) ->
                        a' !! q = Some (Fs.File c)).
  { intros a' b' Ha' Hb' Hnf q c Hq Hb.
    destruct (decide (q = done ++ [s])) as [->|Hne]; [now apply Hnf in Hb|].
    rewrite Ha' by assumption. rewrite Hb' in Hb by assumption.
    apply Hab; [now rewrite <- app_assoc in Hq | assumption]. }
  destruct (b !! (done ++ [s])) as [[c|]|] eqn:Eb.
  - apply (Hab _ _ Hd) in Eb. rewrite Eb in Ha. now destruct Ha.
  - destruct (a !! (done ++ [s])) as [[c|]|] eqn:Ea; [now destruct Ha | |].
    + apply (IH _ _ _ Ha). apply Hrest; auto. intros c. congruence.
    + apply (IH _ _ _ Ha). apply Hrest; auto.
      * intros q Hq. now apply lookup_insert_ne.
      * intros c. congruence.
  - destruct (a !! (done ++ [s])) as [[c|]|] eqn:Ea; [now destruct Ha | |].
    + apply (IH _ _ _ Ha). apply Hrest; auto.
      * intros q Hq. now apply lookup_insert_ne.
      * intros c. now rewrite lookup_insert_eq.
    + apply (IH _ _ _ Ha). apply Hrest.
      * intros q Hq. now apply lookup_insert_ne.
      * intros q Hq. now apply lookup_insert_ne.
      * intros c. now rewrite lookup_insert_eq.
Qed.

Variables env env2 : Env.
Hypothesis same_root : appRoot env2 = appRoot env.
Hypothesis other_day : Render.isoDate (today env2) <> Render.isoDate (today env).

Lemma uploadsDir_same_root : uploadsDir env2 = uploadsDir env.
Proof. unfold uploadsDir. now rewrite same_root. Qed.

Lemma partitions_differ (k j : string) : backupDir env2 ++ [k] <> backupDir env ++ [j].
Proof.
  rewrite !backupDir_eq, same_root, <- !app_assoc. intros H%app_inv_head.
  injection H as H _. now apply other_day.
Qed.

Lemma entry_not_prefix_of_partition (e e' : Env) (k : string) :
  appRoot e' = appRoot e -> ~ (backupDir e ++ [k]) `prefix_of` backupDir e'.
Proof.
  intros Hroot [x Hx]. apply (f_equal (@length string)) in Hx.
  rewrite !backupDir_eq, Hroot in Hx. rewrite !length_app in Hx. cbn in Hx. lia.
Qed.

End TwoDays.

Section TwoDaysRun.

Variables env env2 : Env.
Hypothesis medium_ok : forall op, ioError env op = false.
Hypothesis medium_ok2 : forall op, ioError env2 op = false.
Hypothesis same_root : appRoot env2 = appRoot env.
Hypothesis other_day : Render.isoDate (today env2) <> Render.isoDate (today env).

Lemma backup_on_two_days (files : Fs.t) (catalog : list Product) (names : list string) :
  Fs.readdir files (uploadsDir env) = Some names ->
  (forall k, k ∈ names -> exists c, files !! (uploadsDir env ++ [k]) = Some (Fs.File c)) ->
  is_Some (Fs.mkdirp files (Path.ofSegs (backupDir env))) ->
  is_Some (Fs.mkdirp files (Path.ofSegs (backupDir env2))) ->
  exists files1 tr1 files2 tr2,
    run (backupImages env) files catalog = (Ok tt, files1, catalog, tr1)
    /\ run (backupImages env2) files1 catalog = (Ok tt, files2, catalog, tr2)
    /\ errors tr1 = [] /\ errors tr2 = []
    /\ forall k, k ∈ names ->
         files2 !! (backupDir env ++ [k])
         = match files !! (backupDir env ++ [k]) with
           | Some node => Some node
           | None => files !! (uploadsDir env ++ [k])
           end
         /\ files2 !! (backupDir env2 ++ [k])
            = match files !! (backupDir env2 ++ [k]) with
              | Some node => Some node
              | None => files !! (uploadsDir env ++ [k])
              end.
Proof.
  intros Hrd Hfiles Hmk Hmk2.
  pose proof (uploadsDir_same_root env env2 same_root) as Hup.
  destruct (backup_fills_partition env medium_ok files catalog names Hrd Hfiles Hmk)
    as (files1 & tr1 & Hrun1 & He1 & _ & Hall1 & Hf1).
  assert (Hsame1 : forall l, files1 !! (uploadsDir env ++ l) = files !! (uploadsDir env ++ l)).
  { intros l. destruct (Hf1 (uploadsDir env ++ l)) as [Hp|[(_ & Hp & _)|(j & d & Heq & _)]].
    - exact Hp.
    - exfalso. now apply uploads_not_prefix_backup in Hp.
    - exfalso. rewrite uploadsDir_eq, backupDir_eq, <- !app_assoc in Heq.
      apply app_inv_head in Heq. discriminate. }
  assert (Hrd1 : Fs.readdir files1 (uploadsDir env2) = Some names).
  { rewrite Hup, <- Hrd. apply readdir_ext; [intros n; apply Hsame1|].
    rewrite !nodeAt_lookup by apply uploadsDir_not_nil.
    rewrite <- (app_nil_r (uploadsDir env)). apply Hsame1. }
  assert (Hfiles1 : forall k, k ∈ names ->
             exists c, files1 !! (uploadsDir env2 ++ [k]) = Some (Fs.File c)).
  { intros k Hk. rewrite Hup, Hsame1. now apply Hfiles. }
  assert (Hmk1 : is_Some (Fs.mkdirp files1 (Path.ofSegs (backupDir env2)))).
  { unfold Fs.mkdirp in *. cbn [Path.ofSegs Path.segs] in *.
    apply (mkdirFrom_mono _ _ files files1 Hmk2). cbn [app].
    intros q c Hq Hc.
    destruct (Hf1 q) as [Hp|[(_ & _ & Hp)|(j & d & -> & _)]]; [congruence | congruence |].
    exfalso. now apply (entry_not_prefix_of_partition env env2 j same_root) in Hq. }
  destruct (backup_fills_partition env2 medium_ok2 files1 catalog names Hrd1 Hfiles1 Hmk1)
    as (files2 & tr2 & Hrun2 & He2 & _ & Hall2 & Hf2).
  exists files1, tr1, files2, tr2. conjs; auto.
  intros k Hk. split.
  - rewrite <- (Hall1 k Hk).
    destruct (Hf2 (backupDir env ++ [k])) as [Hp|[(_ & Hp & _)|(j & d & Heq & _)]].
    + exact Hp.
    + exfalso. now apply (entry_not_prefix_of_partition env env2 k same_root) in Hp.
    + exfalso. symmetry in Heq. now apply (partitions_differ env env2 same_root other_day) in Heq.
  - rewrite (Hall2 k Hk), Hup, (Hsame1 [k]).
    assert (Hsame2 : files1 !! (backupDir env2 ++ [k]) = files !! (backupDir env2 ++ [k])).
    { destruct (Hf1 (backupDir env2 ++ [k])) as [Hp|[(_ & Hp & _)|(j & d & Heq & _)]].
      - exact Hp.
      - exfalso. now apply (entry_not_prefix_of_partition env2 env k (eq_sym same_root)) in Hp.
      - exfalso. now apply (partitions_differ env env2 same_root other_day) in Heq. }
    now rewrite Hsame2.
Qed.

End TwoDaysRun.

(** X4.  A backup on another day fills a second partition.  When
    nothing fails on either day, the two dates name different partitions,
    and after a backup on the first day and one on the second both
    partitions have every entry of the uploads directory: an entry a
    partition had before is as it was, every other one holds the content
    of the upload. *)
Theorem backup_on_another_day_fills_a_second_partition
    (env env2 : Env) (files : Fs.t) (catalog : list Product) (names : list string) :
  (forall op, ioError env op = false) ->
  (forall op, ioError env2 op = false) ->
  appRoot env2 = appRoot env ->
  Render.isoDate (today env2) <> Render.isoDate (today env) ->
  Fs.readdir files (uploadsDir env) = Some names ->
  (forall k, k ∈ names -> exists c, files !! (uploadsDir env ++ [k]) = Some (Fs.File c)) ->
  is_Some (Fs.mkdirp files (Path.ofSegs (backupDir env))) ->
  is_Some (Fs.mkdirp files (Path.ofSegs (backupDir env2))) ->
  backupDir env2 <> backupDir env
  /\ exists files1 tr1 files2 tr2,
       run (backupImages env) files catalog = (Ok tt, files1, catalog, tr1)
       /\ run (backupImages env2) files1 catalog = (Ok tt, files2, catalog, tr2)
       /\ errors tr1 = [] /\ errors tr2 = []
       /\ forall k, k ∈ names ->
            files2 !! (backupDir env ++ [k])
            = match files !! (backupDir env ++ [k]) with
              | Some node => Some node
              | None => files !! (uploadsDir env ++ [k])
              end
            /\ files2 !! (backupDir env2 ++ [k])
               = match files !! (backupDir env2 ++ [k]) with
                 | Some node => Some node
                 | None => files !! (uploadsDir env ++ [k])
                 end.
Proof.
  intros Hio Hio2 Hroot Hday Hrd Hfiles Hmk Hmk2. split.
  - intros Heq. apply (partitions_differ env env2 Hroot Hday EmptyString EmptyString).
    now rewrite Heq.
  - now apply backup_on_two_days.
Qed.

Lemma backup_on_another_day_fills_a_second_partition_witness :
  let env2 := mkEnv ["srv"; "app"] 1700086400000%N [1; 2; 35; 10] (2024%N, 3%N, 8%N)
                    (fun _ => []) (fun _ => false) false (fun _ => true) "p2" in
  exists files2 : Fs.t,
    files2 !! (backupDir Example.env ++ ["a.png"]) = Some (Fs.File [])
    /\ files2 !! (backupDir env2 ++ ["a.png"]) = Some (Fs.File []).
Proof.
  intros env2.
  destruct (backup_on_another_day_fills_a_second_partition Example.env env2
              Example.files Example.catalog ["a.png"; "b.png"])
    as (_ & files1 & tr1 & files2 & tr2 & _ & _ & _ & _ & Hall); try reflexivity.
  - discriminate.
  - intros k Hk. exists [].
    apply elem_of_cons in Hk as [->|Hk]; [reflexivity|].
    apply list_elem_of_singleton in Hk as ->. reflexivity.
  - eexists. reflexivity.
  - eexists. reflexivity.
  - exists files2. apply (Hall "a.png"). left.
Defined.

(** ** The hooks of [server.js] *)

Section Hooks.

Lemma run_bind_Ok {A B} (m : M A) (k : A -> M B) (files f1 : Fs.t) (catalog c1 : list Product)
    (a : A) (t1 : list Event) :
  run m files catalog = (Ok a, f1, c1, t1) ->
  run (bind m k) files catalog
  = let '(r, f2, c2, t2) := run (k a) f1 c1 in (r, f2, c2, t1 ++ t2).
Proof.
  unfold run, bind. destruct (m _) as [[r0 [f0 c0]] tr0]. cbn [fs db].
  intros [= -> -> -> ->]. now destruct (k a _) as [[r2 [f2 c2]] t2].
Qed.

Lemma run_tryCatch_Ok {A} (m : M A) (h : string -> M A) (files f1 : Fs.t)
    (catalog c1 : list Product) (a : A) (t1 : list Event) :
  run m files catalog = (Ok a, f1, c1, t1) ->
  run (tryCatch m h) files catalog = (Ok a, f1, c1, t1).
Proof.
  unfold run, tryCatch. destruct (m _) as [[r0 [f0 c0]] tr0]. cbn [fs db].
  now intros [= -> -> -> ->].
Qed.

End Hooks.

(** X5.  The start-up hook runs the orphan sweep and then the backup on
    what the sweep left, whatever the sweep met: both end normally, the
    trace is the one of the sweep followed by the one of the backup, and
    the hook's own catch is not reached.  The shutdown hook does what the
    backup does and exits with code 0. *)
Theorem initial_sweeps_run_sweep_then_backup
    (env : Env) (files : Fs.t) (catalog : list Product) :
  (exists files1 tr1 files2 tr2,
     run (cleanupOrphanedImages env) files catalog = (Ok tt, files1, catalog, tr1)
     /\ run (backupImages env) files1 catalog = (Ok tt, files2, catalog, tr2)
     /\ run (initialSweeps env) files catalog = (Ok tt, files2, catalog, tr1 ++ tr2))
  /\ (exists files' tr,
        run (backupImages env) files catalog = (Ok tt, files', catalog, tr)
        /\ run (shutdown env) files catalog = (Ok 0%nat, files', catalog, tr)).
Proof.
  split.
  - destruct (cleanup_run_frame env files catalog)
      as (files1 & tr1 & Hc & _).
    destruct (backup_run_frame env files1 catalog)
      as (files2 & tr2 & Hb & _).
    exists files1, tr1, files2, tr2. conjs; auto.
    unfold initialSweeps. apply run_tryCatch_Ok.
    rewrite (run_bind_Ok _ _ _ _ _ _ _ _ Hc). now rewrite Hb.
  - destruct (backup_run_frame env files catalog)
      as (files' & tr & Hb & _).
    exists files', tr. split; [exact Hb|].
    unfold shutdown.
    rewrite (run_bind_Ok _ _ _ _ _ _ _ _ (run_tryCatch_Ok _ _ _ _ _ _ _ _ Hb)).
    unfold run, ret. cbn [fs db]. now rewrite app_nil_r.
Qed.



(** ** Deleting a product *)

Section Delete.

Variable env : Env.

Lemma deleteProduct_found (req : Request) (id : string) (product : Product) (st : State) :
  dbDown env = false -> params_id req = Some id -> id <> EmptyString ->
  find (fun p => String.eqb (_id p) id) (db st) = Some product ->
  wp (deleteProduct env req) []
     (fun r st' tr =>
        r = Ok (mkResponse 200 (Message "Product removed successfully"))
        /\ db st' = removeDoc id (db st)
        /\ exists pre,
             tr = pre ++ [EvDelete id]
             /\ match oldImagePathOf env product with
                | None => fs st' = fs st /\ pre = []
                | Some p =>
                    if Fs.exists_ (fs st) p
                    then (ioError env (OpUnlink (Path.segs p)) = false
                          /\ Fs.unlink (fs st) p = Some (fs st')
                          /\ pre = [EvExists p true; EvUnlink p])
                         \/ ((ioError env (OpUnlink (Path.segs p)) = true
                              \/ Fs.unlink (fs st) p = None)
                             /\ fs st' = fs st
                             /\ pre = [EvExists p true;
                                       EvError "Error deleting product image file:"
                                               "unlink failed"])
                    else fs st' = fs st /\ pre = [EvExists p false]
                end) st.
Proof.
  intros Hup Hid Hne Hfind. unfold deleteProduct, oldImagePathOf.
  rewrite Hid. cbn [default Js.truthyRef].
  destruct (String.eqb_spec id EmptyString) as [|_]; [contradiction|]. cbn [negb].
  wp_step. wp_step. apply wp_dbCall; [congruence | intros _]. apply wp_pure.
  cbn beta. unfold Datatypes.id. rewrite Hfind.
  destruct (Js.truthyRef (f_imageUrl (fields product))) eqn:Href.
  - wp_step. wp_step. wp_step. wp_step. cbn [fs].
    destruct (Fs.exists_ (fs st) _) eqn:Hex.
    + apply wp_unlinkSync.
      * intros Hfail. wp_steps; [congruence|]. conjs; auto.
        eexists [_; _]. split; [reflexivity|]. right. auto.
      * intros fs' Hio Hun. wp_steps; [congruence|]. conjs; auto.
        eexists [_; _]. split; [reflexivity|]. left. auto.
    + wp_steps; [congruence|]. conjs; auto. eexists [_]. split; [reflexivity|]. auto.
  - wp_steps; [congruence|]. conjs; auto. exists []. auto.
Qed.

End Delete.

(** X7.  Deleting a product that exists answers 200 and removes its
    record, and the record is the last thing removed: before that, the
    blob of its reference is looked for and, when found, unlinked and gone;
    when the unlink fails the error is logged, the store is as it was, and
    the record is removed all the same.  A product without a reference
    leaves the store untouched. *)
Theorem delete_removes_blob_then_record
    (env : Env) (req : Request) (id : string) (product : Product)
    (files : Fs.t) (catalog : list Product) :
  dbDown env = false -> params_id req = Some id -> id <> EmptyString ->
  find (fun p => String.eqb (_id p) id) catalog = Some product ->
  exists files' pre,
    run (deleteProduct env req) files catalog
    = (Ok (mkResponse 200 (Message "Product removed successfully")),
       files', removeDoc id catalog, pre ++ [EvDelete id])
    /\ match oldImagePathOf env product with
       | None => files' = files /\ pre = []
       | Some p =>
           if Fs.exists_ files p
           then (ioError env (OpUnlink (Path.segs p)) = false
                 /\ Fs.unlink files p = Some files'
                 /\ Fs.exists_ files' p = false
                 /\ pre = [EvExists p true; EvUnlink p])
                \/ ((ioError env (OpUnlink (Path.segs p)) = true \/ Fs.unlink files p = None)
                    /\ files' = files
                    /\ pre = [EvExists p true;
                              EvError "Error deleting product image file:" "unlink failed"])
           else files' = files /\ pre = [EvExists p false]
       end.
Proof.
  intros Hup Hid Hne Hfind.
  destruct (wp_run_ex _ _ files catalog
              (deleteProduct_found env req id product (mkState files catalog) Hup Hid Hne Hfind))
    as (r & files' & c' & tr & Hrun & -> & Hdb & pre & -> & Hblob).
  cbn [fs db] in *. subst c'. exists files', pre. split; [exact Hrun|].
  destruct (oldImagePathOf env product) as [p|]; [|exact Hblob].
  destruct (Fs.exists_ files p); [|exact Hblob].
  destruct Hblob as [(Hio & Hun & Hpre)|Hfail]; [left | now right].
  conjs; auto. eapply unlink_gone; eassumption.
Qed.

Lemma delete_removes_blob_then_record_witness :
  exists files',
    run (deleteProduct Example.env (Example.request (Some "p1") (Example.fullBody Js.Undefined) None))
        Example.files Example.catalog
    = (Ok (mkResponse 200 (Message "Product removed successfully")), files', [],
       [EvExists (imagePathOf Example.env "/uploads/a.png") true;
        EvUnlink (imagePathOf Example.env "/uploads/a.png");
        EvDelete "p1"])
    /\ Fs.exists_ files' (imagePathOf Example.env "/uploads/a.png") = false.
Proof.
  destruct (delete_removes_blob_then_record Example.env
              (Example.request (Some "p1") (Example.fullBody Js.Undefined) None)
              "p1" (Example.product "p1" (Some "/uploads/a.png"))
              Example.files Example.catalog)
    as (files' & pre & Hrun & Hblob); try reflexivity; [discriminate|].
  exists files'. cbn in Hblob.
  destruct Hblob as [(_ & _ & Hgone & ->)|([Hio|Hun] & _)]; try discriminate.
  split; [exact Hrun | exact Hgone].
Defined.

(** X8.  Get-by-id, update and delete answer 400 for a request whose id
    is missing or empty, before the catalog is asked (so also when the
    catalog is down) and before any image of the request is looked at: the
    store and the catalog are as they were and nothing is logged. *)
Theorem missing_id_is_rejected_before_the_catalog_is_asked
    (env : Env) (req : Request) (files : Fs.t) (catalog : list Product) :
  Js.truthyRef (params_id req) = false ->
  let required :=
    (Ok (mkResponse 400 (Message "Product ID is required")), files, catalog, []) in
  run (getProductById env req) files catalog = required
  /\ run (updateProduct env req) files catalog = required
  /\ run (deleteProduct env req) files catalog = required.
Proof.
  intros Hid required. unfold required, getProductById, updateProduct, deleteProduct.
  rewrite Hid. auto.
Qed.

Lemma missing_id_is_rejected_before_the_catalog_is_asked_witness :
  let env := mkEnv ["srv"; "app"] 1700000000000%N [1; 2; 35; 10] (2024%N, 3%N, 7%N)
                   (fun _ => []) (fun _ => false) true (fun _ => true) "p2" in
  let req := Example.request (Some EmptyString)
               (Example.fullBody (Js.Str "data:image/png;base64,AAAA")) (Some "b.png") in
  run (updateProduct env req) Example.files Example.catalog
  = (Ok (mkResponse 400 (Message "Product ID is required")),
     Example.files, Example.catalog, []).
Proof.
  intros env req.
  apply (missing_id_is_rejected_before_the_catalog_is_asked env req
           Example.files Example.catalog).
  reflexivity.
Defined.

(** ** Updating without a new image, and the fields of an update *)

Section UpdateFields.

Variable env : Env.

Lemma writes_app (a b : list Event) : writes (a ++ b) = writes a ++ writes b.
Proof. apply omap_app. Qed.

Lemma removeOldImage_quiet (old : option Path.t) (url : option string)
    (pre : list Event) (st : State) :
  wp (removeOldImage env old url) pre
     (fun r st2 tr2 =>
        db st2 = db st
        /\ exists post, tr2 = pre ++ post /\ updates post = [] /\ writes post = []) st.
Proof.
  unfold removeOldImage.
  wp_steps; (split; [reflexivity|]);
    first [ exists []; now rewrite app_nil_r
          | rewrite <- ?app_assoc; eexists; split; [reflexivity|]; split; reflexivity ].
Qed.

Lemma removeOldImage_same (product : Product) :
  removeOldImage env (oldImagePathOf env product) (f_imageUrl (fields product)) = ret tt.
Proof.
  unfold removeOldImage, oldImagePathOf.
  destruct (f_imageUrl (fields product)) as [url|]; [|reflexivity].
  destruct (Js.truthyRef (Some url)); [|reflexivity].
  cbn [default]. now rewrite bool_decide_eq_false_2 by auto.
Qed.

Lemma updateIngest_skipped (req : Request) (product : Product) (pre : list Event) (st : State) :
  suppliesImage req = false ->
  wp (updateIngest env req product) pre
     (fun r st1 tr1 =>
        st1 = st /\ tr1 = pre
        /\ forall x, r = Ok x -> x = inr (f_imageUrl (fields product))) st.
Proof.
  unfold suppliesImage, updateIngest. intros Hs.
  destruct (file req); [discriminate|].
  destruct (b_imageUrl (body req)) as [| |b|q|s|]; try rewrite Hs;
    wp_steps; conjs; auto; intros x [= <-]; reflexivity.
Qed.

Lemma updateProduct_without_image (req : Request) (st : State) :
  suppliesImage req = false ->
  wp (updateProduct env req) []
     (fun r st' tr =>
        fs st' = fs st /\ writes tr = [] /\ unlinks tr = []
        /\ forall d, In (EvUpdate d) tr ->
             exists product,
               find (fun p => String.eqb (_id p) (_id d)) (db st) = Some product
               /\ f_imageUrl (fields d) = f_imageUrl (fields product)
               /\ db st' = replaceDoc (_id d) (fields d) (db st)) st.
Proof.
  intros Hs. unfold updateProduct.
  wp_steps; try (conjs; auto; no_event).
  eapply wp_conseq; [apply (updateIngest_skipped req p [] st Hs)|]. cbn beta.
  intros r1 st1 tr1 (-> & -> & Hr). cbn [app].
  destruct r1 as [x|e]; [rewrite (Hr x eq_refl) | wp_steps; conjs; auto; no_event].
  rewrite removeOldImage_same. unfold validateImageFile.
  wp_steps; try (conjs; auto; no_event); try congruence.
  all: conjs; auto.
  all: intros d Hin; cbn [In] in Hin;
    repeat (destruct Hin as [Hin|Hin]; [try discriminate Hin|]); try contradiction;
    injection Hin as <-.
  all: exists p; cbn [_id fields f_imageUrl]; conjs; auto.
Qed.


End UpdateFields.

(** X9.  An update that brings no new image (no uploaded file, no inline
    string starting with [data:image]) leaves the file store as it is,
    writes and unlinks nothing, and the record it updates keeps its
    reference. *)
Theorem update_without_new_image_keeps_the_store
    (env : Env) (req : Request) (files files' : Fs.t) (catalog catalog' : list Product)
    (r : Res Response) (tr : list Event) :
  suppliesImage req = false ->
  run (updateProduct env req) files catalog = (r, files', catalog', tr) ->
  files' = files /\ writes tr = [] /\ unlinks tr = []
  /\ forall d, In (EvUpdate d) tr ->
       exists product,
         find (fun p => String.eqb (_id p) (_id d)) catalog = Some product
         /\ f_imageUrl (fields d) = f_imageUrl (fields product)
         /\ catalog' = replaceDoc (_id d) (fields d) catalog.
Proof.
  intros Hs Hrun.
  exact (wp_run _ _ _ _ _ _ _ _ (updateProduct_without_image env req _ Hs) Hrun).
Qed.

Lemma update_without_new_image_keeps_the_store_witness :
  let req := Example.request (Some "p1") (Example.fullBody (Js.Str "/uploads/other.png")) None in
  let out := run (updateProduct Example.env req) Example.files Example.catalog in
  snd (fst (fst out)) = Example.files /\ unlinks (snd out) = []
  /\ snd (fst out) = Example.catalog.
Proof.
  intros req out.
  destruct (update_without_new_image_keeps_the_store Example.env req Example.files
              (snd (fst (fst out))) Example.catalog (snd (fst out))
              (fst (fst (fst out))) (snd out))
    as (Hf & _ & Hu & Hd).
  - reflexivity.
  - unfold out. now destruct (run _ _ _) as [[[? ?] ?] ?].
  - conjs; auto.
Defined.



Section UpdateMalformed.

Variable env : Env.


End UpdateMalformed.



(** ** More on creating a product *)

Section CreateMore.

Variable env : Env.

Lemma write_exists (files files' : Fs.t) (p : Path.t) (data : list Byte.byte) :
  Fs.write files p data = Some files' ->
  Fs.exists_ files' p = true /\ files' = <[Path.segs p := Fs.File data]> files.
Proof.
  unfold Fs.write, Fs.exists_. destruct (Path.dirslash p); [discriminate|].
  destruct (Path.segs p) as [|x l]; [discriminate|].
  destruct (Fs.nodeAt files (removelast (x :: l))) as [[c|]|]; try discriminate.
  destruct (Fs.nodeAt files (x :: l)) as [[c|]|]; intros [= <-];
    cbn [Fs.nodeAt]; now rewrite lookup_insert_eq.
Qed.

Lemma createProduct_upload (req : Request) (filename : string) (st : State) :
  file req = Some filename ->
  wp (createProduct env req) []
     (fun r st' tr =>
        fs st' = fs st /\ writes tr = [] /\ unlinks tr = []
        /\ forall d, In (EvSave d) tr ->
             f_imageUrl (fields d) = Some ("/uploads/" +:+ filename)
             /\ Fs.exists_ (fs st) (Path.join (uploadsDir env) filename) = true) st.
Proof.
  intros Hf. unfold createProduct, createIngest, validateImageFile. rewrite Hf.
  wp_steps; conjs; auto; try no_event.
  all: intros d Hin; cbn [In] in Hin;
    repeat (destruct Hin as [Hin|Hin]; [try discriminate Hin|]); try contradiction;
    injection Hin as <-; auto.
Qed.

Lemma createProduct_required (req : Request) (st : State) :
  requiredMissing (body req) = true ->
  wp (createProduct env req) []
     (fun r st' tr =>
        db st' = db st /\ saves tr = []
        /\ exists resp, r = Ok resp /\ status resp <> 201) st.
Proof.
  intros Hr. unfold createProduct, createIngest, createFromBase64. rewrite Hr.
  wp_steps; conjs; auto; eexists; (split; [reflexivity|]); discriminate.
Qed.

Lemma createProduct_gates (req : Request) (st : State) :
  file req <> Some EmptyString ->
  wp (createProduct env req) []
     (fun r st' tr =>
        exists resp,
          r = Ok resp
          /\ json resp <> Message "Failed to validate uploaded image"
          /\ json resp <> Message "Failed to save base64 image") st.
Proof.
  intros Hf. unfold createProduct, createIngest, createFromBase64, validateImageFile.
  wp_steps; try (eexists; split; [reflexivity|]; split; discriminate).
  all: exfalso; cbn [fs] in *.
  all: repeat match goal with
         | H : Fs.write _ _ _ = Some _ |- _ => apply write_exists in H as [? ?]
         end.
  all: try congruence.
  all: match goal with
       | H : Fs.exists_ _ (Path.join (appRoot env) (Js.stripLeadingSlash ("/uploads/" +:+ ?n))) = false |- _ =>
           fold (imagePathOf env ("/uploads/" +:+ n)) in H;
           rewrite (imagePathOf_uploads env n) in H by (congruence || discriminate)
       end.
  all: congruence.
Qed.

Lemma createProduct_frame (req : Request) (st : State) :
  wp (createProduct env req) []
     (fun r st' tr =>
        unlinks tr = []
        /\ (forall p, p ∈ writes tr ->
              exists ext, DataUri.allLetters ext = true
                          /\ p = Path.child (uploadsDir env) (base64Filename env ext))
        /\ forall q,
             fs st' !! q = fs st !! q
             \/ (fs st !! q = None /\ q `prefix_of` uploadsDir env /\ fs st' !! q = Some Fs.Dir)
             \/ exists ext data,
                  DataUri.allLetters ext = true
                  /\ q = uploadsDir env ++ [base64Filename env ext]
                  /\ fs st' !! q = Some (Fs.File data)) st.
Proof.
  unfold createProduct, createIngest.
  destruct (file req) as [filename|].
  { unfold validateImageFile.
    wp_steps; conjs; auto; intros p Hp; inversion Hp. }
  destruct (Js.truthy (b_imageUrl (body req))).
  2:{ unfold validateImageFile.
      wp_steps; conjs; auto; intros p Hp; inversion Hp. }
  destruct (b_imageUrl (body req)) as [| |b|q|s|];
    try (wp_steps; conjs; auto; intros p Hp; inversion Hp).
  destruct (Js.startsWith s "data:image").
  2:{ unfold validateImageFile.
      wp_steps; conjs; auto; intros p Hp; inversion Hp. }
  unfold createFromBase64.
  destruct (DataUri.matchDataUri s) as [[ext payload]|] eqn:Hm.
  2:{ wp_steps; conjs; auto; try (intros p Hp; inversion Hp).
      all: intros q;
        match goal with
        | H : Fs.mkdirp _ _ = Some _ |- _ =>
            destruct (mkdirFrom_adds _ _ _ _ H q) as [Hq|Hq]; auto
        end. }
  pose proof (matched_letters _ _ _ Hm) as Hl.
  rewrite (base64_path env ext Hl). unfold validateImageFile.
  assert (Hw : forall p, p ∈ [Path.child (uploadsDir env) (base64Filename env ext)] ->
             exists ext0, DataUri.allLetters ext0 = true
                          /\ p = Path.child (uploadsDir env) (base64Filename env ext0)).
  { intros p Hp. apply list_elem_of_singleton in Hp as ->. eauto. }
  wp_steps; cbn [fs] in *.
  all: conjs; auto; try (intros p Hp; inversion Hp; fail).
  all: repeat match goal with
         | H : Fs.write _ _ _ = Some _ |- _ =>
             apply write_exists in H as [_ ->]; cbn [Path.segs Path.child]
         end.
  all: intros q.
  all: try match goal with
         | H : Fs.mkdirp _ _ = Some _ |- _ =>
             destruct (mkdirFrom_adds _ _ _ _ H q) as [Hq|Hq];
             cbn [app Path.segs Path.ofSegs] in Hq
         end.
  all: try (destruct (decide (q = uploadsDir env ++ [base64Filename env ext])) as [->|Hne];
            [right; right; exists ext; eexists; conjs; auto; apply lookup_insert_eq
            |rewrite lookup_insert_ne by auto; auto]).
  all: auto.
Qed.

End CreateMore.



(** X13.  A create request that comes with an uploaded file never changes
    the file store, whatever its outcome: nothing is written, nothing is
    unlinked (so the uploaded file stays when the request is rejected); the
    inline image field is not looked at, and a record that is saved refers
    to [/uploads/<filename>], which was found in the store. *)
Theorem create_with_upload_leaves_the_store_alone
    (env : Env) (req : Request) (filename : string)
    (files files' : Fs.t) (catalog catalog' : list Product)
    (r : Res Response) (tr : list Event) :
  file req = Some filename ->
  run (createProduct env req) files catalog = (r, files', catalog', tr) ->
  files' = files /\ writes tr = [] /\ unlinks tr = []
  /\ forall d, In (EvSave d) tr ->
       f_imageUrl (fields d) = Some ("/uploads/" +:+ filename)
       /\ Fs.exists_ files (Path.join (uploadsDir env) filename) = true.
Proof.
  intros Hf Hrun.
  exact (wp_run _ _ _ _ _ _ _ _ (createProduct_upload env req filename _ Hf) Hrun).
Qed.

Lemma create_with_upload_leaves_the_store_alone_witness :
  let req := Example.request None
               (Example.untitledBody (Js.Str "data:image/png;base64,AAAA")) (Some "b.png") in
  let out := run (createProduct Example.env req) Example.files Example.catalog in
  snd (fst (fst out)) = Example.files /\ writes (snd out) = [].
Proof.
  intros req out.
  destruct (create_with_upload_leaves_the_store_alone Example.env req "b.png" Example.files
              (snd (fst (fst out))) Example.catalog (snd (fst out))
              (fst (fst (fst out))) (snd out))
    as (Hf & Hw & _).
  - reflexivity.
  - unfold out. now destruct (run _ _ _) as [[[? ?] ?] ?].
  - split; assumption.
Defined.

(** X14.  A create request in which one of title, rating, price and
    discount is falsy (missing, empty, or the number [0]) is answered, but
    not with 201: no record is saved and the catalog is as it was. *)
Theorem create_rejects_falsy_required_field
    (env : Env) (req : Request) (files : Fs.t) (catalog : list Product) :
  Js.truthy (b_title (body req)) = false \/ Js.truthy (b_rating (body req)) = false
  \/ Js.truthy (b_price (body req)) = false \/ Js.truthy (b_discount (body req)) = false ->
  exists resp files' tr,
    run (createProduct env req) files catalog = (Ok resp, files', catalog, tr)
    /\ status resp <> 201 /\ saves tr = [].
Proof.
  intros Hfalsy.
  assert (Hr : requiredMissing (body req) = true).
  { unfold requiredMissing.
    destruct Hfalsy as [H|[H|[H|H]]]; rewrite H; cbn [negb orb];
      now rewrite ?orb_true_r. }
  destruct (wp_run_ex _ _ files catalog (createProduct_required env req _ Hr))
    as (r & files' & c' & tr & Hrun & Hdb & Hs & resp & -> & Hst).
  cbn [db] in Hdb. subst c'. now exists resp, files', tr.
Qed.

Lemma create_rejects_falsy_required_field_witness :
  let b := mkBody (Js.Str "Attar") (Js.Str "Beautiful fragrance") (Js.Num 4) (Js.Num 499)
                  (Js.Num 0) (Js.Str "data:image/png;base64,AAAA") in
  exists resp files' tr,
    run (createProduct Example.env (Example.request None b None)) Example.files Example.catalog
    = (Ok resp, files', Example.catalog, tr)
    /\ status resp <> 201 /\ saves tr = [].
Proof.
  intros b.
  apply (create_rejects_falsy_required_field Example.env (Example.request None b None)).
  right. right. right. reflexivity.
Defined.

(** X15.  A create request is always answered (no exception leaves the
    handler), and in a run that nothing else disturbs the two checks that
    follow a write cannot fail: the answers "Failed to save base64 image"
    and "Failed to validate uploaded image" are never given (for an upload
    with a non-empty file name). *)
Theorem create_checks_after_a_write_cannot_fail
    (env : Env) (req : Request) (files : Fs.t) (catalog : list Product) :
  file req <> Some EmptyString ->
  exists resp files' catalog' tr,
    run (createProduct env req) files catalog = (Ok resp, files', catalog', tr)
    /\ json resp <> Message "Failed to validate uploaded image"
    /\ json resp <> Message "Failed to save base64 image".
Proof.
  intros Hf.
  destruct (wp_run_ex _ _ files catalog (createProduct_gates env req _ Hf))
    as (r & files' & c' & tr & Hrun & resp & -> & H1 & H2).
  now exists resp, files', c', tr.
Qed.

Lemma create_checks_after_a_write_cannot_fail_witness :
  exists resp files' catalog' tr,
    run (createProduct Example.env
           (Example.request None (Example.fullBody (Js.Str "data:image/png;base64,AAAA")) None))
        Example.files Example.catalog
    = (Ok resp, files', catalog', tr)
    /\ json resp <> Message "Failed to validate uploaded image"
    /\ json resp <> Message "Failed to save base64 image".
Proof.
  apply (create_checks_after_a_write_cannot_fail Example.env
           (Example.request None (Example.fullBody (Js.Str "data:image/png;base64,AAAA")) None)).
  discriminate.
Defined.

(** X16.  A create request unlinks nothing and writes only a file with a
    generated name directly under the uploads directory; a node of the
    store that changed is that file, or a directory on the way to the
    uploads directory that was missing. *)
Theorem create_writes_only_generated_names_in_uploads
    (env : Env) (req : Request) (files files' : Fs.t) (catalog catalog' : list Product)
    (r : Res Response) (tr : list Event) :
  run (createProduct env req) files catalog = (r, files', catalog', tr) ->
  unlinks tr = []
  /\ (forall p, p ∈ writes tr ->
        exists ext, DataUri.allLetters ext = true
                    /\ p = Path.child (uploadsDir env) (base64Filename env ext))
  /\ forall q,
       files' !! q = files !! q
       \/ (files !! q = None /\ q `prefix_of` uploadsDir env /\ files' !! q = Some Fs.Dir)
       \/ exists ext data,
            DataUri.allLetters ext = true
            /\ q = uploadsDir env ++ [base64Filename env ext]
            /\ files' !! q = Some (Fs.File data).
Proof.
  intros Hrun.
  exact (wp_run _ _ _ _ _ _ _ _ (createProduct_frame env req _) Hrun).
Qed.

Lemma create_writes_only_generated_names_in_uploads_witness :
  exists ext,
    DataUri.allLetters ext = true
    /\ Path.child (uploadsDir Example.env) (base64Filename Example.env "png")
       = Path.child (uploadsDir Example.env) (base64Filename Example.env ext).
Proof.
  pose (req := Example.request None
                 (Example.fullBody (Js.Str "data:image/png;base64,AAAA")) None).
  pose (out := run (createProduct Example.env req) Example.files Example.catalog).
  destruct (create_writes_only_generated_names_in_uploads Example.env req Example.files
              (snd (fst (fst out))) Example.catalog (snd (fst out))
              (fst (fst (fst out))) (snd out))
    as (_ & Hw & _).
  - unfold out. now destruct (run _ _ _) as [[[? ?] ?] ?].
  - apply Hw. apply list_elem_of_In. vm_compute. auto.
Defined.

(** ** An invariant of the catalog *)

Section CatalogInvariant.

Variable env : Env.

Lemma createProduct_catalog (req : Request) (st : State) :
  wp (createProduct env req) []
     (fun r st' tr =>
        db st' = db st
        \/ exists d, db st' = d :: db st /\ referencesStore d = true) st.
Proof.
  unfold createProduct, createIngest, createFromBase64, validateImageFile.
  wp_steps; auto; try discriminate.
  all: right; eexists; split; [reflexivity|]; reflexivity.
Qed.

Lemma updateIngest_reference (req : Request) (product : Product) (pre : list Event) (st : State) :
  wp (updateIngest env req product) pre
     (fun r st1 tr1 =>
        db st1 = db st
        /\ forall u, r = Ok (inr u) ->
             u = f_imageUrl (fields product)
             \/ exists name, u = Some ("/uploads/" +:+ name)) st.
Proof.
  unfold updateIngest, updateFromBase64.
  wp_steps; (split; [reflexivity|]); intros u [= <-]; eauto.
Qed.

Lemma updateProduct_catalog (req : Request) (st : State) :
  wp (updateProduct env req) []
     (fun r st' tr =>
        db st' = db st
        \/ exists id f product,
             find (fun p => String.eqb (_id p) id) (db st) = Some product
             /\ db st' = replaceDoc id f (db st)
             /\ (f_imageUrl f = f_imageUrl (fields product)
                 \/ exists name, f_imageUrl f = Some ("/uploads/" +:+ name))) st.
Proof.
  unfold updateProduct. wp_steps; auto.
  eapply wp_conseq; [apply updateIngest_reference|]. cbn beta.
  intros r1 st1 tr1 (Hdb1 & Hu).
  destruct r1 as [[early|imageUrl]|e]; wp_steps; auto.
  all: eapply wp_conseq; [apply removeOldImage_quiet|]; cbn beta; cbn [db];
    intros r2 st2 tr2 (Hdb2 & _).
  { destruct r2 as [[]|e]; wp_steps; left; congruence. }
  assert (Hgoal : db st2 = db st
            \/ exists id f product,
                 find (fun q => String.eqb (_id q) id) (db st) = Some product
                 /\ db st2 = replaceDoc id f (db st)
                 /\ (f_imageUrl f = f_imageUrl (fields product)
                     \/ exists name, f_imageUrl f = Some ("/uploads/" +:+ name))).
  { right. eexists _, _, p. split; [exact Heqo|]. split; [now rewrite Hdb2, Hdb1|].
    cbn [f_imageUrl]. now apply Hu. }
  destruct r2 as [[]|e]; wp_steps; auto.
  eapply wp_conseq; [apply validateImageFile_spec|]. cbn beta.
  intros r3 st3 tr3 (-> & -> & _). wp_steps. auto.
Qed.

Lemma deleteProduct_catalog (req : Request) (st : State) :
  wp (deleteProduct env req) []
     (fun r st' tr => db st' = db st \/ exists id, db st' = removeDoc id (db st)) st.
Proof.
  unfold deleteProduct. wp_steps; eauto.
Qed.

Lemma forallb_replaceDoc (P : Product -> bool) (id : string) (f : Fields) (l : list Product) :
  forallb P l = true -> P (mkProduct id f) = true -> forallb P (replaceDoc id f l) = true.
Proof.
  intros Hl Hp. induction l as [|q l IH]; [reflexivity|].
  cbn [forallb replaceDoc] in *. apply andb_true_iff in Hl as [Hq Hl].
  destruct (String.eqb (_id q) id); cbn [forallb]; rewrite ?Hp, ?Hq, ?Hl, ?IH; auto.
Qed.

Lemma forallb_removeDoc (P : Product -> bool) (id : string) (l : list Product) :
  forallb P l = true -> forallb P (removeDoc id l) = true.
Proof.
  intros Hl. induction l as [|q l IH]; [reflexivity|].
  cbn [forallb removeDoc] in *. apply andb_true_iff in Hl as [Hq Hl].
  destruct (String.eqb (_id q) id); cbn [forallb]; rewrite ?Hq, ?IH; auto.
Qed.

Lemma referencesStore_hasReference (l : list Product) :
  forallb referencesStore l = true -> forallb hasReference l = true.
Proof.
  induction l as [|q l IH]; [reflexivity|]. cbn [forallb].
  intros [Hq Hl]%andb_true_iff. rewrite (IH Hl), andb_true_r.
  unfold referencesStore in Hq. unfold hasReference.
  now destruct (f_imageUrl (fields q)).
Qed.

End CatalogInvariant.

(** X17.  Create, update and delete keep the catalog within references
    that start with [/uploads/]: if every record has such a reference
    before the request, every record has one after it, whatever the
    outcome.  In particular no record is left without a reference. *)
Theorem handlers_keep_references_in_the_store
    (env : Env) (req : Request) (files files' : Fs.t) (catalog catalog' : list Product)
    (r : Res Response) (tr : list Event) :
  forallb referencesStore catalog = true ->
  run (createProduct env req) files catalog = (r, files', catalog', tr)
  \/ run (updateProduct env req) files catalog = (r, files', catalog', tr)
  \/ run (deleteProduct env req) files catalog = (r, files', catalog', tr) ->
  forallb referencesStore catalog' = true /\ forallb hasReference catalog' = true.
Proof.
  intros Hinv Hrun.
  assert (H : forallb referencesStore catalog' = true);
    [|split; [exact H | now apply referencesStore_hasReference]].
  destruct Hrun as [Hrun|[Hrun|Hrun]].
  - pose proof (wp_run _ _ _ _ _ _ _ _ (createProduct_catalog env req _) Hrun) as Hc.
    cbn [db] in Hc. destruct Hc as [->|(d & -> & Hd)]; [exact Hinv|].
    cbn [forallb]. now rewrite Hd, Hinv.
  - pose proof (wp_run _ _ _ _ _ _ _ _ (updateProduct_catalog env req _) Hrun) as Hc.
    cbn [db] in Hc. destruct Hc as [->|(id & f & product & Hfind & -> & Href)]; [exact Hinv|].
    apply forallb_replaceDoc; [exact Hinv|].
    unfold referencesStore. cbn [fields].
    destruct Href as [->|[name ->]]; [|reflexivity].
    apply find_some in Hfind as [Hin _].
    rewrite forallb_forall in Hinv. exact (Hinv product Hin).
  - pose proof (wp_run _ _ _ _ _ _ _ _ (deleteProduct_catalog env req _) Hrun) as Hc.
    cbn [db] in Hc. destruct Hc as [->|(id & ->)]; [exact Hinv|].
    now apply forallb_removeDoc.
Qed.

Lemma handlers_keep_references_in_the_store_witness :
  let req := Example.request (Some "p1")
               (Example.fullBody (Js.Str "data:image/png;base64,AAAA")) None in
  let out := run (updateProduct Example.env req) Example.files Example.catalog in
  forallb referencesStore (snd (fst out)) = true
  /\ forallb hasReference (snd (fst out)) = true.
Proof.
  intros req out.
  apply (handlers_keep_references_in_the_store Example.env req Example.files
           (snd (fst (fst out))) Example.catalog (snd (fst out))
           (fst (fst (fst out))) (snd out)).
  - reflexivity.
  - right. left. unfold out. now destruct (run _ _ _) as [[[? ?] ?] ?].
Defined.

(** ** Writing, then reading *)

Section RoundTrips.

Variable env : Env.

Lemma createProduct_201 (req : Request) (st : State) :
  wp (createProduct env req) []
     (fun r st' tr =>
        forall resp, r = Ok resp -> status resp = 201 ->
          dbDown env = false
          /\ exists ref,
               let d := mkProduct (freshId env)
                          (mkFields (b_title (body req)) (b_description (body req))
                                    (b_rating (body req)) (b_price (body req))
                                    (b_discount (body req)) (Some ref)) in
               json resp = OneProduct (mkEnhanced d (Some true)
                                         (Some (getFullImageUrl (Some ref) req)))
               /\ Js.truthyRef (Some ref) = true
               /\ db st' = d :: db st
               /\ Fs.exists_ (fs st') (imagePathOf env ref) = true
               /\ (file req = None ->
                   exists ext data,
                     DataUri.allLetters ext = true
                     /\ ref = "/uploads/" +:+ base64Filename env ext
                     /\ fs st' !! (uploadsDir env ++ [base64Filename env ext])
                        = Some (Fs.File data))) st.
Proof.
  unfold createProduct, createIngest, createFromBase64, validateImageFile.
  wp_steps; try (intros resp [= <-] Hs; discriminate Hs); try discriminate.
  all: intros resp [= <-] _; (split; [assumption|]).
  all: match goal with
       | H : schemaAccepts env (mkFields _ _ _ _ _ (Some ?u)) = true |- _ => exists u
       end; cbv zeta; cbn [json fields f_imageUrl].
  all: split; [reflexivity|]; split; [assumption|]; split; [reflexivity|];
    split; [assumption|].
  all: intros Hnone; try congruence.
  all: match goal with
       | Hm : DataUri.matchDataUri _ = Some (?ext, _),
         Hw : Fs.write _ _ ?data = Some _ |- _ =>
           pose proof (matched_letters _ _ _ Hm) as Hl;
           rewrite (base64_path env ext Hl) in Hw;
           apply write_exists in Hw as [_ ->];
           exists ext, data; cbn [Path.segs Path.child fs];
           rewrite lookup_insert_eq; auto
       end.
Qed.

Lemma deleteProduct_200 (req : Request) (st : State) :
  wp (deleteProduct env req) []
     (fun r st' tr =>
        forall resp, r = Ok resp -> status resp = 200 ->
          dbDown env = false /\ Js.truthyRef (params_id req) = true
          /\ db st' = removeDoc (default EmptyString (params_id req)) (db st)) st.
Proof.
  unfold deleteProduct.
  wp_steps; try (intros resp [= <-] Hs; discriminate Hs); try discriminate.
  all: intros resp [= <-] _; auto.
Qed.

Lemma updateProduct_200 (req : Request) (st : State) :
  wp (updateProduct env req) []
     (fun r st' tr =>
        forall resp, r = Ok resp -> status resp = 200 ->
          dbDown env = false /\ Js.truthyRef (params_id req) = true
          /\ exists f e,
               json resp = OneProduct e
               /\ doc e = mkProduct (default EmptyString (params_id req)) f
               /\ find (fun p => String.eqb (_id p) (default EmptyString (params_id req)))
                       (db st) <> None
               /\ db st' = replaceDoc (default EmptyString (params_id req)) f (db st)) st.
Proof.
  unfold updateProduct. wp_steps; try (intros resp [= <-] Hs; discriminate Hs).
  eapply wp_conseq; [apply (updateIngest_spec env req p [] st)|]. cbn beta.
  intros r1 st1 tr1 (Hdb1 & _ & Hearly & _). cbn [app].
  destruct r1 as [[early|imageUrl]|e]; wp_steps;
    try (intros resp [= <-] Hs; discriminate Hs).
  { intros resp [= <-] Hs. now apply Hearly in Hs. }
  all: eapply wp_conseq; [apply removeOldImage_quiet|]; cbn beta; cbn [db];
    intros r2 st2 tr2 (Hdb2 & _).
  all: destruct r2 as [[]|e]; wp_steps; try (intros resp [= <-] Hs; discriminate Hs).
  eapply wp_conseq; [apply validateImageFile_spec|]. cbn beta.
  intros r3 st3 tr3 (-> & -> & _). wp_steps.
  intros resp [= <-] _. conjs; auto. eexists _, _. cbn [json doc].
  split; [reflexivity|]. split; [reflexivity|]. split; [discriminate|].
  rewrite Hdb2, Hdb1. reflexivity.
Qed.

Lemma find_replaceDoc (id : string) (f : Fields) (l : list Product) :
  find (fun p => String.eqb (_id p) id) l <> None ->
  find (fun p => String.eqb (_id p) id) (replaceDoc id f l) = Some (mkProduct id f).
Proof.
  induction l as [|q l IH]; [now intros H|]. cbn [find replaceDoc].
  destruct (String.eqb (_id q) id) eqn:E.
  - intros _. cbn [find _id]. now rewrite String.eqb_refl.
  - intros H. cbn [find]. rewrite E. now apply IH.
Qed.

Lemma find_absent (id : string) (l : list Product) :
  ~ In id (map _id l) -> find (fun p => String.eqb (_id p) id) l = None.
Proof.
  induction l as [|q l IH]; [reflexivity|]. cbn [map In find]. intros H.
  destruct (String.eqb_spec (_id q) id) as [Heq|_]; [tauto|]. apply IH. tauto.
Qed.

Lemma find_removeDoc (id : string) (l : list Product) :
  List.NoDup (map _id l) -> find (fun p => String.eqb (_id p) id) (removeDoc id l) = None.
Proof.
  induction l as [|q l IH]; [reflexivity|]. cbn [map removeDoc].
  intros Hnd. apply List.NoDup_cons_iff in Hnd as [Hq Hnd].
  destruct (String.eqb_spec (_id q) id) as [<-|Hne].
  - now apply find_absent.
  - cbn [find]. destruct (String.eqb_spec (_id q) id); [contradiction|]. now apply IH.
Qed.

Lemma truthyRef_Some (o : option string) :
  Js.truthyRef o = true -> exists id, o = Some id /\ id <> EmptyString.
Proof.
  destruct o as [id|]; [|discriminate]. cbn.
  destruct (String.eqb_spec id EmptyString); [discriminate|]. eauto.
Qed.

Lemma getProductById_missing (req : Request) (id : string)
    (files : Fs.t) (catalog : list Product) :
  dbDown env = false -> params_id req = Some id -> id <> EmptyString ->
  find (fun p => String.eqb (_id p) id) catalog = None ->
  run (getProductById env req) files catalog
  = (Ok (mkResponse 404 (Message "Product not found")), files, catalog, []).
Proof.
  intros Hup Hid Hne Hfind.
  assert (Ht : Js.truthyRef (Some id) = true).
  { cbn. now destruct (String.eqb_spec id EmptyString). }
  unfold getProductById. rewrite Hid, Ht. cbn [negb default].
  unfold run, tryCatch, bind, dbFindById, dbCall. rewrite Hup. cbn [fs db].
  unfold Datatypes.id. now rewrite Hfind.
Qed.

End RoundTrips.

(** X18.  What a create request saved is read back: after an answer 201,
    a get-by-id request for the new id answers 200 with the same document,
    [imageExists: true] and the full URL of its reference. *)
Theorem created_product_is_read_back
    (env : Env) (req req2 : Request) (files files' : Fs.t) (catalog catalog' : list Product)
    (resp : Response) (tr : list Event) :
  run (createProduct env req) files catalog = (Ok resp, files', catalog', tr) ->
  status resp = 201 ->
  freshId env <> EmptyString ->
  params_id req2 = Some (freshId env) ->
  exists d tr2,
    (exists e, json resp = OneProduct e /\ doc e = d)
    /\ run (getProductById env req2) files' catalog'
       = (Ok (mkResponse 200
                (OneProduct (mkEnhanced d (Some true)
                   (Some (getFullImageUrl (f_imageUrl (fields d)) req2))))),
          files', catalog', tr2).
Proof.
  intros Hrun Hs Hfresh Hid.
  destruct (wp_run _ _ _ _ _ _ _ _ (createProduct_201 env req _) Hrun resp eq_refl Hs)
    as (Hup & ref & Hjson & Href & Hdb & Hex & _).
  cbv zeta in *. cbn [fs db] in *.
  set (d := mkProduct (freshId env)
              (mkFields (b_title (body req)) (b_description (body req)) (b_rating (body req))
                        (b_price (body req)) (b_discount (body req)) (Some ref))) in *.
  assert (Hfind : find (fun q => String.eqb (_id q) (freshId env)) catalog' = Some d).
  { rewrite Hdb. cbn [find _id d]. now rewrite String.eqb_refl. }
  destruct (wp_run_ex _ _ files' catalog'
              (getProductById_spec env req2 (freshId env) d (mkState files' catalog')
                 Hup Hid Hfresh Hfind))
    as (r & f2 & c2 & tr2 & Hrun2 & [= -> ->] & e & -> & He & Ha).
  exists d, tr2. split; [eexists; split; [exact Hjson | reflexivity]|].
  rewrite Hrun2. do 5 f_equal.
  destruct e as [d0 ie fu]. cbn [doc] in He. subst d0.
  unfold annotated in Ha. cbn [doc imageExists fullImageUrl fields f_imageUrl d] in Ha.
  rewrite Href in Ha. destruct Ha as [-> ->].
  unfold blobFound. rewrite Href. cbn [default fs andb]. unfold Datatypes.id.
  now rewrite Hex.
Qed.

Lemma created_product_is_read_back_witness :
  let req := Example.request None
               (Example.fullBody (Js.Str "data:image/png;base64,AAAA")) None in
  let req2 := Example.request (Some "p2") (Example.fullBody Js.Undefined) None in
  let out := run (createProduct Example.env req) Example.files Example.catalog in
  exists d tr2,
    run (getProductById Example.env req2) (snd (fst (fst out))) (snd (fst out))
    = (Ok (mkResponse 200
             (OneProduct (mkEnhanced d (Some true)
                (Some (getFullImageUrl (f_imageUrl (fields d)) req2))))),
       snd (fst (fst out)), snd (fst out), tr2).
Proof.
  intros req req2 out.
  destruct (created_product_is_read_back Example.env req req2 Example.files
              (snd (fst (fst out))) Example.catalog (snd (fst out))
              (mkResponse 201
                 (OneProduct (mkEnhanced
                    (Example.product "p2"
                       (Some ("/uploads/" +:+ base64Filename Example.env "png")))
                    (Some true)
                    (Some (Some ("https://shop.example/uploads/"
                                 +:+ base64Filename Example.env "png"))))))
              (snd out))
    as (d & tr2 & _ & Hget).
  - reflexivity.
  - reflexivity.
  - discriminate.
  - reflexivity.
  - now exists d, tr2.
Defined.

(** X19.  Create followed by delete: after a create request with an
    inline image was answered 201, a delete request for the new id (on a
    medium that lets files go) answers 200, the catalog is the one before
    the create, and the blob the create wrote is removed from the store. *)
Theorem create_then_delete_restores_the_catalog
    (env : Env) (req req2 : Request) (files files1 : Fs.t) (catalog catalog1 : list Product)
    (resp : Response) (tr1 : list Event) :
  file req = None ->
  run (createProduct env req) files catalog = (Ok resp, files1, catalog1, tr1) ->
  status resp = 201 ->
  freshId env <> EmptyString ->
  params_id req2 = Some (freshId env) ->
  (forall p, ioError env (OpUnlink p) = false) ->
  exists ext data tr2,
    let blob := uploadsDir env ++ [base64Filename env ext] in
    files1 !! blob = Some (Fs.File data)
    /\ run (deleteProduct env req2) files1 catalog1
       = (Ok (mkResponse 200 (Message "Product removed successfully")),
          delete blob files1, catalog, tr2).
Proof.
  intros Hfile Hrun Hs Hfresh Hid Hio.
  destruct (wp_run _ _ _ _ _ _ _ _ (createProduct_201 env req _) Hrun resp eq_refl Hs)
    as (Hup & ref & Hjson & Href & Hdb & Hex & Hblob).
  cbv zeta in *. cbn [fs db] in *.
  destruct (Hblob Hfile) as (ext & data & Hl & -> & Hfile1).
  set (d := mkProduct (freshId env)
              (mkFields (b_title (body req)) (b_description (body req)) (b_rating (body req))
                        (b_price (body req)) (b_discount (body req))
                        (Some ("/uploads/" +:+ base64Filename env ext)))) in *.
  assert (Hfind : find (fun q => String.eqb (_id q) (freshId env)) catalog1 = Some d).
  { rewrite Hdb. cbn [find _id d]. now rewrite String.eqb_refl. }
  destruct (wp_run_ex _ _ files1 catalog1
              (deleteProduct_found env req2 (freshId env) d (mkState files1 catalog1)
                 Hup Hid Hfresh Hfind))
    as (r & f2 & c2 & tr2 & Hrun2 & -> & Hdb2 & pre & -> & Hold).
  cbn [fs db] in *.
  assert (Hrm : removeDoc (freshId env) catalog1 = catalog).
  { rewrite Hdb. cbn [removeDoc _id d]. now rewrite String.eqb_refl. }
  rewrite Hrm in Hdb2. subst c2.
  unfold oldImagePathOf in Hold. cbn [fields f_imageUrl d default] in Hold.
  unfold Datatypes.id in Hold. rewrite Href in Hold.
  rewrite imagePathOf_uploads, (base64_path env ext Hl) in Hold, Hex by discriminate.
  rewrite Hex in Hold. rewrite unlink_child, Hfile1 in Hold.
  exists ext, data, (pre ++ [EvDelete (freshId env)]). cbv zeta. split; [exact Hfile1|].
  destruct Hold as [(_ & [= <-] & _)|([Hbad|Hbad] & _)]; [exact Hrun2 | | discriminate].
  now rewrite Hio in Hbad.
Qed.

Lemma create_then_delete_restores_the_catalog_witness :
  let req := Example.request None
               (Example.fullBody (Js.Str "data:image/png;base64,AAAA")) None in
  let req2 := Example.request (Some "p2") (Example.fullBody Js.Undefined) None in
  let out := run (createProduct Example.env req) Example.files Example.catalog in
  exists ext data tr2,
    run (deleteProduct Example.env req2) (snd (fst (fst out))) (snd (fst out))
    = (Ok (mkResponse 200 (Message "Product removed successfully")),
       delete (uploadsDir Example.env ++ [base64Filename Example.env ext]) (snd (fst (fst out))),
       Example.catalog, tr2)
    /\ snd (fst (fst out)) !! (uploadsDir Example.env ++ [base64Filename Example.env ext])
       = Some (Fs.File data).
Proof.
  intros req req2 out.
  destruct (create_then_delete_restores_the_catalog Example.env req req2 Example.files
              (snd (fst (fst out))) Example.catalog (snd (fst out))
              (mkResponse 201
                 (OneProduct (mkEnhanced
                    (Example.product "p2"
                       (Some ("/uploads/" +:+ base64Filename Example.env "png")))
                    (Some true)
                    (Some (Some ("https://shop.example/uploads/"
                                 +:+ base64Filename Example.env "png"))))))
              (snd out))
    as (ext & data & tr2 & Hblob & Hdel); try reflexivity.
  - discriminate.
  - exists ext, data, tr2. split; [exact Hdel | exact Hblob].
Defined.

(** X20.  With ids that are unique in the catalog, a product that was
    deleted (answer 200) is not found any more: a get-by-id request for
    the same id answers 404. *)
Theorem deleted_product_is_not_found
    (env : Env) (req : Request) (files files' : Fs.t) (catalog catalog' : list Product)
    (resp : Response) (tr : list Event) :
  List.NoDup (map _id catalog) ->
  run (deleteProduct env req) files catalog = (Ok resp, files', catalog', tr) ->
  status resp = 200 ->
  run (getProductById env req) files' catalog'
  = (Ok (mkResponse 404 (Message "Product not found")), files', catalog', []).
Proof.
  intros Hnd Hrun Hs.
  destruct (wp_run _ _ _ _ _ _ _ _ (deleteProduct_200 env req _) Hrun resp eq_refl Hs)
    as (Hup & Ht & Hdb).
  cbn [db] in Hdb. destruct (truthyRef_Some _ Ht) as (id & Hid & Hne).
  rewrite Hid in Hdb. cbn [default] in Hdb. unfold Datatypes.id in Hdb.
  apply (getProductById_missing env req id); auto.
  rewrite Hdb. now apply find_removeDoc.
Qed.

Lemma deleted_product_is_not_found_witness :
  let req := Example.request (Some "p1") (Example.fullBody Js.Undefined) None in
  let out := run (deleteProduct Example.env req) Example.files Example.catalog in
  run (getProductById Example.env req) (snd (fst (fst out))) (snd (fst out))
  = (Ok (mkResponse 404 (Message "Product not found")),
     snd (fst (fst out)), snd (fst out), []).
Proof.
  intros req out.
  apply (deleted_product_is_not_found Example.env req Example.files
           (snd (fst (fst out))) Example.catalog (snd (fst out))
           (mkResponse 200 (Message "Product removed successfully")) (snd out)).
  - repeat constructor. intros [].
  - reflexivity.
  - reflexivity.
Defined.

(** X21.  What an update saved is read back: after an answer 200, a
    get-by-id request for the same id answers 200 with the document the
    update returned. *)
Theorem updated_product_is_read_back
    (env : Env) (req : Request) (files files' : Fs.t) (catalog catalog' : list Product)
    (resp : Response) (tr : list Event) :
  run (updateProduct env req) files catalog = (Ok resp, files', catalog', tr) ->
  status resp = 200 ->
  exists e e2 tr2,
    json resp = OneProduct e
    /\ run (getProductById env req) files' catalog'
       = (Ok (mkResponse 200 (OneProduct e2)), files', catalog', tr2)
    /\ doc e2 = doc e
    /\ annotated env req files' e2.
Proof.
  intros Hrun Hs.
  destruct (wp_run _ _ _ _ _ _ _ _ (updateProduct_200 env req _) Hrun resp eq_refl Hs)
    as (Hup & Ht & f & e & Hjson & Hdoc & Hfound & Hdb).
  cbn [db] in *. destruct (truthyRef_Some _ Ht) as (id & Hid & Hne).
  rewrite Hid in *. cbn [default] in *. unfold Datatypes.id in *.
  assert (Hfind : find (fun q => String.eqb (_id q) id) catalog' = Some (mkProduct id f)).
  { rewrite Hdb. now apply find_replaceDoc. }
  destruct (wp_run_ex _ _ files' catalog'
              (getProductById_spec env req id _ (mkState files' catalog') Hup Hid Hne Hfind))
    as (r & f2 & c2 & tr2 & Hrun2 & [= -> ->] & e2 & -> & He & Ha).
  exists e, e2, tr2. conjs; auto. congruence.
Qed.

Lemma updated_product_is_read_back_witness :
  let req := Example.request (Some "p1")
               (Example.fullBody (Js.Str "data:image/png;base64,AAAA")) None in
  let out := run (updateProduct Example.env req) Example.files Example.catalog in
  exists e2 tr2,
    run (getProductById Example.env req) (snd (fst (fst out))) (snd (fst out))
    = (Ok (mkResponse 200 (OneProduct e2)), snd (fst (fst out)), snd (fst out), tr2)
    /\ doc e2 = Example.product "p1" (Some ("/uploads/" +:+ base64Filename Example.env "png")).
Proof.
  intros req out.
  destruct (updated_product_is_read_back Example.env req Example.files
              (snd (fst (fst out))) Example.catalog (snd (fst out))
              (mkResponse 200
                 (OneProduct (mkEnhanced
                    (Example.product "p1"
                       (Some ("/uploads/" +:+ base64Filename Example.env "png")))
                    (Some true)
                    (Some (Some ("https://shop.example/uploads/"
                                 +:+ base64Filename Example.env "png"))))))
              (snd out))
    as (e & e2 & tr2 & Hjson & Hget & Hdoc & _).
  - reflexivity.
  - reflexivity.
  - exists e2, tr2. split; [exact Hget|]. rewrite Hdoc.
    injection Hjson as <-. reflexivity.
Defined.

(** ** The pattern, the full URL and the middleware *)

Section Matcher.




End Matcher.

(** X22.  The pattern of the inline image, as matched, accepts exactly
    the strings [data:image/<ext>;base64,<payload>] with a non-empty [ext]
    made of letters and a non-empty [payload] without line terminator, and
    returns these two parts. *)
Theorem data_uri_matcher_accepts_exactly_the_shape (s ext payload : string) :
  DataUri.matchDataUri s = Some (ext, payload)
  <-> s = "data:image/" +:+ ext +:+ ";base64," +:+ payload
      /\ ext <> EmptyString /\ DataUri.allLetters ext = true
      /\ payload <> EmptyString /\ DataUri.noLineTerminator payload = true.
Proof. apply matchDataUri_shape. Qed.



Section FullUrl.

Lemma hasPrefix_app (pre a b : string) :
  Js.hasPrefix pre a = true -> Js.hasPrefix pre (a +:+ b) = true.
Proof.
  revert a. induction pre as [|c pre IH]; intros a; [reflexivity|].
  destruct a as [|x a]; [discriminate|]. rewrite append_cons. cbn [Js.hasPrefix].
  intros [-> H]%andb_true_iff. now rewrite (IH _ H).
Qed.

End FullUrl.

(** X24.  For a request whose protocol starts with [http], the full
    image URL is missing exactly when the reference is missing or empty,
    and computing it from its own result changes nothing: a reference
    that starts with [http] is returned as it is. *)
Theorem full_image_url_is_stable (ref : option string) (req : Request) :
  Js.startsWith (protocol req) "http" = true ->
  (getFullImageUrl ref req = None <-> Js.truthyRef ref = false)
  /\ getFullImageUrl (getFullImageUrl ref req) req = getFullImageUrl ref req.
Proof.
  intros Hp. unfold getFullImageUrl.
  destruct ref as [url|]; [|now split].
  destruct (Js.truthyRef (Some url)) eqn:Ht; cbn [negb]; [|now split].
  destruct (Js.startsWith url "http") eqn:Hh.
  { split; [split; discriminate|]. now rewrite Ht, Hh. }
  destruct (Js.startsWith url "/uploads/") eqn:Hu.
  - split; [split; discriminate|].
    assert (Hfull : Js.startsWith (protocol req +:+ "://" +:+ host req +:+ url) "http" = true).
    { unfold Js.startsWith in *. now apply hasPrefix_app. }
    assert (Hne : Js.truthyRef (Some (protocol req +:+ "://" +:+ host req +:+ url)) = true).
    { destruct (protocol req); [discriminate | reflexivity]. }
    now rewrite Hne, Hfull.
  - split; [split; discriminate|]. now rewrite Ht, Hh, Hu.
Qed.

Lemma full_image_url_is_stable_witness :
  let req := Example.request None (Example.fullBody Js.Undefined) None in
  getFullImageUrl (getFullImageUrl (Some "/uploads/a.png") req) req
  = Some "https://shop.example/uploads/a.png".
Proof.
  intros req.
  rewrite (proj2 (full_image_url_is_stable (Some "/uploads/a.png") req eq_refl)).
  reflexivity.
Defined.

Section Middleware.

Variable env : Env.

Lemma ensureUploadsDirectory_spec (files : Fs.t) (catalog : list Product) :
  wp (ensureUploadsDirectory env) []
     (fun r st' tr =>
        db st' = catalog /\ sameFiles (fs st') files /\ files ⊆ fs st'
        /\ match r with
           | Ok None => Fs.exists_ (fs st') (Path.ofSegs (uploadsDir env)) = true
           | Ok (Some resp) =>
               resp = mkResponse 500 (Message "Failed to create uploads directory")
               /\ fs st' = files
               /\ Fs.exists_ files (Path.ofSegs (uploadsDir env)) = false
           | Throw _ => False
           end)
     (mkState files catalog).
Proof.
  unfold ensureUploadsDirectory. wp_steps; cbn [fs db] in *.
  all: try (conjs; auto using sameFiles_refl; fail).
  destruct (mkdirFrom_lookup _ _ _ _ H) as (Hkeep & _ & Hdir).
  cbn [app Path.segs Path.ofSegs] in Hdir. specialize (Hdir (uploadsDir_not_nil env)).
  conjs; auto.
  - eapply mkdirp_sameFiles; eassumption.
  - apply map_subseteq_spec. exact Hkeep.
  - now apply exists_dir.
Qed.

End Middleware.

(** X25.  The middleware never throws and never touches a regular file or
    a node that exists.  When it lets the request through the uploads
    directory exists, and a second run only looks and changes nothing;
    when it answers 500 the directory is missing and the store is as it
    was. *)
Theorem ensure_uploads_directory_is_idempotent
    (env : Env) (files : Fs.t) (catalog : list Product) :
  exists r files' tr,
    run (ensureUploadsDirectory env) files catalog = (Ok r, files', catalog, tr)
    /\ sameFiles files' files /\ files ⊆ files'
    /\ match r with
       | None =>
           Fs.exists_ files' (Path.ofSegs (uploadsDir env)) = true
           /\ run (ensureUploadsDirectory env) files' catalog
              = (Ok None, files', catalog, [EvExists (Path.ofSegs (uploadsDir env)) true])
       | Some resp =>
           resp = mkResponse 500 (Message "Failed to create uploads directory")
           /\ files' = files
           /\ Fs.exists_ files (Path.ofSegs (uploadsDir env)) = false
       end.
Proof.
  destruct (wp_run_ex _ _ files catalog (ensureUploadsDirectory_spec env files catalog))
    as (r & files' & c' & tr & Hrun & Hdb & Hsame & Hsub & Hr).
  cbn [fs db] in *. subst c'. destruct r as [r|e]; [|contradiction].
  exists r, files', tr. conjs; auto.
  destruct r as [resp|]; [exact Hr|]. split; [exact Hr|].
  unfold ensureUploadsDirectory, run, bind, existsSync, ret.
  cbn [fs db]. now rewrite Hr.
Qed.

(** ** What is unlinked, and what a sweep keeps *)

Section UnlinkTargets.

Variable env : Env.

Lemma removeOldImage_target (old : option Path.t) (url : option string)
    (pre : list Event) (st : State) :
  wp (removeOldImage env old url) pre
     (fun r st2 tr2 =>
        exists post, tr2 = pre ++ post /\ forall q, q ∈ unlinks post -> old = Some q) st.
Proof.
  unfold removeOldImage.
  wp_steps; rewrite <- ?app_assoc;
    first [ eexists; split; [reflexivity|]
          | exists []; split; [now rewrite app_nil_r|] ].
  all: cbn; intros q Hq; try (now inversion Hq).
  all: apply list_elem_of_singleton in Hq as ->; reflexivity.
Qed.

Lemma unlinks_cons (e : Event) (l : list Event) :
  unlinks (e :: l) = match e with EvUnlink p => p :: unlinks l | _ => unlinks l end.
Proof. now destruct e. Qed.

Lemma updateProduct_unlinks (req : Request) (st : State) :
  wp (updateProduct env req) []
     (fun r st' tr =>
        forall q, q ∈ unlinks tr ->
          exists product, In product (db st) /\ oldImagePathOf env product = Some q) st.
Proof.
  unfold updateProduct. wp_steps; try (intros q Hq; now inversion Hq).
  eapply wp_conseq; [apply updateIngest_spec|]. cbn beta.
  intros r1 st1 tr1 (_ & (ev & -> & Hu1 & _) & _). cbn [app].
  destruct r1 as [[early|imageUrl]|e]; wp_steps;
    try (intros q Hq; rewrite ?unlinks_app, Hu1 in Hq; now inversion Hq).
  all: eapply wp_conseq; [apply removeOldImage_target|]; cbn beta;
    intros r2 st2 tr2 (post & -> & Hpost).
  all: destruct r2 as [[]|e]; wp_steps.
  all: try (unfold validateImageFile; wp_steps).
  all: intros q Hq; repeat rewrite unlinks_app in Hq; rewrite Hu1 in Hq;
    repeat rewrite unlinks_cons in Hq; change (unlinks []) with (@nil Path.t) in Hq;
    cbn [app] in Hq; rewrite ?app_nil_r in Hq.
  all: exists p; split; [now apply (find_some _ _ Heqo) | now apply Hpost].
Qed.

Lemma deleteProduct_unlinks (req : Request) (st : State) :
  wp (deleteProduct env req) []
     (fun r st' tr =>
        forall q, q ∈ unlinks tr ->
          exists product, In product (db st) /\ oldImagePathOf env product = Some q) st.
Proof.
  unfold deleteProduct. wp_steps; try (intros q Hq; now inversion Hq).
  all: intros q Hq; cbn in Hq; apply list_elem_of_singleton in Hq as ->.
  all: exists p; (split; [now apply (find_some _ _ Heqo)|]).
  all: unfold oldImagePathOf; now rewrite Heqb0.
Qed.

Lemma plainReference_path (product : Product) (q : Path.t) :
  plainReference product = true -> oldImagePathOf env product = Some q ->
  exists name, q = Path.child (uploadsDir env) name.
Proof.
  unfold plainReference, oldImagePathOf.
  destruct (f_imageUrl (fields product)) as [url|]; [|discriminate].
  destruct (DataUri.dropPrefix "/uploads/" url) as [name|] eqn:Hd; [|discriminate].
  apply dropPrefix_Some in Hd as ->.
  intros [Hs Hdots%negb_true_iff]%andb_true_iff.
  change (Js.truthyRef (Some ("/uploads/" +:+ name))) with true. cbn [default].
  intros [= <-]. exists name. unfold Datatypes.id.
  rewrite imagePathOf_uploads by (intros ->; discriminate).
  now apply join_simple.
Qed.

End UnlinkTargets.

(** X26.  When every record refers to [/uploads/<name>] with a plain
    entry name, the create, update and delete handlers unlink nothing but
    entries of the uploads directory. *)
Theorem handlers_unlink_only_inside_uploads
    (env : Env) (req : Request) (files files' : Fs.t) (catalog catalog' : list Product)
    (r : Res Response) (tr : list Event) :
  forallb plainReference catalog = true ->
  run (createProduct env req) files catalog = (r, files', catalog', tr)
  \/ run (updateProduct env req) files catalog = (r, files', catalog', tr)
  \/ run (deleteProduct env req) files catalog = (r, files', catalog', tr) ->
  forall q, q ∈ unlinks tr -> exists name, q = Path.child (uploadsDir env) name.
Proof.
  intros Hplain Hrun q Hq. rewrite forallb_forall in Hplain.
  destruct Hrun as [Hrun|[Hrun|Hrun]].
  - destruct (wp_run _ _ _ _ _ _ _ _ (createProduct_frame env req _) Hrun) as (Hu & _).
    rewrite Hu in Hq. inversion Hq.
  - destruct (wp_run _ _ _ _ _ _ _ _ (updateProduct_unlinks env req _) Hrun q Hq)
      as (product & Hin & Hold).
    eapply plainReference_path; [|exact Hold]. now apply Hplain.
  - destruct (wp_run _ _ _ _ _ _ _ _ (deleteProduct_unlinks env req _) Hrun q Hq)
      as (product & Hin & Hold).
    eapply plainReference_path; [|exact Hold]. now apply Hplain.
Qed.

Lemma handlers_unlink_only_inside_uploads_witness :
  exists name, imagePathOf Example.env "/uploads/a.png" = Path.child (uploadsDir Example.env) name.
Proof.
  pose (req := Example.request (Some "p1") (Example.fullBody Js.Undefined) None).
  pose (out := run (deleteProduct Example.env req) Example.files Example.catalog).
  apply (handlers_unlink_only_inside_uploads Example.env req Example.files
           (snd (fst (fst out))) Example.catalog (snd (fst out))
           (fst (fst (fst out))) (snd out)).
  - reflexivity.
  - right. right. unfold out. now destruct (run _ _ _) as [[[? ?] ?] ?].
  - apply list_elem_of_In. vm_compute. auto.
Defined.

Section Prefixes.

Lemma hasPrefix_split (pre s : string) :
  Js.hasPrefix pre s = true -> exists rest, s = pre +:+ rest.
Proof.
  revert s. induction pre as [|c pre IH]; intros s; [now exists s|].
  destruct s as [|x s]; [discriminate|]. cbn [Js.hasPrefix].
  intros [Hc H]%andb_true_iff. apply Ascii.eqb_eq in Hc as ->.
  destruct (IH _ H) as [rest ->]. now exists rest.
Qed.

End Prefixes.

(** X27.  The blob of a product that a create request saved is not an
    orphan: its reference is [/uploads/<name>], the blob is in the store,
    and a sweep that follows leaves the entry [<name>] of the uploads
    directory as it is. *)
Theorem sweep_keeps_blob_of_created_product
    (env : Env) (req : Request) (files files1 : Fs.t) (catalog catalog1 : list Product)
    (r : Res Response) (tr1 : list Event) (d : Product) :
  run (createProduct env req) files catalog = (r, files1, catalog1, tr1) ->
  In (EvSave d) tr1 ->
  exists name files2 tr2,
    f_imageUrl (fields d) = Some ("/uploads/" +:+ name)
    /\ Fs.exists_ files1 (imagePathOf env ("/uploads/" +:+ name)) = true
    /\ run (cleanupOrphanedImages env) files1 catalog1 = (Ok tt, files2, catalog1, tr2)
    /\ files2 !! (uploadsDir env ++ [name]) = files1 !! (uploadsDir env ++ [name]).
Proof.
  intros Hrun Hin.
  destruct (wp_run _ _ _ _ _ _ _ _ (createProduct_save_last env req _) Hrun d Hin)
    as (ref & pre & Hd & _ & _ & Hex & Hdb & _).
  cbn [fs db] in *.
  pose proof (wp_run _ _ _ _ _ _ _ _ (createProduct_catalog env req _) Hrun) as Hc.
  cbn [db] in Hc. destruct Hc as [Hc|(d' & Hc & Href)].
  { exfalso. rewrite Hc in Hdb. apply (f_equal (@length Product)) in Hdb. cbn in Hdb. lia. }
  rewrite Hdb in Hc. injection Hc as <-.
  unfold referencesStore in Href. rewrite Hd in Href.
  destruct (hasPrefix_split _ _ Href) as [name ->].
  destruct (cleanup_run_frame env files1 catalog1) as (files2 & tr2 & Hrun2 & Hf).
  exists name, files2, tr2. conjs; auto.
  destruct (Hf (uploadsDir env ++ [name])) as [H|(k & c & Ho & Heq & _)]; [exact H|].
  exfalso. apply app_inj_tail in Heq as [_ <-].
  unfold orphan in Ho. apply negb_true_iff in Ho.
  assert (Hlive : Js.includes (liveSet catalog1) ("uploads/" +:+ name) = true); [|congruence].
  rewrite Hdb. unfold liveSet, Js.includes. cbn [map existsb]. rewrite Hd. cbn [default].
  change (Js.stripLeadingSlash ("/uploads/" +:+ name)) with ("uploads/" +:+ name).
  now rewrite String.eqb_refl.
Qed.

Lemma sweep_keeps_blob_of_created_product_witness :
  let req := Example.request None
               (Example.fullBody (Js.Str "data:image/png;base64,AAAA")) None in
  let out := run (createProduct Example.env req) Example.files Example.catalog in
  exists name files2 tr2,
    run (cleanupOrphanedImages Example.env) (snd (fst (fst out))) (snd (fst out))
    = (Ok tt, files2, snd (fst out), tr2)
    /\ files2 !! (uploadsDir Example.env ++ [name])
       = snd (fst (fst out)) !! (uploadsDir Example.env ++ [name]).
Proof.
  intros req out.
  destruct (sweep_keeps_blob_of_created_product Example.env req Example.files
              (snd (fst (fst out))) Example.catalog (snd (fst out))
              (fst (fst (fst out))) (snd out)
              (Example.product "p2"
                 (Some ("/uploads/" +:+ base64Filename Example.env "png"))))
    as (name & files2 & tr2 & _ & _ & Hrun2 & Hkeep).
  - unfold out. now destruct (run _ _ _) as [[[? ?] ?] ?].
  - vm_compute. auto 10.
  - exists name, files2, tr2. split; [exact Hrun2 | exact Hkeep].
Defined.
